(** * GooglePull: a shallow embedding of [GooglePull.py]

    The program drains a Google Drive folder into a local directory: it
    lists the children of a folder, downloads every file, deletes the
    downloaded file from Drive, recurses into the sub-folders and finally
    deletes the folders that have become empty.

    The embedding is a state-and-exception monad over an explicit world
    (the Drive store, the local file system, the progress bars, the pending
    HTTP faults and the standard input).  Every computation also returns
    the list of the events it performed, in the order of the program. *)

From Stdlib Require Import List String Ascii ZArith Lia Bool Arith PeanoNat Sorted.
From Stdlib.Strings Require Import Byte.
Import ListNotations.
Local Open Scope string_scope.
Local Open Scope list_scope.

Set Implicit Arguments.

(** ** Data *)

Definition folder_mime : string := "application/vnd.google-apps.folder".
Definition document_mime : string := "application/vnd.google-apps.document".
Definition spreadsheet_mime : string := "application/vnd.google-apps.spreadsheet".
Definition presentation_mime : string := "application/vnd.google-apps.presentation".
Definition docx_mime : string :=
  "application/vnd.openxmlformats-officedocument.wordprocessingml.document".
Definition xlsx_mime : string :=
  "application/vnd.openxmlformats-officedocument.spreadsheetml.sheet".
Definition pptx_mime : string :=
  "application/vnd.openxmlformats-officedocument.presentationml.presentation".

(** The dictionaries that [list_sources] returns: the fields requested from
    the API ([id, name, md5Checksum, size, mimeType]) and the [resourceKey]
    entry that [list_sources] adds to every one of them.  [md5Checksum] and
    [size] are absent for folders and Google-native documents; [size] holds
    the value of the decimal string that Drive sends. *)
Record item : Type := {
  id : string;
  name : string;
  md5Checksum : option string;
  size : option Z;
  mimeType : string;
  resourceKey : option string
}.

(** A node of the Drive store. *)
Record rnode : Type := {
  r_id : string;
  r_name : string;
  r_md5 : option string;
  r_size : option Z;
  r_mime : string;
  r_parents : list string;
  r_trashed : bool;
  r_content : list byte
}.

(** The [q] parameter of [files().list]. *)
Inductive query : Type :=
| QChildren (parent_id : string)   (* '<parent_id>' in parents and trashed=false *)
| QAll.                            (* trashed=false *)

Definition q_string (q : query) : string :=
  match q with
  | QChildren p => "'" ++ p ++ "' in parents and trashed=false"
  | QAll => "trashed=false"
  end.

(** Local paths are the [parts] of a pathlib path (on POSIX): for an
    absolute path the anchor, "/" or "//", comes first; the components
    follow.  The empty list is [Path('.')]. *)
Definition path : Type := list string.

Inductive fsnode : Type :=
| Dir
| File (data : list byte).

Definition filesystem : Type := list (path * fsnode).

Record pbar : Type := { pb_total : Z; pb_n : Z }.

Inductive exn : Type :=
| HttpError (status : Z)
| OSError
| EOFError
| ValueError.

Inductive level : Type := DEBUG | INFO | WARNING | ERROR.

(** One constructor per log line of the source. *)
Inductive message : Type :=
| MsgListing
| MsgCurrentItems (new_items : list item)
| MsgFinishedListing
| MsgErrorOccurred (e : exn)
| MsgRateLimit (sleep_time : Z)
| MsgUnexpected (e : exn)
| MsgExceeded
| MsgInvalidPath
| MsgProcessing (nm fid : string)
| MsgSkipping (nm : string)
| MsgDownloading
| MsgDownloadComplete
| MsgFileWritten
| MsgFileDeleted (nm : string)
| MsgItemsToDownload (items : list item)
| MsgFolderDeleted (fid : string)
| MsgGettingFiles (fid : string)
| MsgGotAllFiles
| MsgNoSources
| MsgCancelled
| MsgDownloadingFrom (nm : string) (dest : path)
| MsgCompleted
| MsgTraceback.

(** What the program does to the outside: HTTP exchanges with their
    answers, sleeps, log lines, local file operations, progress updates. *)
Inductive event : Type :=
| EvList (q : query) (pageToken : option nat)
         (resp : Z + (list item * option nat))
| EvChunk (fileId : string) (resp : Z + nat)
| EvDelete (fileId : string) (resp : option Z)
| EvSleep (seconds : Z)
| EvLog (lvl : level) (msg : message)
| EvPrint (nm : string)
| EvMkdir (p : path)
| EvRead (p : path)
| EvWrite (p : path) (data : list byte)
| EvPbar (total : Z)
| EvUpdate (handle : nat) (n : Z)
| EvInput.

Record world : Type := {
  remote : list rnode;
  faults : list (option Z);   (* answer of the next HTTP calls: [Some s] is an HttpError *)
  chunksize : positive;       (* chunk size of MediaIoBaseDownload *)
  local : filesystem;
  pbars : list pbar;
  stdin : list string
}.

Definition set_remote (r : list rnode) (w : world) : world :=
  {| remote := r; faults := faults w; chunksize := chunksize w;
     local := local w; pbars := pbars w; stdin := stdin w |}.
Definition set_faults (f : list (option Z)) (w : world) : world :=
  {| remote := remote w; faults := f; chunksize := chunksize w;
     local := local w; pbars := pbars w; stdin := stdin w |}.
Definition set_local (l : filesystem) (w : world) : world :=
  {| remote := remote w; faults := faults w; chunksize := chunksize w;
     local := l; pbars := pbars w; stdin := stdin w |}.
Definition set_pbars (p : list pbar) (w : world) : world :=
  {| remote := remote w; faults := faults w; chunksize := chunksize w;
     local := local w; pbars := p; stdin := stdin w |}.
Definition set_stdin (s : list string) (w : world) : world :=
  {| remote := remote w; faults := faults w; chunksize := chunksize w;
     local := local w; pbars := pbars w; stdin := s |}.

(** ** The monad *)

Inductive outcome (A : Type) : Type :=
| Ok (a : A)
| Raise (e : exn)
| OutOfFuel.
Arguments Ok {A} a.
Arguments Raise {A} e.
Arguments OutOfFuel {A}.

Definition M (A : Type) : Type := world -> outcome A * world * list event.

Definition ret {A} (a : A) : M A := fun w => (Ok a, w, []).

Definition bind {A B} (m : M A) (k : A -> M B) : M B :=
  fun w =>
    match m w with
    | (Ok a, w1, e1) => let '(r, w2, e2) := k a w1 in (r, w2, e1 ++ e2)
    | (Raise e, w1, e1) => (Raise e, w1, e1)
    | (OutOfFuel, w1, e1) => (OutOfFuel, w1, e1)
    end.

Definition raise {A} (e : exn) : M A := fun w => (Raise e, w, []).
Definition out_of_fuel {A} : M A := fun w => (OutOfFuel, w, []).
Definition emit (e : event) : M unit := fun w => (Ok tt, w, [e]).
Definition get_world : M world := fun w => (Ok w, w, []).

(** [try: m except ...: h]; [h e = None] when no clause matches [e]. *)
Definition try_except {A} (m : M A) (h : exn -> option (M A)) : M A :=
  fun w =>
    match m w with
    | (Raise e, w1, e1) =>
        match h e with
        | Some k => let '(r, w2, e2) := k w1 in (r, w2, e1 ++ e2)
        | None => (Raise e, w1, e1)
        end
    | other => other
    end.

Declare Scope py_scope.
Delimit Scope py_scope with py.
Notation "x <- m ;; k" := (bind m (fun x => k))
  (at level 61, m at next level, right associativity) : py_scope.
Notation "m ;; k" := (bind m (fun _ => k))
  (at level 61, right associativity) : py_scope.
Local Open Scope py_scope.

Definition log (l : level) (m : message) : M unit := emit (EvLog l m).
Definition sleep (s : Z) : M unit := emit (EvSleep s).

(** [for x in xs: body x] *)
Fixpoint for_each {A} (xs : list A) (body : A -> M unit) : M unit :=
  match xs with
  | [] => ret tt
  | x :: rest => body x ;; for_each rest body
  end.

Definition is_folder (it : item) : bool := (mimeType it =? folder_mime)%string.

(** [error.resp.status in [403, 429, 500, 503]] *)
Definition is_rate_limit (status : Z) : bool :=
  ((status =? 403) || (status =? 429) || (status =? 500) || (status =? 503))%Z.

(** ** The Drive API (google-api-python-client), as the program uses it *)

Definition item_of_node (n : rnode) : item :=
  {| id := r_id n; name := r_name n; md5Checksum := r_md5 n; size := r_size n;
     mimeType := r_mime n; resourceKey := None |}.

Definition matches (q : query) (n : rnode) : bool :=
  match q with
  | QChildren p => existsb (String.eqb p) (r_parents n) && negb (r_trashed n)
  | QAll => negb (r_trashed n)
  end.

(** Every HTTP call consumes the head of [faults]. *)
Definition next_fault : M (option Z) :=
  fun w =>
    match faults w with
    | [] => (Ok None, w, [])
    | f :: rest => (Ok f, set_faults rest w, [])
    end.

(** The page that starts at [pageToken] among the nodes that match [q], in
    store order, and the token of the next page when there is one. *)
Definition page_of (q : query) (pageSize : nat) (pageToken : option nat)
    (store : list rnode) : list item * option nat :=
  let all := filter (matches q) store in
  let off := match pageToken with Some k => k | None => 0%nat end in
  let rest := skipn off all in
  (map item_of_node (firstn pageSize rest),
   if (pageSize <? List.length rest)%nat then Some (off + pageSize)%nat else None).

(** [service.files().list(q=..., pageSize=..., pageToken=...).execute()] *)
Definition files_list (q : query) (pageSize : nat) (pageToken : option nat)
  : M (list item * option nat) :=
  f <- next_fault ;;
  match f with
  | Some s => emit (EvList q pageToken (inl s)) ;; raise (HttpError s)
  | None =>
      w <- get_world ;;
      let results := page_of q pageSize pageToken (remote w) in
      emit (EvList q pageToken (inr results)) ;;
      ret results
  end.

(** ** [list_sources] *)

Definition truthy (parent_id : option string) : bool :=
  match parent_id with
  | Some s => negb (s =? "")%string
  | None => false
  end.

Definition list_query (parent_id : option string) : query :=
  match parent_id with
  | Some s => if truthy parent_id then QChildren s else QAll
  | None => QAll
  end.

Definition with_resource_key (resource_key : option string) (it : item) : item :=
  {| id := id it; name := name it; md5Checksum := md5Checksum it; size := size it;
     mimeType := mimeType it; resourceKey := resource_key |}.

(** The [while True] loop of [list_sources]. *)
Fixpoint list_pages (fuel : nat) (q : query) (resource_key : option string)
    (page_token : option nat) (items : list item) : M (list item) :=
  match fuel with
  | O => out_of_fuel
  | S fuel' =>
      results <- files_list q 100 page_token ;;
      let new_items := map (with_resource_key resource_key) (fst results) in
      let items := items ++ new_items in
      log DEBUG (MsgCurrentItems new_items) ;;
      match snd results with
      | None => ret items
      | Some t => list_pages fuel' q resource_key (Some t) items
      end
  end.

Definition list_sources (parent_id : option string) (resource_key : option string)
  : M (list item) :=
  log DEBUG MsgListing ;;
  w <- get_world ;;
  r <- try_except
         (items <- list_pages (S (List.length (remote w))) (list_query parent_id)
                              resource_key None [] ;;
          ret (Some items))
         (fun e => match e with
                   | HttpError _ => Some (log ERROR (MsgErrorOccurred e) ;; ret None)
                   | _ => None
                   end) ;;
  match r with
  | None => ret []                                  (* return [] in the handler *)
  | Some items => log DEBUG MsgFinishedListing ;; ret items
  end.

(** ** [get_total_files], [get_total_size]

    Both recurse over the folders of the listing; [fuel] bounds the depth
    of the recursion. *)

(** [for x in xs: acc = body acc x] *)
Fixpoint fold_each {A S} (xs : list A) (acc : S) (body : S -> A -> M S) : M S :=
  match xs with
  | [] => ret acc
  | x :: rest => acc' <- body acc x ;; fold_each rest acc' body
  end.

Fixpoint get_total_files (fuel : nat) (parent_id : string) : M Z :=
  match fuel with
  | O => out_of_fuel
  | S fuel' =>
      items <- list_sources (Some parent_id) None ;;
      let total_files := Z.of_nat (List.length items) in
      fold_each items total_files
        (fun total_files item =>
           if is_folder item
           then n <- get_total_files fuel' (id item) ;; ret (total_files + n)%Z
           else ret total_files)
  end.

(** [int(item.get('size', 0))] *)
Definition item_size (it : item) : Z :=
  match size it with Some n => n | None => 0%Z end.

(** [sum(int(item.get('size', 0)) for item in items if item['mimeType'] != folder)] *)
Definition sum_sizes (items : list item) : Z :=
  fold_right Z.add 0%Z (map item_size (filter (fun it => negb (is_folder it)) items)).

Fixpoint get_total_size (fuel : nat) (parent_id : string) : M Z :=
  match fuel with
  | O => out_of_fuel
  | S fuel' =>
      items <- list_sources (Some parent_id) None ;;
      let total_size := sum_sizes items in
      fold_each items total_size
        (fun total_size item =>
           if is_folder item
           then n <- get_total_size fuel' (id item) ;; ret (total_size + n)%Z
           else ret total_size)
  end.

(** ** The local file system (pathlib, open)

    A file system is what is at each path: a directory or a file with its
    content.  Paths are compared component by component ("a/../b" and "b"
    are two paths), and an operation fails or not by the kinds of the paths
    alone: permissions, the limits on the length and the characters of
    names and the space left are outside the model. *)

Definition path_eqb (p q : path) : bool :=
  if list_eq_dec string_dec p q then true else false.

Definition fs_lookup (p : path) (fs : filesystem) : option fsnode :=
  match find (fun e => path_eqb (fst e) p) fs with
  | Some e => Some (snd e)
  | None => None
  end.

Definition fs_set (p : path) (n : fsnode) (fs : filesystem) : filesystem :=
  (p, n) :: filter (fun e => negb (path_eqb (fst e) p)) fs.

(** The empty path is the directory the paths start from. *)
Definition fs_is_dir (p : path) (fs : filesystem) : bool :=
  match p with
  | [] => true
  | _ => match fs_lookup p fs with Some Dir => true | _ => false end
  end.

Definition fs_exists (p : path) (fs : filesystem) : bool :=
  match p with
  | [] => true
  | _ => match fs_lookup p fs with Some _ => true | None => false end
  end.

(** The non-empty prefixes of a path, shortest first. *)
Fixpoint prefixes (p : path) : list path :=
  match p with
  | [] => []
  | c :: rest => [c] :: map (cons c) (prefixes rest)
  end.

(** [mkdir(parents=True, exist_ok=True)]: [None] when a component of the
    path is a regular file. *)
Fixpoint make_dirs (ps : list path) (fs : filesystem) : option filesystem :=
  match ps with
  | [] => Some fs
  | p :: rest =>
      match fs_lookup p fs with
      | Some (File _) => None
      | Some Dir => make_dirs rest fs
      | None => make_dirs rest (fs_set p Dir fs)
      end
  end.

Definition mkdir (p : path) : M unit :=
  fun w =>
    match make_dirs (prefixes p) (local w) with
    | Some fs => (Ok tt, set_local fs w, [EvMkdir p])
    | None => (Raise OSError, w, [EvMkdir p])
    end.

Definition path_exists (p : path) : M bool :=
  fun w => (Ok (fs_exists p (local w)), w, []).

Definition is_dir (p : path) : M bool :=
  fun w => (Ok (fs_is_dir p (local w)), w, []).

(** [with open(p, 'rb') as f: f.read()] *)
Definition read_file (p : path) : M (list byte) :=
  fun w =>
    match fs_lookup p (local w) with
    | Some (File data) => (Ok data, w, [EvRead p])
    | _ => (Raise OSError, w, [EvRead p])
    end.

(** [with open(p, 'wb') as f: f.write(data)]: the directory of [p] must
    exist and [p] must not be a directory. *)
Definition write_file (p : path) (data : list byte) : M unit :=
  fun w =>
    if fs_is_dir (removelast p) (local w) && negb (fs_is_dir p (local w))
    then (Ok tt, set_local (fs_set p (File data) (local w)) w, [EvWrite p data])
    else (Raise OSError, w, [EvWrite p data]).

(** ** Paths (pathlib)

    The parsing of [PurePosixPath]: the string is cut at the separators;
    empty components and the components "." are dropped, ".." is kept. *)
Definition component (cur : string) : path :=
  if (cur =? "")%string || (cur =? ".")%string then [] else [cur].

Fixpoint split_path (s : string) (cur : string) : path :=
  match s with
  | EmptyString => component cur
  | String c rest =>
      if Ascii.eqb c "/"%char
      then component cur ++ split_path rest ""
      else split_path rest (cur ++ String c "")
  end.

Fixpoint leading_slashes (s : string) : nat :=
  match s with
  | String c rest => if Ascii.eqb c "/"%char then S (leading_slashes rest) else O
  | EmptyString => O
  end.

(** The root of a path: exactly two leading slashes are kept as "//", any
    other number of them is "/". *)
Definition anchor (s : string) : path :=
  match leading_slashes s with
  | O => []
  | 2 => ["//"]
  | _ => ["/"]
  end.

Definition is_anchor (nm : string) : bool := (nm =? "/")%string || (nm =? "//")%string.

(** [Path(s)] *)
Definition Path (s : string) : path := anchor s ++ split_path s "".

(** [p / s]: an absolute [s] replaces [p]. *)
Definition joinpath (p : path) (s : string) : path :=
  match anchor s with
  | [] => p ++ split_path s ""
  | _ => Path s
  end.

(** [Path.with_suffix]: on the last component; a path that is empty or
    only its anchor has no name. *)
Fixpoint rfind_dot (s : string) (i : nat) (found : option nat) : option nat :=
  match s with
  | EmptyString => found
  | String c rest =>
      rfind_dot rest (S i) (if Ascii.eqb c "."%char then Some i else found)
  end.

Definition name_with_suffix (nm suffix : string) : string :=
  match rfind_dot nm 0 None with
  | Some i =>
      if (0 <? i)%nat && (i <? String.length nm - 1)%nat
      then substring 0 i nm ++ suffix
      else nm ++ suffix
  | None => nm ++ suffix
  end.

Definition with_suffix (p : path) (suffix : string) : M path :=
  match rev p with
  | [] => raise ValueError
  | nm :: rest =>
      if (nm =? "")%string || is_anchor nm then raise ValueError
      else ret (rev rest ++ [name_with_suffix nm suffix])
  end.

(** ** The progress bar (tqdm) *)

Definition tqdm (total : Z) : M nat :=
  fun w => (Ok (List.length (pbars w)),
            set_pbars (pbars w ++ [{| pb_total := total; pb_n := 0 |}]) w,
            [EvPbar total]).

Fixpoint bump (h : nat) (n : Z) (ps : list pbar) : list pbar :=
  match ps, h with
  | [], _ => []
  | p :: rest, O => {| pb_total := pb_total p; pb_n := (pb_n p + n)%Z |} :: rest
  | p :: rest, S h' => p :: bump h' n rest
  end.

(** [pbar.update(n)] *)
Definition pbar_update (h : nat) (n : Z) : M unit :=
  fun w => (Ok tt, set_pbars (bump h n (pbars w)) w, [EvUpdate h n]).

(** ** Deleting and downloading through the API *)

Definition mem_id (s : string) (ids : list string) : bool :=
  existsb (String.eqb s) ids.

(** Drive deletes a folder together with its descendants. *)
Fixpoint delete_tree (fuel : nat) (ids : list string) (store : list rnode)
  : list rnode :=
  match fuel with
  | O => store
  | S fuel' =>
      let store' := filter (fun n => negb (mem_id (r_id n) ids)) store in
      let below :=
        filter (fun n => existsb (fun p => mem_id p ids) (r_parents n)) store' in
      match below with
      | [] => store'
      | _ => delete_tree fuel' (map r_id below) store'
      end
  end.

Definition find_node (fid : string) (store : list rnode) : option rnode :=
  find (fun n => (r_id n =? fid)%string) store.

(** [service.files().delete(fileId=fid).execute()] *)
Definition files_delete (fid : string) : M unit :=
  f <- next_fault ;;
  match f with
  | Some s => emit (EvDelete fid (Some s)) ;; raise (HttpError s)
  | None =>
      w <- get_world ;;
      match find_node fid (remote w) with
      | None => emit (EvDelete fid (Some 404%Z)) ;; raise (HttpError 404)
      | Some _ =>
          (fun w => (Ok tt,
                     set_remote (delete_tree (S (List.length (remote w))) [fid]
                                             (remote w)) w,
                     [EvDelete fid None]))
      end
  end.

(** A media request: [get_media] ([export = None]) or [export_media] to a
    target format, with the headers set on it. *)
Record request : Type := {
  fileId : string;
  export : option string;
  headers : list (string * string)
}.

(** The state of a [MediaIoBaseDownload] and of its [BytesIO] buffer. *)
Record downloader : Type := {
  fh : list byte;
  progress : nat;
  done : bool
}.

Definition new_downloader : downloader :=
  {| fh := []; progress := 0; done := false |}.

Section Engine.

(** [hashlib.md5(data).hexdigest()], and the bytes Drive exports for a
    Google-native document in a target format. *)
Variable md5 : list byte -> string.
Variable exported : string -> list byte -> list byte.

Definition body_of (req : request) (store : list rnode) : option (list byte) :=
  match find_node (fileId req) store with
  | None => None
  | Some n =>
      match export req with
      | None => Some (r_content n)
      | Some target => Some (exported target (r_content n))
      end
  end.

(** The first [n] elements of a list, for a binary [n]. *)
Fixpoint take {A} (n : N) (l : list A) : list A :=
  match l with
  | [] => []
  | x :: l' => if (n =? 0)%N then [] else x :: take (N.pred n) l'
  end.

(** [downloader.next_chunk()]: fetches the next [chunksize] bytes after
    [progress], appends them to the buffer and reports the bytes received
    so far ([status.resumable_progress]) and whether the download is done. *)
Definition next_chunk (req : request) (dl : downloader) : M (nat * downloader) :=
  f <- next_fault ;;
  match f with
  | Some s => emit (EvChunk (fileId req) (inl s)) ;; raise (HttpError s)
  | None =>
      w <- get_world ;;
      match body_of req (remote w) with
      | None => emit (EvChunk (fileId req) (inl 404%Z)) ;; raise (HttpError 404)
      | Some body =>
          let chunk := take (Npos (chunksize w)) (skipn (progress dl) body) in
          let progress' := (progress dl + List.length chunk)%nat in
          emit (EvChunk (fileId req) (inr (List.length chunk))) ;;
          ret (progress',
               {| fh := fh dl ++ chunk; progress := progress';
                  done := (progress' =? List.length body)%nat |})
      end
  end.

(** ** [download_file] *)

(** Lines 168-170, the [while done is False] loop inside the [try].  The
    downloader is a mutable object, so its state survives an exception: the
    result is the state reached and, when [next_chunk] raised an HttpError,
    its status. *)
Fixpoint read_chunks (fuel : nat) (req : request) (pbar : nat) (dl : downloader)
  : M (downloader * option Z) :=
  match fuel with
  | O => out_of_fuel
  | S fuel' =>
      if done dl then ret (dl, None)
      else
        r <- try_except
               (sd <- next_chunk req dl ;; ret (inr sd))
               (fun e => match e with
                         | HttpError s => Some (ret (inl s))
                         | _ => None
                         end) ;;
        match r with
        | inl s => ret (dl, Some s)
        | inr (status, dl') =>
            pbar_update pbar (Z.of_nat status) ;;
            read_chunks fuel' req pbar dl'
        end
  end.

Definition chunk_fuel (req : request) (w : world) : nat :=
  match body_of req (remote w) with
  | Some body => S (S (List.length body))
  | None => 2
  end.

(** Lines 166-180, [for _ in range(max_retry): ... else: ...]. *)
Fixpoint fetch_retry (attempts : list nat) (req : request) (pbar : nat)
    (dl : downloader) : M downloader :=
  match attempts with
  | [] => log ERROR MsgExceeded ;; ret dl
  | i :: rest =>
      w <- get_world ;;
      r <- read_chunks (chunk_fuel req w) req pbar dl ;;
      match r with
      | (dl', None) => ret dl'                                   (* break *)
      | (dl', Some s) =>
          if is_rate_limit s then
            let sleep_time := (2 ^ Z.of_nat i)%Z in
            log WARNING (MsgRateLimit sleep_time) ;;
            sleep sleep_time ;;
            fetch_retry rest req pbar dl'
          else raise (HttpError s)
      end
  end.

Definition opt_string_eqb (a b : option string) : bool :=
  match a, b with
  | Some x, Some y => (x =? y)%string
  | None, None => true
  | _, _ => false
  end.

(** [f"{item['id']}/{item['resourceKey']}"] *)
Definition resource_header (it : item) : string :=
  id it ++ "/" ++ match resourceKey it with Some k => k | None => "None" end.

(** Lines 144-161: the request and the destination path for the type of
    the item.  The items of [list_sources] always carry the [resourceKey]
    entry, so the header is always set. *)
Definition select_request (it : item) (dest_file_path : path) : M (request * path) :=
  let hdrs := [("X-Goog-Drive-Resource-Keys", resource_header it)] in
  let mime := mimeType it in
  if (mime =? document_mime)%string then
    p <- with_suffix dest_file_path ".docx" ;;
    ret ({| fileId := id it; export := Some docx_mime; headers := hdrs |}, p)
  else if (mime =? spreadsheet_mime)%string then
    p <- with_suffix dest_file_path ".xlsx" ;;
    ret ({| fileId := id it; export := Some xlsx_mime; headers := hdrs |}, p)
  else if (mime =? presentation_mime)%string then
    p <- with_suffix dest_file_path ".pptx" ;;
    ret ({| fileId := id it; export := Some pptx_mime; headers := hdrs |}, p)
  else
    ret ({| fileId := id it; export := None; headers := hdrs |}, dest_file_path).

(** Lines 133-141: [true] when the destination exists with the MD5 of the
    item (the [return] of line 141). *)
Definition already_there (it : item) (dest_file_path : path) : M bool :=
  ex <- path_exists dest_file_path ;;
  if ex then
    data <- read_file dest_file_path ;;
    let computed_md5 := md5 data in
    if opt_string_eqb (Some computed_md5) (md5Checksum it) then
      log DEBUG (MsgSkipping (name it)) ;; ret true
    else ret false
  else ret false.

(** Lines 187-192. *)
Definition delete_source (it : item) : M unit :=
  try_except
    (files_delete (id it) ;; log DEBUG (MsgFileDeleted (name it)))
    (fun e => match e with
              | HttpError _ => Some (log ERROR (MsgErrorOccurred e))
              | _ => None
              end).

Definition download_file (it : item) (dest_folder : path) (pbar : nat)
    (max_retry : nat) : M unit :=
  emit (EvPrint (name it)) ;;
  log DEBUG (MsgProcessing (name it) (id it)) ;;
  try_except
    (let dest_file_path := joinpath dest_folder (name it) in
     mkdir dest_folder ;;
     skip <- already_there it dest_file_path ;;
     if skip then ret tt
     else
       log DEBUG MsgDownloading ;;
       rp <- select_request it dest_file_path ;;
       let request := fst rp in
       let dest_file_path := snd rp in
       dl <- fetch_retry (seq 0 max_retry) request pbar new_downloader ;;
       log DEBUG MsgDownloadComplete ;;
       write_file dest_file_path (fh dl) ;;
       log DEBUG MsgFileWritten ;;
       delete_source it)
    (fun e => match e with
              | HttpError _ => Some (log ERROR (MsgErrorOccurred e))
              | _ => None
              end).

(** ** [delete_empty_folders] *)

(** Lines 228-241, [for _ in range(max_retry): ... else: ...]. *)
Fixpoint delete_retry (attempts : list nat) (folder_id : string) : M unit :=
  match attempts with
  | [] => log ERROR MsgExceeded
  | i :: rest =>
      deleted <- try_except
                   (files_delete folder_id ;;
                    log DEBUG (MsgFolderDeleted folder_id) ;;
                    ret true)                                     (* break *)
                   (fun e => match e with
                             | HttpError s =>
                                 if is_rate_limit s then
                                   let sleep_time := (2 ^ Z.of_nat i)%Z in
                                   Some (log WARNING (MsgRateLimit sleep_time) ;;
                                         sleep sleep_time ;;
                                         ret false)
                                 else Some (raise e)
                             | _ => None
                             end) ;;
      if deleted then ret tt else delete_retry rest folder_id
  end.

Fixpoint delete_empty_folders (fuel : nat) (folder_id : string) (max_retry : nat)
  : M unit :=
  match fuel with
  | O => out_of_fuel
  | S fuel' =>
      items <- list_sources (Some folder_id) None ;;
      match items with
      | [] => delete_retry (seq 0 max_retry) folder_id
      | _ =>
          for_each items
            (fun item =>
               if is_folder item
               then delete_empty_folders fuel' (id item) 5
               else ret tt)
      end
  end.

(** ** [download_files] *)

Record source : Type := { src_id : string; src_name : string }.

Fixpoint download_files (fuel : nat) (src : source) (dest_folder : path)
    (is_root : bool) : M unit :=
  match fuel with
  | O => out_of_fuel
  | S fuel' =>
      let dest_folder :=
        if negb is_root then joinpath dest_folder (src_name src) else dest_folder in
      mkdir dest_folder ;;
      items <- list_sources (Some (src_id src)) None ;;
      log DEBUG (MsgItemsToDownload items) ;;
      total <- get_total_size fuel' (src_id src) ;;
      pbar <- tqdm total ;;
      for_each items
        (fun item =>
           if negb (is_folder item)
           then download_file item dest_folder pbar 5
           else ret tt) ;;
      for_each items
        (fun item =>
           if is_folder item
           then download_files fuel'
                  {| src_id := id item; src_name := name item |} dest_folder false
           else ret tt) ;;
      delete_empty_folders fuel' (src_id src) 5
  end.

End Engine.

(** ** [get_destination], [main] *)

(** [input(...)]: the next line of the standard input. *)
Definition input : M string :=
  fun w =>
    match stdin w with
    | [] => (Raise EOFError, w, [EvInput])
    | line :: rest => (Ok line, set_stdin rest w, [EvInput])
    end.

Fixpoint get_destination (attempts : nat) : M path :=
  match attempts with
  | O => raise ValueError
  | S attempts' =>
      line <- input ;;
      let dest_folder := Path line in
      ok <- is_dir dest_folder ;;
      if ok then ret dest_folder
      else log ERROR MsgInvalidPath ;; get_destination attempts'
  end.

(** [str.lower] and [str.strip].  The characters of a string are the code
    points below 256: the letters with a lower case are A-Z and U+00C0 to
    U+00DE without the sign U+00D7, all 32 below their lower case. *)
Definition lower_char (c : ascii) : ascii :=
  let n := nat_of_ascii c in
  if ((65 <=? n)%nat && (n <=? 90)%nat) ||
     ((192 <=? n)%nat && (n <=? 222)%nat && negb (n =? 215)%nat)
  then ascii_of_nat (n + 32) else c.

Fixpoint lower (s : string) : string :=
  match s with
  | EmptyString => EmptyString
  | String c rest => String (lower_char c) (lower rest)
  end.

(** The white space that [str.strip] removes: U+0009 to U+000D, U+001C to
    U+001F, the space, U+0085 and U+00A0. *)
Definition is_space (c : ascii) : bool :=
  let n := nat_of_ascii c in
  (n =? 32)%nat || ((9 <=? n)%nat && (n <=? 13)%nat) ||
  ((28 <=? n)%nat && (n <=? 31)%nat) || (n =? 133)%nat || (n =? 160)%nat.

Fixpoint lstrip (s : string) : string :=
  match s with
  | EmptyString => EmptyString
  | String c rest => if is_space c then lstrip rest else s
  end.

Fixpoint rstrip (s : string) : string :=
  match s with
  | EmptyString => EmptyString
  | String c rest =>
      match rstrip rest with
      | EmptyString => if is_space c then EmptyString else String c EmptyString
      | rest' => String c rest'
      end
  end.

Definition strip (s : string) : string := rstrip (lstrip s).

Section Job.

Variable md5 : list byte -> string.
Variable exported : string -> list byte -> list byte.

(** Lines 269-298 of [main]; the configuration, the logging set-up and the
    credentials that come before are outside the model.  [fuel] bounds the
    depth of the recursion of [download_files]. *)
Definition main (fuel : nat) : M unit :=
  try_except
    (folder_id <- input ;;
     resource_key <- input ;;
     log DEBUG (MsgGettingFiles folder_id) ;;
     all_sources <- list_sources (Some folder_id) (Some resource_key) ;;
     log DEBUG MsgGotAllFiles ;;
     match all_sources with
     | [] => log INFO MsgNoSources
     | _ =>
         let src := {| src_id := folder_id; src_name := "Folder to Download" |} in
         dest_folder <- get_destination 3 ;;
         confirmation <- input ;;
         let confirmation := strip (lower confirmation) in
         if negb (existsb (String.eqb confirmation) ["yes"; "y"]) then
           log INFO MsgCancelled
         else
           log INFO (MsgDownloadingFrom (src_name src) dest_folder) ;;
           download_files md5 exported fuel src dest_folder true ;;
           log INFO MsgCompleted
     end)
    (fun e => Some (log ERROR (MsgErrorOccurred e) ;; log ERROR MsgTraceback)).

End Job.

(** ** [handle_http_error]

    The decorator of lines 37-44: an HttpError of [func] is logged and the
    empty list is returned. *)
Definition handle_http_error {A} (func : M (list A)) : M (list A) :=
  try_except func
    (fun e => match e with
              | HttpError _ => Some (log ERROR (MsgErrorOccurred e) ;; ret [])
              | _ => None
              end).

(** ** [handle_http_error_with_exponential_backoff]

    The decorator of lines 46-66: [max_retry] is read when the function is
    decorated; the wrapper returns the value of [func], or [None] after the
    last attempt. *)
Fixpoint backoff_attempts {A} (attempts : list nat) (func : M A) : M (option A) :=
  match attempts with
  | [] => log ERROR MsgExceeded ;; ret None
  | retry :: rest =>
      r <- try_except
             (a <- func ;; ret (Some a))                          (* return func(...) *)
             (fun e => match e with
                       | HttpError s =>
                           if is_rate_limit s then
                             let sleep_time := (2 ^ Z.of_nat retry)%Z in
                             Some (log WARNING (MsgRateLimit sleep_time) ;;
                                   sleep sleep_time ;;
                                   ret None)
                           else Some (raise e)
                       | _ => Some (log ERROR (MsgUnexpected e) ;; ret None)
                       end) ;;
      match r with
      | Some a => ret (Some a)
      | None => backoff_attempts rest func
      end
  end.

Definition handle_http_error_with_exponential_backoff {A} (max_retry : nat)
    (func : M A) : M (option A) :=
  backoff_attempts (seq 0 max_retry) func.

(** ** Reading traces *)

Definition is_exchange (e : event) : bool :=
  match e with
  | EvList _ _ _ | EvChunk _ _ | EvDelete _ _ => true
  | _ => false
  end.

(** The number of HTTP exchanges of a trace. *)
Definition exchanges (evs : list event) : nat :=
  List.length (filter is_exchange evs).

(** The durations of the sleeps of a trace, in order. *)
Fixpoint sleeps (evs : list event) : list Z :=
  match evs with
  | [] => []
  | EvSleep s :: rest => s :: sleeps rest
  | _ :: rest => sleeps rest
  end.

(** An operation that performs one HTTP exchange and raises a rate-limit
    HttpError, whatever the world. *)
Definition always_transient {A} (func : M A) : Prop :=
  forall w, exists s w' evs,
    func w = (Raise (HttpError s), w', evs) /\ is_rate_limit s = true /\
    exchanges evs = 1%nat /\ sleeps evs = [].

Definition backoff (i : nat) : Z := (2 ^ Z.of_nat i)%Z.

(** A Drive endpoint that answers every call with [status]. *)
Definition failing_endpoint (status : Z) : M unit :=
  emit (EvDelete "x" (Some status)) ;; raise (HttpError status).

(** ** Reading runs *)

Definition result_of {A} (x : outcome A * world * list event) : outcome A :=
  fst (fst x).
Definition world_of {A} (x : outcome A * world * list event) : world :=
  snd (fst x).
Definition trace_of {A} (x : outcome A * world * list event) : list event :=
  snd x.

(** Two worlds that differ at most in the pending faults. *)
Definition only_faults (w w' : world) : Prop :=
  remote w' = remote w /\ chunksize w' = chunksize w /\ local w' = local w /\
  pbars w' = pbars w /\ stdin w' = stdin w.

Definition page_offset (tok : option nat) : nat :=
  match tok with Some k => k | None => 0%nat end.

(** ** Concrete stores and worlds *)

Definition bytes_of (s : string) : list byte := list_byte_of_string s.

(** A stand-in for MD5 on the examples: the content itself. *)
Definition plain_digest (data : list byte) : string := string_of_list_byte data.

(** A stand-in for the export of Google-native documents. *)
Definition plain_export (target : string) (data : list byte) : list byte := data.

Definition file_node (fid nm : string) (content : string) (parent : string) : rnode :=
  {| r_id := fid; r_name := nm; r_md5 := Some content;
     r_size := Some (Z.of_nat (String.length content));
     r_mime := "application/octet-stream"; r_parents := [parent];
     r_trashed := false; r_content := bytes_of content |}.

Definition folder_node (fid nm : string) (parents : list string) : rnode :=
  {| r_id := fid; r_name := nm; r_md5 := None; r_size := None;
     r_mime := folder_mime; r_parents := parents; r_trashed := false;
     r_content := [] |}.

Definition document_node (fid nm : string) (content : string) (parent : string)
  : rnode :=
  {| r_id := fid; r_name := nm; r_md5 := None; r_size := None;
     r_mime := document_mime; r_parents := [parent]; r_trashed := false;
     r_content := bytes_of content |}.

Definition world_of_store (store : list rnode) (fs : filesystem) : world :=
  {| remote := store; faults := []; chunksize := 104857600; local := fs;
     pbars := []; stdin := [] |}.

(** The scenario of the specification: the root [R] holds [A.bin] (5 bytes)
    and the folder [B], which holds [C.bin] (3 bytes). *)
Definition scenario_store : list rnode :=
  [ folder_node "R" "root" [];
    file_node "a" "A.bin" "hello" "R";
    folder_node "b" "B" ["R"];
    file_node "c" "C.bin" "abc" "b" ].

Definition scenario : world :=
  set_stdin ["R"; ""; "dl"; "Yes"]
    (world_of_store scenario_store [(["dl"], Dir)]).

(** A root that holds a single file. *)
Definition single_store : list rnode :=
  [ folder_node "R" "root" []; file_node "a" "A.bin" "hello" "R" ].

Definition single : world := world_of_store single_store [(["dl"], Dir)].

Definition item_a : item :=
  {| id := "a"; name := "A.bin"; md5Checksum := Some "hello"; size := Some 5%Z;
     mimeType := "application/octet-stream"; resourceKey := None |}.

(** A root that holds one empty folder. *)
Definition empty_folder_store : list rnode :=
  [ folder_node "R" "root" []; folder_node "b" "B" ["R"] ].

(** The HTTP exchanges of a trace, the listings left out. *)
Definition transfers (evs : list event) : list event :=
  filter (fun e => match e with
                   | EvChunk _ _ | EvDelete _ _ => true
                   | _ => false
                   end) evs.

(** The names of the files that [download_file] was called on. *)
Fixpoint processed (evs : list event) : list string :=
  match evs with
  | [] => []
  | EvPrint nm :: rest => nm :: processed rest
  | _ :: rest => processed rest
  end.

(** The local writes of a trace. *)
Definition writes (evs : list event) : list event :=
  filter (fun e => match e with EvWrite _ _ => true | _ => false end) evs.

(** The log lines of a trace at the levels above DEBUG. *)
Definition reports (evs : list event) : list event :=
  filter (fun e => match e with
                   | EvLog DEBUG _ => false
                   | EvLog _ _ => true
                   | _ => false
                   end) evs.

(** [single] with a progress bar, when Drive answers the next five calls
    with 503. *)
Definition rate_limited : world :=
  set_pbars [{| pb_total := 5; pb_n := 0 |}]
    (set_faults (repeat (Some 503%Z) 5) single).

(** [single] when [A.bin] is already in the destination, with the same
    content. *)
Definition already_downloaded : world :=
  set_pbars [{| pb_total := 5; pb_n := 0 |}]
    (set_local [(["dl"], Dir); (["dl"; "A.bin"], File (bytes_of "hello"))] single).

(** A root with a Google document and a file; the destination holds a
    directory with the name the document is exported to. *)
Definition blocked_store : list rnode :=
  [ folder_node "R" "root" [];
    document_node "d" "notes" "text" "R";
    file_node "z" "Z.bin" "zz" "R" ].

Definition blocked : world :=
  set_stdin ["R"; ""; "dl"; "y"]
    (world_of_store blocked_store [(["dl"], Dir); (["dl"; "notes.docx"], Dir)]).

(** The items of every node of the store that is not in the trash, as
    [list_sources] returns them. *)
Definition whole_store (resource_key : option string) (w : world) : list item :=
  map (with_resource_key resource_key)
      (map item_of_node (filter (fun n => negb (r_trashed n)) (remote w))).

(** The listings of a trace put no constraint on the parents. *)
Definition unconstrained (evs : list event) : Prop :=
  Forall (fun e => match e with
                   | EvList q _ _ => q_string q = "trashed=false"
                   | _ => True
                   end) evs.

(** A trace made of listings for the query [q] and of log lines. *)
Definition lists_only (q : query) (evs : list event) : Prop :=
  Forall (fun e => match e with
                   | EvList q' _ _ => q' = q
                   | EvLog _ _ => True
                   | _ => False
                   end) evs.


(** The events of [k] failed attempts of a deletion, the first at attempt
    [i], with the statuses [sts]. *)
Fixpoint failed_deletes (fid : string) (i : nat) (sts : list Z) : list event :=
  match sts with
  | [] => []
  | s :: rest =>
      EvDelete fid (Some s) :: EvLog WARNING (MsgRateLimit (backoff i)) ::
      EvSleep (backoff i) :: failed_deletes fid (S i) rest
  end.

(** The number of chunk requests of a trace that Drive refused. *)
Definition failed_chunks (evs : list event) : nat :=
  List.length (filter (fun e => match e with
                                | EvChunk _ (inl _) => true
                                | _ => false
                                end) evs).

(** The request of [download_file] for [A.bin]. *)
Definition request_a : request :=
  {| fileId := "a"; export := None;
     headers := [("X-Goog-Drive-Resource-Keys", "a/None")] |}.

(** Drive answers the next two calls with 503 and 429. *)
Definition two_failures (w : world) : world :=
  set_faults (map Some [503; 429]%Z) w.

(** ** Properties of computations *)

(** Every run of [m] relates the world before to the world after. *)
Definition preserves {A} (R : world -> world -> Prop) (m : M A) : Prop :=
  forall w, R w (world_of (m w)).

(** [m] never runs out of fuel. *)
Definition total {A} (m : M A) : Prop :=
  forall w, result_of (m w) <> OutOfFuel.

(** [m] never raises an HttpError. *)
Definition http_free {A} (m : M A) : Prop :=
  forall w s, result_of (m w) <> Raise (HttpError s).

(** Nothing of the trace of [m] shows in the view [view]. *)
Definition quiet {A B} (view : list event -> list B) (m : M A) : Prop :=
  forall w, view (trace_of (m w)) = [].

(** The progress updates of a trace. *)
Definition updates (evs : list event) : list event :=
  filter (fun e => match e with EvUpdate _ _ => true | _ => false end) evs.

(** The counters of [ps] are still in [ps'], at the same places and with the
    same bounds, and none of them has gone back. *)
Inductive pbars_le : list pbar -> list pbar -> Prop :=
| pbars_le_nil : forall ps', pbars_le [] ps'
| pbars_le_cons : forall p p' ps ps',
    pb_total p' = pb_total p -> (pb_n p <= pb_n p')%Z ->
    pbars_le ps ps' -> pbars_le (p :: ps) (p' :: ps').

Definition progress_kept (w w' : world) : Prop := pbars_le (pbars w) (pbars w').

(** An exception that does not come from Drive. *)
Definition local_failure (e : exn) : bool :=
  match e with HttpError _ => false | _ => true end.

(** Lines 211-213 of [download_files]: the loop over the files. *)
Definition download_each md5 exported (items : list item) (dest_folder : path)
    (pbar : nat) : M unit :=
  for_each items
    (fun item =>
       if negb (is_folder item)
       then download_file md5 exported item dest_folder pbar 5
       else ret tt).

(** Lines 215-217 of [download_files]: the loop over the sub-folders. *)
Definition download_folders md5 exported (fuel : nat) (items : list item)
    (dest_folder : path) : M unit :=
  for_each items
    (fun item =>
       if is_folder item
       then download_files md5 exported fuel
              {| src_id := id item; src_name := name item |} dest_folder false
       else ret tt).

(** Lines 203-208 of [download_files]: what comes before the loops, with
    the items and the counter they are given. *)
Definition enter_folder (fuel : nat) (src : source) (dest_folder : path)
  : M (list item * nat) :=
  mkdir dest_folder ;;
  items <- list_sources (Some (src_id src)) None ;;
  log DEBUG (MsgItemsToDownload items) ;;
  total <- get_total_size fuel (src_id src) ;;
  pbar <- tqdm total ;;
  ret (items, pbar).

(** The names of the items of a listing that are not folders. *)
Definition file_names (items : list item) : list string :=
  map name (filter (fun it => negb (is_folder it)) items).

(** The progress updates of a trace that go to another counter than [h]. *)
Definition foreign_updates (h : nat) (evs : list event) : list event :=
  filter (fun e => match e with
                   | EvUpdate h' _ => negb (h' =? h)%nat
                   | _ => false
                   end) evs.

Definition scenario_root : source := {| src_id := "R"; src_name := "Folder to Download" |}.

(** ** Remote trees

    A remote tree, as the specification speaks of it: files at the leaves,
    folders with their children. *)
#[local] Set Warnings "-register-all".

Inductive rtree : Type :=
| TFile (n : rnode)
| TFolder (fid nm : string) (children : list rtree).

Definition with_parents (ps : list string) (n : rnode) : rnode :=
  {| r_id := r_id n; r_name := r_name n; r_md5 := r_md5 n; r_size := r_size n;
     r_mime := r_mime n; r_parents := ps; r_trashed := false;
     r_content := r_content n |}.

(** The nodes of a tree in the store, each under its parent. *)
Fixpoint nodes_of (parents : list string) (t : rtree) : list rnode :=
  match t with
  | TFile n => [with_parents parents n]
  | TFolder fid nm children =>
      folder_node fid nm parents ::
      (fix below (ts : list rtree) : list rnode :=
         match ts with
         | [] => []
         | c :: ts' => nodes_of [fid] c ++ below ts'
         end) children
  end.

Definition store_of_tree (t : rtree) : list rnode := nodes_of [] t.

(** The number of File-kind nodes reachable from a tree. *)
Fixpoint count_files (t : rtree) : Z :=
  match t with
  | TFile _ => 1
  | TFolder _ _ children =>
      (fix sum (ts : list rtree) : Z :=
         match ts with
         | [] => 0
         | c :: ts' => count_files c + sum ts'
         end) children
  end%Z.

(** The sum of the sizes of the File-kind nodes reachable from a tree. *)
Fixpoint sum_bytes (t : rtree) : Z :=
  match t with
  | TFile n => match r_size n with Some s => s | None => 0 end
  | TFolder _ _ children =>
      (fix sum (ts : list rtree) : Z :=
         match ts with
         | [] => 0
         | c :: ts' => sum_bytes c + sum ts'
         end) children
  end%Z.

(** The number of nodes of either kind below the root of a tree. *)
Fixpoint count_nodes (t : rtree) : Z :=
  match t with
  | TFile _ => 1
  | TFolder _ _ children =>
      (1 + (fix sum (ts : list rtree) : Z :=
              match ts with
              | [] => 0
              | c :: ts' => count_nodes c + sum ts'
              end) children)
  end%Z.

Definition scenario_tree : rtree :=
  TFolder "R" "root"
    [ TFile (file_node "a" "A.bin" "hello" "R");
      TFolder "b" "B" [ TFile (file_node "c" "C.bin" "abc" "b") ] ].

(** The first node of a tree in the store. *)
Definition root_node (parents : list string) (t : rtree) : rnode :=
  match t with
  | TFile n => with_parents parents n
  | TFolder fid nm _ => folder_node fid nm parents
  end.

Definition tree_id (t : rtree) : string := r_id (root_node [] t).

(** The identifiers of the nodes of a tree. *)
Fixpoint tree_ids (t : rtree) : list string :=
  match t with
  | TFile n => [r_id n]
  | TFolder fid _ children =>
      fid :: (fix below (ts : list rtree) : list string :=
                match ts with
                | [] => []
                | c :: ts' => tree_ids c ++ below ts'
                end) children
  end.

(** The leaves are of File kind. *)
Fixpoint leaves_are_files (t : rtree) : Prop :=
  match t with
  | TFile n => r_mime n <> folder_mime
  | TFolder _ _ children =>
      (fix all (ts : list rtree) : Prop :=
         match ts with
         | [] => True
         | c :: ts' => leaves_are_files c /\ all ts'
         end) children
  end.

Fixpoint depth (t : rtree) : nat :=
  match t with
  | TFile _ => 0
  | TFolder _ _ children =>
      S ((fix deepest (ts : list rtree) : nat :=
            match ts with
            | [] => 0
            | c :: ts' => Nat.max (depth c) (deepest ts')
            end) children)
  end.

(** A remote tree with distinct, non-empty identifiers, whose leaves are
    files. *)
Definition well_formed (t : rtree) : Prop :=
  NoDup (tree_ids t) /\ ~ In "" (tree_ids t) /\ leaves_are_files t.

(** [t] is a folder of the tree [T], [T] itself included. *)
Inductive folder_of : rtree -> rtree -> Prop :=
| folder_of_root : forall fid nm cs, folder_of (TFolder fid nm cs) (TFolder fid nm cs)
| folder_of_child : forall t c fid nm cs,
    In c cs -> folder_of t c -> folder_of t (TFolder fid nm cs).

(** The item of the root of a tree, as a listing shows it. *)
Definition tree_item (t : rtree) : item := item_of_node (root_node [] t).

(** The sum over the nodes of a tree of what each weighs. *)
Fixpoint weigh (part : item -> Z) (t : rtree) : Z :=
  match t with
  | TFile _ => part (tree_item t)
  | TFolder _ _ children =>
      (part (tree_item t) +
       (fix sum (ts : list rtree) : Z :=
          match ts with
          | [] => 0
          | c :: ts' => weigh part c + sum ts'
          end) children)
  end%Z.

(** What an item adds to the first total of [get_total_size]. *)
Definition size_part (it : item) : Z :=
  if is_folder it then 0%Z else item_size it.

Definition sumZ (l : list Z) : Z := fold_right Z.add 0%Z l.

(** The item of a child of a folder in the listing of that folder. *)
Definition child_item (c : rtree) : item := with_resource_key None (tree_item c).

(** What the recursive calls of a walk add for a child: its weight without
    the child itself when it is a folder, nothing when it is a file. *)
Definition below (part : item -> Z) (c : rtree) : Z :=
  match c with
  | TFile _ => 0%Z
  | TFolder _ _ _ => (weigh part c - part (tree_item c))%Z
  end.

(** A root that holds a Google spreadsheet named [budget.old]. *)
Definition sheet_store : list rnode :=
  [ folder_node "R" "root" [];
    {| r_id := "s"; r_name := "budget.old"; r_md5 := None; r_size := None;
       r_mime := spreadsheet_mime; r_parents := ["R"]; r_trashed := false;
       r_content := bytes_of "1;2" |} ].

Definition sheet_world : world :=
  set_stdin ["R"; ""; "dl"; "y"] (world_of_store sheet_store [(["dl"], Dir)]).

(** In the trace, every chunk that was retrieved is directly followed by an
    update of the counter [h]. *)
Fixpoint updates_follow_chunks (h : nat) (evs : list event) : Prop :=
  match evs with
  | [] => True
  | EvChunk _ (inr _) :: rest =>
      match rest with
      | EvUpdate h' _ :: rest' => h' = h /\ updates_follow_chunks h rest'
      | _ => False
      end
  | _ :: rest => updates_follow_chunks h rest
  end.

(** The progress updates of a trace that go to one of the first [n]
    counters. *)
Definition updates_below (n : nat) (evs : list event) : list event :=
  filter (fun e => match e with
                   | EvUpdate h _ => (h <? n)%nat
                   | _ => false
                   end) evs.

(** Every trace of [m] satisfies [P]. *)
Definition traced {A} (P : list event -> Prop) (m : M A) : Prop :=
  forall w, P (trace_of (m w)).

(** Run where there are [n] counters or more, [m] advances none of the
    first [n] and leaves [n] counters or more. *)
Definition above {A} (n : nat) (m : M A) : Prop :=
  forall w, (n <= List.length (pbars w))%nat ->
    updates_below n (trace_of (m w)) = [] /\
    (n <= List.length (pbars (world_of (m w))))%nat.

(** ** More stores *)

(** The items that [list_sources] returns for [parent_id] when Drive
    answers every page: the matching nodes, in store order, with the
    resource key. *)
Definition listed (parent_id resource_key : option string) (w : world) : list item :=
  map (with_resource_key resource_key)
      (map item_of_node (filter (matches (list_query parent_id)) (remote w))).

(** A name for the [n]-th file of a large folder. *)
Definition numbered (n : nat) : string :=
  "f" ++ string_of_list_ascii (repeat "i"%char n).

(** The root [R] with [n] files. *)
Definition wide_store (n : nat) : list rnode :=
  folder_node "R" "root" [] ::
  map (fun i => file_node (numbered i) (numbered i) "x" "R") (seq 0 n).

(** An operation that performs one HTTP exchange and raises an exception
    that is not an HttpError, whatever the world. *)
Definition always_unexpected {A} (func : M A) : Prop :=
  forall w, exists e w' evs,
    func w = (Raise e, w', evs) /\ local_failure e = true /\
    exchanges evs = 1%nat /\ sleeps evs = [].

(** An endpoint whose client fails locally on every call. *)
Definition broken_endpoint : M unit :=
  emit (EvDelete "x" None) ;; raise OSError.

(** The events of [get_destination] for the lines it turns down. *)
Definition rejected (bad : list string) : list event :=
  flat_map (fun _ => [EvInput; EvLog ERROR MsgInvalidPath]) bad.

(** A line that does not name a directory of the file system. *)
Definition not_a_directory (fs : filesystem) (line : string) : Prop :=
  fs_is_dir (Path line) fs = false.

(** ** What [download_file] asks for and where it writes *)

(** The format Drive exports an item to, with the suffix of the local
    file, for the three Google-native types. *)
Definition export_of (it : item) : option (string * string) :=
  let mime := mimeType it in
  if (mime =? document_mime)%string then Some (docx_mime, ".docx")
  else if (mime =? spreadsheet_mime)%string then Some (xlsx_mime, ".xlsx")
  else if (mime =? presentation_mime)%string then Some (pptx_mime, ".pptx")
  else None.

(** The request of lines 144-161 for an item. *)
Definition request_of (it : item) : request :=
  {| fileId := id it;
     export := match export_of it with Some (target, _) => Some target | None => None end;
     headers := [("X-Goog-Drive-Resource-Keys", resource_header it)] |}.

(** The path [download_file] writes an item to: [dest_folder / name],
    with the suffix of the export for the Google types (where that path has
    no name [with_suffix] raises and nothing is written). *)
Definition destination_of (it : item) (dest_folder : path) : path :=
  let p := joinpath dest_folder (name it) in
  match export_of it with
  | Some (_, suffix) =>
      match rev p with
      | nm :: rest => rev rest ++ [name_with_suffix nm suffix]
      | [] => p
      end
  | None => p
  end.

(** The path has a name: it is not empty and not only its anchor. *)
Definition has_name (p : path) : bool :=
  match rev p with
  | [] => false
  | nm :: _ => negb ((nm =? "")%string || is_anchor nm)
  end.

(** A name that is one ordinary component of a path. *)
Definition plain_name (nm : string) : bool :=
  negb (nm =? "")%string && negb (nm =? ".")%string && negb (nm =? "..")%string &&
  forallb (fun c => negb (Ascii.eqb c "/"%char)) (list_ascii_of_string nm).

(** The destination does not hold the item yet: there is no file of its
    name, or a file with another MD5. *)
Definition not_there (md5 : list byte -> string) (it : item) (p : path)
    (fs : filesystem) : Prop :=
  fs_lookup p fs = None \/
  exists data, fs_lookup p fs = Some (File data) /\ md5Checksum it <> Some (md5 data).

(** ** What a run leaves in place *)

(** Every node of the store after was in the store before. *)
Definition only_removes (w w' : world) : Prop := incl (remote w') (remote w).

(** Every local directory is still a directory and every local file still
    a file, whatever its content. *)
Definition keeps_local_paths (w w' : world) : Prop :=
  forall p,
    (fs_is_dir p (local w) = true -> fs_is_dir p (local w') = true) /\
    (forall d, fs_lookup p (local w) = Some (File d) ->
               exists d', fs_lookup p (local w') = Some (File d')).

(** The deletions of a trace that Drive carried out. *)
Definition removals (evs : list event) : list event :=
  filter (fun e => match e with EvDelete _ None => true | _ => false end) evs.

(** A line that [main] takes for a confirmation: "yes" or "y" after
    [.lower().strip()] (line 288). *)
Definition confirms (line : string) : bool :=
  existsb (String.eqb (strip (lower line))) ["yes"; "y"].

(** [scenario] when the user answers "no" to the warning. *)
Definition declined : world := set_stdin ["R"; ""; "dl"; " No "] scenario.

(** [scenario] when Drive answers the first call with 404. *)
Definition unknown_root : world := set_faults [Some 404%Z] scenario.

(** The events of a listing that Drive answers with no item. *)
Definition empty_listing (parent_id : option string) : list event :=
  [EvLog DEBUG MsgListing;
   EvList (list_query parent_id) None (inr ([], None));
   EvLog DEBUG (MsgCurrentItems []); EvLog DEBUG MsgFinishedListing].

(** A root that holds one empty folder; Drive serves the listing of the
    folder and then answers with the statuses [sts]. *)
Definition refusing (sts : list Z) : world :=
  set_faults (None :: map Some sts) (world_of_store empty_folder_store []).

(** The amount by which the updates of a trace advance the counter [h]. *)
Fixpoint advance (h : nat) (evs : list event) : Z :=
  match evs with
  | [] => 0%Z
  | EvUpdate h' n :: rest =>
      if (h' =? h)%nat then (n + advance h rest)%Z else advance h rest
  | _ :: rest => advance h rest
  end.

(** [single] with a counter for the five bytes of [A.bin], when the
    content comes in chunks of two bytes. *)
Definition small_chunks : world :=
  {| remote := single_store; faults := []; chunksize := 2;
     local := [(["dl"], Dir)]; pbars := [{| pb_total := 5; pb_n := 0 |}];
     stdin := [] |}.

(** ** Moving a folder of files *)

(** No node of the store has [fid] among its parents. *)
Definition childless (fid : string) (store : list rnode) : bool :=
  forallb (fun m => negb (mem_id fid (r_parents m))) store.

(** An item that [download_file] moves into the destination folder itself:
    a file whose name is one path component (not empty, no separator, not
    "." and not "..") and that holds nothing. *)
Definition movable (store : list rnode) (it : item) : bool :=
  negb (is_folder it) && plain_name (name it) && childless (id it) store.

Definition absent (p : path) (fs : filesystem) : bool :=
  match fs_lookup p fs with None => true | Some _ => false end.

(** Nothing is at the path of the item in [dest], nor at the path it is
    written to. *)
Definition fresh (dest : path) (fs : filesystem) (it : item) : bool :=
  absent (joinpath dest (name it)) fs && absent (destination_of it dest) fs.

(** No item is written to the path of a later item. *)
Fixpoint clash_free (dest : path) (items : list item) : bool :=
  match items with
  | [] => true
  | it :: rest =>
      forallb (fun it' =>
                 negb (path_eqb (destination_of it dest) (joinpath dest (name it'))) &&
                 negb (path_eqb (destination_of it dest) (destination_of it' dest)))
              rest
      && clash_free dest rest
  end.

(** A root that holds a file and a Google document. *)
Definition flat_store : list rnode :=
  [ folder_node "R" "root" [];
    file_node "a" "A.bin" "hello" "R";
    document_node "d" "notes" "text" "R" ].

Definition flat : world := world_of_store flat_store [(["dl"], Dir)].

(** ** Runs that differ in their log lines only *)

(** The events of a trace that are not log lines. *)
Definition actions (evs : list event) : list event :=
  filter (fun e => match e with EvLog _ _ => false | _ => true end) evs.

(** Two runs end in the same world after the same actions, with results
    related by [RA] or with the same exception. *)
Definition alike {A} (RA : A -> A -> Prop) (x x' : outcome A * world * list event)
  : Prop :=
  world_of x = world_of x' /\
  actions (trace_of x) = actions (trace_of x') /\
  match result_of x, result_of x' with
  | Ok a, Ok a' => RA a a'
  | Raise e, Raise e' => e = e'
  | OutOfFuel, OutOfFuel => True
  | _, _ => False
  end.

Definition same_length {A} (l l' : list A) : Prop := List.length l = List.length l'.

Definition same_shape {A} (o o' : option (list A)) : Prop :=
  match o, o' with
  | Some l, Some l' => same_length l l'
  | None, None => True
  | _, _ => False
  end.

(** [flat] with the lines the user types: the folder, a resource key, the
    destination and the confirmation. *)
Definition flat_job : world := set_stdin ["R"; "key"; "dl"; " YES "] flat.

(** [scenario] when Drive refuses the next call, a listing, with 503. *)
Definition listing_refused : world := set_faults [Some 503%Z] scenario.

(** ** Names with an extension *)

Definition dotless (s : string) : bool :=
  forallb (fun c => negb (Ascii.eqb c "."%char)) (list_ascii_of_string s).

Definition google_type (it : item) : bool :=
  match export_of it with Some _ => true | None => false end.

(** The root [R] with 150 files, when Drive serves the first page of the
    next listing and refuses the second with 503. *)
Definition half_listed : world :=
  set_faults [None; Some 503%Z] (world_of_store (wide_store 150) []).

(** [scenario] when the user types no folder identifier, names [dl] and
    confirms. *)
Definition whole_drive : world := set_stdin [""; ""; "dl"; "yes"] scenario.

(** The items of [blocked]. *)
Definition item_notes : item := item_of_node (document_node "d" "notes" "text" "R").
Definition item_z : item := item_of_node (file_node "z" "Z.bin" "zz" "R").

(** [blocked] with a regular file in the place of the destination folder. *)
Definition no_directory : world := set_local [(["dl"], File [])] blocked.

(** [blocked] with a directory in the place of [Z.bin]. *)
Definition occupied : world :=
  set_local [(["dl"], Dir); (["dl"; "Z.bin"], Dir)] blocked.

(** [scenario] with a directory in the place of [C.bin], the file of the
    sub-folder [B]. *)
Definition blocked_below : world :=
  set_local [(["dl"], Dir); (["dl"; "B"; "C.bin"], Dir)] scenario.

(** * Properties *)

Unset Implicit Arguments.

Lemma exchanges_app (a b : list event) :
  exchanges (a ++ b) = (exchanges a + exchanges b)%nat.
Proof.
  unfold exchanges. now rewrite filter_app, length_app.
Qed.

Lemma sleeps_app (a b : list event) : sleeps (a ++ b) = sleeps a ++ sleeps b.
Proof.
  induction a as [|e a IH]; simpl; [reflexivity|].
  destruct e; simpl; rewrite ?IH; reflexivity.
Qed.

(** ** The backoff of the wrapper *)

Lemma backoff_attempts_transient A (func : M A) (H : always_transient func) :
  forall attempts w, exists w' evs,
    backoff_attempts attempts func w = (Ok None, w', evs ++ [EvLog ERROR MsgExceeded]) /\
    exchanges evs = List.length attempts /\
    sleeps evs = map backoff attempts.
Proof.
  induction attempts as [|i rest IH]; intros w.
  - exists w, []. repeat split.
  - destruct (H w) as (s & w1 & e1 & Hf & Hs & Hx & Hsl).
    destruct (IH w1) as (w2 & e2 & Hrest & Hx2 & Hsl2).
    exists w2, ((e1 ++ [EvLog WARNING (MsgRateLimit (backoff i)); EvSleep (backoff i)]) ++ e2).
    repeat split.
    + simpl. unfold bind at 1. unfold try_except, bind at 1. rewrite Hf. rewrite Hs.
      cbn. rewrite Hrest. unfold backoff. now rewrite <- !app_assoc.
    + rewrite !exchanges_app, Hx, Hx2. reflexivity.
    + rewrite !sleeps_app, Hsl, Hsl2. reflexivity.
Qed.

Lemma backoff_increasing : forall n k, StronglySorted Z.lt (map backoff (seq k n)).
Proof.
  induction n as [|n IH]; intros k; simpl; constructor.
  - apply IH.
  - apply Forall_forall. intros x Hx. apply in_map_iff in Hx.
    destruct Hx as (j & <- & Hj). apply in_seq in Hj. unfold backoff.
    apply Z.pow_lt_mono_r; lia.
Qed.


(** ** Running the primitives *)

(** The two answers of [files().list]. *)
Lemma files_list_cases q n tok w :
  exists w',
    remote w' = remote w /\
    ((exists s, files_list q n tok w = (Raise (HttpError s), w', [EvList q tok (inl s)])) \/
     files_list q n tok w
       = (Ok (page_of q n tok (remote w)), w',
          [EvList q tok (inr (page_of q n tok (remote w)))])).
Proof.
  unfold files_list, bind, next_fault.
  destruct (faults w) as [|[s|] rest] eqn:Hf; cbn.
  - exists w. split; [reflexivity|]. right. reflexivity.
  - exists (set_faults rest w). split; [reflexivity|]. left. exists s. reflexivity.
  - exists (set_faults rest w). split; [reflexivity|]. right. reflexivity.
Qed.

(** Nothing but an HttpError comes out of the pages of a listing. *)
Lemma list_pages_http : forall fuel q rk tok acc w e,
  result_of (list_pages fuel q rk tok acc w) = Raise e -> exists s, e = HttpError s.
Proof.
  induction fuel as [|fuel IH]; intros q rk tok acc w e; [discriminate|].
  cbn [list_pages]. unfold bind at 1.
  destruct (files_list_cases q 100 tok w) as (w1 & _ & [[s Hl] | Hl]); rewrite Hl.
  - cbn. intros [= <-]. eauto.
  - cbn [fst snd]. unfold bind at 1. cbn [log emit].
    destruct (snd (page_of q 100 tok (remote w))) as [t|]; [|discriminate].
    specialize (IH q rk (Some t)
                   (acc ++ map (with_resource_key rk)
                               (fst (page_of q 100 tok (remote w)))) w1 e).
    destruct (list_pages fuel q rk (Some t) _ w1) as [[r2 w2] e2].
    exact IH.
Qed.

Lemma only_faults_refl w : only_faults w w.
Proof. repeat split. Qed.

Lemma only_faults_trans w1 w2 w3 :
  only_faults w1 w2 -> only_faults w2 w3 -> only_faults w1 w3.
Proof.
  unfold only_faults. intros (a & b & c & d & e) (a' & b' & c' & d' & e').
  repeat split; congruence.
Qed.

Lemma files_list_frame q n tok w : only_faults w (world_of (files_list q n tok w)).
Proof.
  unfold files_list, bind, next_fault.
  destruct (faults w) as [|[s|] rest]; cbn; repeat split.
Qed.

Lemma list_pages_frame : forall fuel q rk tok acc w,
  only_faults w (world_of (list_pages fuel q rk tok acc w)).
Proof.
  induction fuel as [|fuel IH]; intros; cbn [list_pages].
  - apply only_faults_refl.
  - unfold bind at 1. pose proof (files_list_frame q 100 tok w) as Hf.
    destruct (files_list q 100 tok w) as [[r w1] e1]. cbn in Hf.
    destruct r as [[files next]| |]; try exact Hf.
    cbn [fst snd]. unfold bind at 1. cbn [log emit].
    destruct next as [t|].
    + specialize (IH q rk (Some t) (acc ++ map (with_resource_key rk) files) w1).
      destruct (list_pages fuel q rk (Some t) _ w1) as [[r2 w2] e2]. cbn in IH.
      cbn. eapply only_faults_trans; eauto.
    + exact Hf.
Qed.

(** The [while True] loop ends: each page consumes a hundred of the
    matching nodes. *)
Lemma list_pages_total : forall fuel q rk tok acc w,
  (List.length (skipn (page_offset tok) (filter (matches q) (remote w))) < fuel)%nat ->
  result_of (list_pages fuel q rk tok acc w) <> OutOfFuel.
Proof.
  induction fuel as [|fuel IH]; intros q rk tok acc w Hlt; [lia|].
  cbn [list_pages]. unfold bind at 1.
  destruct (files_list_cases q 100 tok w) as (w1 & Hrem & [[s Hl] | Hl]); rewrite Hl.
  - cbn. discriminate.
  - unfold page_of at 1 2. cbn [fst snd]. unfold bind at 1. cbn [log emit].
    fold (page_offset tok).
    set (rest := skipn (page_offset tok) (filter (matches q) (remote w))) in *.
    destruct (100 <? List.length rest)%nat eqn:Hmore.
    + apply Nat.ltb_lt in Hmore.
      specialize (IH q rk (Some (page_offset tok + 100)%nat)
                     (acc ++ map (with_resource_key rk)
                                 (map item_of_node (firstn 100 rest))) w1).
      destruct (list_pages fuel q rk _ _ w1) as [[r2 w2] e2].
      cbn in IH |- *. apply IH. rewrite Hrem.
      replace (skipn (page_offset tok + 100) (filter (matches q) (remote w)))
        with (skipn 100 rest).
      * rewrite length_skipn. lia.
      * unfold rest. rewrite skipn_skipn. f_equal. lia.
    + cbn. discriminate.
Qed.

(** [list_sources] always returns a list; it touches nothing but the
    pending faults. *)
Lemma list_sources_spec p rk w :
  exists items w' evs,
    list_sources p rk w = (Ok items, w', evs) /\
    only_faults w w'.
Proof.
  unfold list_sources. unfold bind at 1. cbn [log emit].
  unfold bind at 1. cbn [get_world]. unfold bind at 1. unfold try_except.
  unfold bind at 1.
  pose proof (list_pages_http (S (List.length (remote w))) (list_query p) rk
                None [] w) as Hm.
  pose proof (list_pages_total (S (List.length (remote w))) (list_query p) rk
                None [] w) as Ht.
  pose proof (list_pages_frame (S (List.length (remote w))) (list_query p) rk
                None [] w) as Hfr.
  destruct (list_pages (S (List.length (remote w))) (list_query p) rk None [] w)
    as [[r w1] e1].
  cbn in Ht, Hfr, Hm. destruct r as [items|e|].
  - cbn. do 3 eexists. split; [reflexivity | exact Hfr].
  - destruct (Hm e eq_refl) as [s ->]. cbn.
    do 3 eexists. split; [reflexivity | exact Hfr].
  - exfalso. apply Ht; [|reflexivity]. cbn [page_offset skipn].
    pose proof (filter_length_le (matches (list_query p)) (remote w)). lia.
Qed.

Lemma in_firstn A n (l : list A) x : In x (firstn n l) -> In x l.
Proof.
  intros H. rewrite <- (firstn_skipn n l). apply in_or_app. now left.
Qed.

Lemma in_skipn A n (l : list A) x : In x (skipn n l) -> In x l.
Proof.
  intros H. rewrite <- (firstn_skipn n l). apply in_or_app. now right.
Qed.

(** The items of a listing are nodes of the store. *)
Lemma page_of_incl q n tok store :
  incl (map id (fst (page_of q n tok store))) (map r_id store).
Proof.
  unfold page_of. cbn [fst]. rewrite map_map. cbn [item_of_node id].
  intros x Hx. apply in_map_iff in Hx. destruct Hx as (nd & <- & Hin).
  apply in_map. apply in_firstn, in_skipn in Hin.
  apply filter_In in Hin. tauto.
Qed.

Lemma map_id_with_resource_key rk files :
  map id (map (with_resource_key rk) files) = map id files.
Proof. rewrite map_map. reflexivity. Qed.

Lemma list_pages_incl : forall fuel q rk tok acc w items w' evs,
  list_pages fuel q rk tok acc w = (Ok items, w', evs) ->
  incl (map id acc) (map r_id (remote w)) ->
  incl (map id items) (map r_id (remote w)).
Proof.
  induction fuel as [|fuel IH]; intros q rk tok acc w items w' evs Hrun Hacc;
    [discriminate|].
  cbn [list_pages] in Hrun. unfold bind at 1 in Hrun.
  destruct (files_list_cases q 100 tok w) as (w1 & Hrem & [[s Hl] | Hl]);
    rewrite Hl in Hrun; [discriminate|].
  pose proof (page_of_incl q 100 tok (remote w)) as Hpage.
  destruct (page_of q 100 tok (remote w)) as [files next].
  cbn [fst snd] in *. unfold bind at 1 in Hrun. cbn [log emit] in Hrun.
  assert (Hacc' : incl (map id (acc ++ map (with_resource_key rk) files))
                       (map r_id (remote w))).
  { rewrite map_app, map_id_with_resource_key. now apply incl_app. }
  destruct next as [t|].
  - destruct (list_pages fuel q rk (Some t) _ w1) as [[r2 w2] e2] eqn:Hrec.
    destruct r2; try discriminate. injection Hrun as Hi _ _. subst a.
    rewrite <- Hrem. eapply IH; [exact Hrec|]. now rewrite Hrem.
  - cbn in Hrun. injection Hrun as <- <- <-. exact Hacc'.
Qed.

Lemma list_sources_incl p rk w items w' evs :
  list_sources p rk w = (Ok items, w', evs) ->
  incl (map id items) (map r_id (remote w)).
Proof.
  unfold list_sources. unfold bind at 1. cbn [log emit].
  unfold bind at 1. cbn [get_world]. unfold bind at 1. unfold try_except.
  unfold bind at 1.
  destruct (list_pages (S (List.length (remote w))) (list_query p) rk None [] w)
    as [[r w1] e1] eqn:Hrun.
  destruct r as [its|e|].
  - cbn. intros H. injection H as <- <- <-.
    eapply list_pages_incl; [exact Hrun|]. intros x [].
  - destruct e; cbn; try discriminate. intros H. injection H as <- <- <-.
    intros x [].
  - discriminate.
Qed.

Lemma delete_tree_incl : forall fuel ids store,
  incl (delete_tree fuel ids store) store.
Proof.
  induction fuel as [|fuel IH]; intros ids store; cbn [delete_tree].
  - apply incl_refl.
  - set (store' := filter _ store).
    assert (Hs : incl store' store) by (intros x Hx; apply filter_In in Hx; tauto).
    destruct (filter _ store'); [exact Hs|].
    eapply incl_tran; [apply IH | exact Hs].
Qed.

(** The answers of [files().delete]. *)
Lemma files_delete_cases fid w :
  exists w',
    incl (remote w') (remote w) /\ local w' = local w /\ pbars w' = pbars w /\
    (files_delete fid w = (Ok tt, w', [EvDelete fid None]) \/
     exists s, files_delete fid w = (Raise (HttpError s), w', [EvDelete fid (Some s)])).
Proof.
  unfold files_delete, bind, next_fault, find_node.
  destruct (faults w) as [|[s|] rest] eqn:Hf; cbn -[delete_tree].
  - destruct (find _ (remote w)); cbn -[delete_tree].
    + eexists. split; [|split; [|split; [|left; reflexivity]]];
        [apply delete_tree_incl | reflexivity | reflexivity].
    + exists w. split; [apply incl_refl|]. split; [reflexivity|].
      split; [reflexivity|]. right. eexists. reflexivity.
  - exists (set_faults rest w). split; [apply incl_refl|]. split; [reflexivity|].
    split; [reflexivity|]. right. eexists. reflexivity.
  - destruct (find _ (remote w)); cbn -[delete_tree].
    + eexists. split; [|split; [|split; [|left; reflexivity]]];
        [apply delete_tree_incl | reflexivity | reflexivity].
    + exists (set_faults rest w). split; [apply incl_refl|]. split; [reflexivity|].
      split; [reflexivity|]. right. eexists. reflexivity.
Qed.

(** ** The reaper and the listing *)

Lemma list_query_folder fid : fid <> "" -> list_query (Some fid) = QChildren fid.
Proof.
  intros H. unfold list_query, truthy.
  destruct (String.eqb_spec fid ""); [contradiction | reflexivity].
Qed.

(** C2 fails on the code.  [delete_empty_folders] deletes a folder that
    is not empty when its listing fails: [list_sources] returns the empty
    list then, and the branch for "the folder is empty" is taken.  On the
    scenario of the specification a 503 on the listing of [R] is followed
    by the deletion of [R], and Drive deletes [A.bin], [B] and [C.bin] with
    it; nothing was downloaded.  On a folder of 150 files the first page
    shows a hundred of them, the second page is refused, and the folder is
    deleted with all of them. *)
Lemma failed_listing_deletes_populated_folder :
  (let x := delete_empty_folders 1 "R" 5 listing_refused in
   map id (listed (Some "R") None listing_refused) = ["a"; "b"] /\
   result_of x = Ok tt /\
   transfers (trace_of x) = [EvDelete "R" None] /\
   exchanges (trace_of x) = 2%nat /\
   remote (world_of x) = [] /\
   writes (trace_of x) = []) /\
  (let x := delete_empty_folders 1 "R" 5 half_listed in
   List.length (listed (Some "R") None half_listed) = 150%nat /\
   result_of x = Ok tt /\
   (exists page,
      List.length page = 100%nat /\
      filter is_exchange (trace_of x)
      = [EvList (QChildren "R") None (inr (page, Some 100%nat));
         EvList (QChildren "R") (Some 100%nat) (inl 503%Z);
         EvDelete "R" None]) /\
   remote (world_of x) = []).
Proof.
  cbv zeta. split.
  - vm_compute. repeat split.
  - split; [vm_compute; reflexivity|]. split; [vm_compute; reflexivity|].
    split; [|vm_compute; reflexivity].
    eexists. split; [|vm_compute; reflexivity]. vm_compute. reflexivity.
Qed.

(** ** Runs of the program on concrete stores *)

(** C1.  Drive answers the five chunk requests of [A.bin] with 503: the
    fetch loop gives up, and [download_file] goes on all the same: it writes
    the empty buffer to the destination and deletes the file from Drive. *)
Lemma exhausted_fetch_writes_and_deletes :
  let x := download_file plain_digest plain_export item_a ["dl"] 0 5 rate_limited in
  result_of x = Ok tt /\
  transfers (trace_of x)
  = [EvChunk "a" (inl 503%Z); EvChunk "a" (inl 503%Z); EvChunk "a" (inl 503%Z);
     EvChunk "a" (inl 503%Z); EvChunk "a" (inl 503%Z); EvDelete "a" None] /\
  reports (trace_of x)
  = [EvLog WARNING (MsgRateLimit 1); EvLog WARNING (MsgRateLimit 2);
     EvLog WARNING (MsgRateLimit 4); EvLog WARNING (MsgRateLimit 8);
     EvLog WARNING (MsgRateLimit 16); EvLog ERROR MsgExceeded] /\
  writes (trace_of x) = [EvWrite ["dl"; "A.bin"] []] /\
  fs_lookup ["dl"; "A.bin"] (local (world_of x)) = Some (File []) /\
  find_node "a" (remote rate_limited) <> None /\
  find_node "a" (remote (world_of x)) = None.
Proof.
  cbv zeta. repeat split; try reflexivity. discriminate.
Qed.


(** C4, as stated, fails on the deletion.  [A.bin] is in the destination
    with the MD5 of the item: [download_file] returns after reading it, with
    no HTTP exchange at all, and the file stays on Drive. *)
Lemma skipped_file_not_deleted :
  let x := download_file plain_digest plain_export item_a ["dl"] 0 5
             already_downloaded in
  result_of x = Ok tt /\
  exchanges (trace_of x) = 0%nat /\
  writes (trace_of x) = [] /\
  remote (world_of x) = remote already_downloaded /\
  find_node "a" (remote (world_of x)) <> None.
Proof.
  cbv zeta. repeat split; try reflexivity. discriminate.
Qed.

(** C5, as stated, fails on local failures.  The document [notes] is
    exported to [dl/notes.docx], which is a directory: the write raises an
    OSError that leaves [download_file] and [download_files]; the sibling
    [Z.bin] is never processed, and [main] logs the error. *)
Lemma local_failure_aborts_walk :
  let x := main plain_digest plain_export 10 blocked in
  result_of x = Ok tt /\
  processed (trace_of x) = ["notes"] /\
  transfers (trace_of x) = [EvChunk "d" (inr 4%nat)] /\
  reports (trace_of x)
  = [EvLog INFO (MsgDownloadingFrom "Folder to Download" ["dl"]);
     EvLog ERROR (MsgErrorOccurred OSError); EvLog ERROR MsgTraceback] /\
  remote (world_of x) = remote blocked.
Proof.
  cbv zeta. repeat split; reflexivity.
Qed.


(** A spreadsheet is fetched by export and written with the extension
    [.xlsx] in place of the extension of its name. *)
Example spreadsheet_exported :
  let x := main plain_digest plain_export 10 sheet_world in
  writes (trace_of x) = [EvWrite ["dl"; "budget.xlsx"] (bytes_of "1;2")] /\
  transfers (trace_of x)
  = [EvChunk "s" (inr 3%nat); EvDelete "s" None; EvDelete "R" None].
Proof. split; reflexivity. Qed.

Example name_with_suffix_cases :
  name_with_suffix "report.v2" ".docx" = "report.docx" /\
  name_with_suffix "notes" ".docx" = "notes.docx" /\
  name_with_suffix ".hidden" ".docx" = ".hidden.docx".
Proof. repeat split; reflexivity. Qed.

(** C9, as stated, fails on the scenario of the specification: after the
    two files and [B] are gone, the listing of the root is empty and the
    root is deleted. *)
Lemma root_deleted :
  let x := main plain_digest plain_export 10 scenario in
  result_of x = Ok tt /\
  transfers (trace_of x)
  = [EvChunk "a" (inr 5%nat); EvDelete "a" None;
     EvChunk "c" (inr 3%nat); EvDelete "c" None;
     EvDelete "b" None; EvDelete "R" None] /\
  find_node "R" (remote scenario) <> None /\
  find_node "R" (remote (world_of x)) = None.
Proof.
  cbv zeta. repeat split; try reflexivity. discriminate.
Qed.

(** ** Listings without faults *)

Lemma files_list_nofault q n tok w :
  faults w = [] ->
  files_list q n tok w
  = (Ok (page_of q n tok (remote w)), w,
     [EvList q tok (inr (page_of q n tok (remote w)))]).
Proof.
  intros Hf. unfold files_list, bind, next_fault. rewrite Hf. reflexivity.
Qed.

Lemma list_pages_nofault : forall fuel q rk tok acc w,
  faults w = [] ->
  (List.length (skipn (page_offset tok) (filter (matches q) (remote w))) < fuel)%nat ->
  exists evs,
    list_pages fuel q rk tok acc w
    = (Ok (acc ++ map (with_resource_key rk)
                      (map item_of_node
                           (skipn (page_offset tok) (filter (matches q) (remote w))))),
       w, evs) /\
    lists_only q evs.
Proof.
  induction fuel as [|fuel IH]; intros q rk tok acc w Hf Hlt; [lia|].
  cbn [list_pages]. unfold bind at 1. rewrite (files_list_nofault q 100 tok w Hf).
  unfold page_of. fold (page_offset tok). cbn [fst snd].
  set (rest := skipn (page_offset tok) (filter (matches q) (remote w))) in *.
  unfold bind at 1. cbn [log emit].
  destruct (100 <? List.length rest)%nat eqn:Hmore.
  - apply Nat.ltb_lt in Hmore.
    destruct (IH q rk (Some (page_offset tok + 100)%nat)
                 (acc ++ map (with_resource_key rk)
                             (map item_of_node (firstn 100 rest))) w Hf)
      as (evs & Hrun & Hev).
    { cbn [page_offset].
      replace (skipn (page_offset tok + 100) (filter (matches q) (remote w)))
        with (skipn 100 rest)
        by (unfold rest; rewrite skipn_skipn; f_equal; lia).
      rewrite length_skipn. lia. }
    rewrite Hrun. eexists. split.
    + cbn [app]. f_equal. f_equal. rewrite <- app_assoc. f_equal.
      cbn [page_offset].
      replace (skipn (page_offset tok + 100) (filter (matches q) (remote w)))
        with (skipn 100 rest)
        by (unfold rest; rewrite skipn_skipn; f_equal; lia).
      rewrite <- map_app, <- map_app. now rewrite firstn_skipn.
    + repeat constructor. exact Hev.
  - apply Nat.ltb_ge in Hmore. eexists. split.
    + cbn [ret app]. rewrite firstn_all2 by exact Hmore. reflexivity.
    + repeat constructor.
Qed.

Lemma list_sources_nofault p rk w :
  faults w = [] ->
  exists evs,
    list_sources p rk w
    = (Ok (map (with_resource_key rk)
               (map item_of_node (filter (matches (list_query p)) (remote w)))),
       w, evs) /\
    lists_only (list_query p) evs.
Proof.
  intros Hf. unfold list_sources. unfold bind at 1. cbn [log emit].
  unfold bind at 1. cbn [get_world]. unfold bind at 1. unfold try_except.
  unfold bind at 1.
  destruct (list_pages_nofault (S (List.length (remote w))) (list_query p) rk None []
                               w Hf) as (evs & Hrun & Hev).
  { cbn [page_offset skipn].
    pose proof (filter_length_le (matches (list_query p)) (remote w)). lia. }
  rewrite Hrun. cbn. eexists. split; [reflexivity|].
  constructor; [exact I|]. apply Forall_app. split.
  - rewrite app_nil_r. exact Hev.
  - repeat constructor.
Qed.

Lemma lists_only_all evs : lists_only QAll evs -> unconstrained evs.
Proof.
  unfold lists_only, unconstrained. apply Forall_impl.
  intros [] H; try exact I. now subst.
Qed.

Lemma list_query_falsy p : truthy p = false -> list_query p = QAll.
Proof.
  destruct p as [s|]; [|reflexivity]. unfold list_query. now intros ->.
Qed.

(** On the scenario the whole store is four nodes, the root among them. *)
Example whole_store_scenario :
  map id (whole_store None scenario) = ["R"; "a"; "b"; "c"].
Proof. reflexivity. Qed.

(** ** The local file system *)

Lemma path_eqb_eq p q : path_eqb p q = true <-> p = q.
Proof.
  unfold path_eqb. destruct (list_eq_dec string_dec p q); split; congruence.
Qed.

Lemma path_eqb_refl p : path_eqb p p = true.
Proof. now apply path_eqb_eq. Qed.

Lemma path_eqb_neq p q : p <> q -> path_eqb p q = false.
Proof.
  intros H. destruct (path_eqb p q) eqn:E; [|reflexivity].
  apply path_eqb_eq in E. contradiction.
Qed.

Lemma fs_lookup_set_other p q n fs :
  p <> q -> fs_lookup p (fs_set q n fs) = fs_lookup p fs.
Proof.
  intros Hpq. unfold fs_lookup, fs_set. cbn [find fst].
  rewrite (path_eqb_neq q p) by congruence.
  induction fs as [|[r m] fs IH]; cbn [filter find fst]; [reflexivity|].
  destruct (path_eqb r q) eqn:Hrq; cbn [negb find fst].
  - apply path_eqb_eq in Hrq. subst r.
    rewrite (path_eqb_neq q p) by congruence. exact IH.
  - destruct (path_eqb r p); [reflexivity | exact IH].
Qed.

Lemma fs_lookup_set_same p n fs : fs_lookup p (fs_set p n fs) = Some n.
Proof.
  unfold fs_lookup, fs_set. cbn [find fst]. now rewrite path_eqb_refl.
Qed.

Lemma make_dirs_other : forall ps fs fs' p,
  make_dirs ps fs = Some fs' -> ~ In p ps -> fs_lookup p fs' = fs_lookup p fs.
Proof.
  induction ps as [|q ps IH]; intros fs fs' p Hmk Hnot; cbn [make_dirs] in Hmk.
  - now injection Hmk as <-.
  - assert (Hpq : p <> q) by (intros ->; apply Hnot; now left).
    assert (Hps : ~ In p ps) by (intros H; apply Hnot; now right).
    destruct (fs_lookup q fs) as [[|d]|]; try discriminate.
    + now apply IH.
    + rewrite (IH _ _ p Hmk Hps). now apply fs_lookup_set_other.
Qed.

Lemma make_dirs_keeps : forall ps fs fs' p n,
  make_dirs ps fs = Some fs' -> fs_lookup p fs = Some n -> fs_lookup p fs' = Some n.
Proof.
  induction ps as [|q ps IH]; intros fs fs' p n Hmk Hp; cbn [make_dirs] in Hmk.
  - now injection Hmk as <-.
  - destruct (fs_lookup q fs) as [[|d]|] eqn:Hq; try discriminate.
    + now apply (IH fs).
    + apply (IH (fs_set q Dir fs)); [exact Hmk|].
      destruct (list_eq_dec string_dec p q) as [-> | Hne]; [congruence|].
      now rewrite fs_lookup_set_other.
Qed.

Lemma prefixes_length : forall p q,
  In q (prefixes p) -> (List.length q <= List.length p)%nat.
Proof.
  induction p as [|c p IH]; intros q Hq; cbn [prefixes] in Hq; [contradiction|].
  destruct Hq as [<- | Hq]; [cbn; lia|].
  apply in_map_iff in Hq. destruct Hq as (r & <- & Hr).
  specialize (IH r Hr). cbn. lia.
Qed.

Lemma child_not_prefix dest nm : ~ In (dest ++ [nm]) (prefixes dest).
Proof.
  intros H. apply prefixes_length in H. rewrite length_app in H. cbn in H. lia.
Qed.

Lemma fs_exists_lookup p fs n : fs_lookup p fs = Some n -> fs_exists p fs = true.
Proof.
  intros H. unfold fs_exists. rewrite H. now destruct p.
Qed.

(** ** A file that is already there *)

Lemma download_file_skip md5 exported it dest pbar max_retry w fs data :
  make_dirs (prefixes dest) (local w) = Some fs ->
  fs_lookup (joinpath dest (name it)) (local w) = Some (File data) ->
  md5Checksum it = Some (md5 data) ->
  download_file md5 exported it dest pbar max_retry w
  = (Ok tt, set_local fs w,
     [EvPrint (name it); EvLog DEBUG (MsgProcessing (name it) (id it));
      EvMkdir dest; EvRead (joinpath dest (name it));
      EvLog DEBUG (MsgSkipping (name it))]).
Proof.
  intros Hmk Hfile Hmd5.
  assert (Hfile' : fs_lookup (joinpath dest (name it)) fs = Some (File data))
    by exact (make_dirs_keeps _ _ _ _ _ Hmk Hfile).
  unfold download_file. unfold bind at 1. cbn [emit]. unfold bind at 1. cbn [log emit].
  unfold try_except. unfold bind at 1. unfold mkdir. rewrite Hmk.
  unfold bind at 1. unfold already_there. unfold bind at 1. unfold path_exists.
  cbn [local set_local]. rewrite (fs_exists_lookup _ _ _ Hfile').
  unfold bind at 1. unfold read_file. cbn [local set_local]. rewrite Hfile'.
  rewrite Hmd5. cbn [opt_string_eqb]. rewrite String.eqb_refl.
  reflexivity.
Qed.

(** C4, amended.  When the destination file exists with the MD5 of the
    item, [download_file] returns after the comparison: no content is
    fetched, nothing is written, and no deletion is sent to Drive either;
    the store is left as it was. *)
Theorem hash_match_skips_fetch_write_and_delete :
  forall md5 exported it dest pbar max_retry w data,
    make_dirs (prefixes dest) (local w) <> None ->
    fs_lookup (joinpath dest (name it)) (local w) = Some (File data) ->
    md5Checksum it = Some (md5 data) ->
    let x := download_file md5 exported it dest pbar max_retry w in
    result_of x = Ok tt /\
    exchanges (trace_of x) = 0%nat /\
    writes (trace_of x) = [] /\
    remote (world_of x) = remote w /\
    reports (trace_of x) = [] /\
    In (EvLog DEBUG (MsgSkipping (name it))) (trace_of x).
Proof.
  intros md5 exported it dest pbar max_retry w data Hmk Hfile Hmd5.
  destruct (make_dirs (prefixes dest) (local w)) as [fs|] eqn:Hfs; [|congruence].
  cbv zeta.
  rewrite (download_file_skip md5 exported it dest pbar max_retry w fs data
             Hfs Hfile Hmd5).
  repeat split. cbn. tauto.
Qed.

Lemma hash_match_skips_fetch_write_and_delete_witness :
  let x := download_file plain_digest plain_export item_a ["dl"] 0 5
             already_downloaded in
  result_of x = Ok tt /\
  exchanges (trace_of x) = 0%nat /\
  writes (trace_of x) = [] /\
  remote (world_of x) = remote already_downloaded /\
  reports (trace_of x) = [] /\
  In (EvLog DEBUG (MsgSkipping (name item_a))) (trace_of x).
Proof.
  apply (hash_match_skips_fetch_write_and_delete plain_digest plain_export item_a
           ["dl"] 0%nat 5%nat already_downloaded (bytes_of "hello")).
  - discriminate.
  - reflexivity.
  - reflexivity.
Defined.

(** ** One attempt: listings and deletions of files *)

Lemma list_sources_fault p rk w s rest :
  faults w = Some s :: rest ->
  list_sources p rk w
  = (Ok [], set_faults rest w,
     [EvLog DEBUG MsgListing; EvList (list_query p) None (inl s);
      EvLog ERROR (MsgErrorOccurred (HttpError s))]).
Proof.
  intros Hf. unfold list_sources. unfold bind at 1. cbn [log emit].
  unfold bind at 1. cbn [get_world]. unfold bind at 1. unfold try_except.
  unfold bind at 1. cbn [list_pages]. unfold bind at 1.
  unfold files_list. unfold bind at 1. unfold next_fault. rewrite Hf.
  reflexivity.
Qed.

Lemma delete_source_fault it w s rest :
  faults w = Some s :: rest ->
  delete_source it w
  = (Ok tt, set_faults rest w,
     [EvDelete (id it) (Some s); EvLog ERROR (MsgErrorOccurred (HttpError s))]).
Proof.
  intros Hf. unfold delete_source, try_except. unfold bind at 1.
  unfold files_delete. unfold bind at 1. unfold next_fault. rewrite Hf.
  reflexivity.
Qed.

(** ** Deleting a node *)

Lemma delete_tree_gone : forall fuel ids store n,
  In n (delete_tree (S fuel) ids store) -> mem_id (r_id n) ids = false.
Proof.
  intros fuel ids store n Hn. cbn [delete_tree] in Hn.
  set (store' := filter (fun n => negb (mem_id (r_id n) ids)) store) in *.
  assert (Hin : In n store').
  { destruct (filter _ store'); [exact Hn|].
    eapply delete_tree_incl; exact Hn. }
  apply filter_In in Hin. destruct Hin as [_ Hin].
  now apply negb_true_iff in Hin.
Qed.

Lemma find_node_none fid store :
  (forall n, In n store -> (r_id n =? fid)%string = false) ->
  find_node fid store = None.
Proof.
  intros H. unfold find_node. induction store as [|n store IH]; [reflexivity|].
  cbn [find]. rewrite (H n) by now left. apply IH. intros m Hm. apply H. now right.
Qed.

Lemma find_node_deleted fid fuel store :
  find_node fid (delete_tree (S fuel) [fid] store) = None.
Proof.
  apply find_node_none. intros n Hn. apply delete_tree_gone in Hn.
  cbn [mem_id existsb] in Hn. rewrite orb_false_r in Hn. exact Hn.
Qed.

Lemma files_delete_ok fid w :
  (faults w = [] \/ exists rest, faults w = None :: rest) ->
  find_node fid (remote w) <> None ->
  exists w',
    files_delete fid w = (Ok tt, w', [EvDelete fid None]) /\
    find_node fid (remote w') = None /\
    faults w' = tl (faults w).
Proof.
  intros Hf Hn. unfold files_delete, bind, next_fault. unfold find_node in Hn |- *.
  destruct Hf as [Hf | [rest Hf]]; rewrite Hf; cbn -[delete_tree];
    (destruct (find _ (remote w)); [|congruence]);
    cbn -[delete_tree]; eexists; (split; [reflexivity|]);
    (split; [apply find_node_deleted
            | cbn [faults set_remote set_faults tl]; rewrite ?Hf; reflexivity]).
Qed.

(** [k] rate-limit answers, then Drive accepts: the folder is deleted at
    attempt [k]. *)
Lemma delete_retry_recovers : forall sts n i fid w rest,
  faults w = map Some sts ++ rest ->
  (rest = [] \/ exists rest', rest = None :: rest') ->
  Forall (fun s => is_rate_limit s = true) sts ->
  find_node fid (remote w) <> None ->
  (List.length sts < n)%nat ->
  exists w',
    delete_retry (seq i n) fid w
    = (Ok tt, w',
       failed_deletes fid i sts ++
       [EvDelete fid None; EvLog DEBUG (MsgFolderDeleted fid)]) /\
    find_node fid (remote w') = None.
Proof.
  induction sts as [|s sts IH]; intros n i fid w rest Hf Hrest Hall Hn Hlen.
  - destruct n as [|n]; [cbn in Hlen; lia|].
    cbn [seq delete_retry]. unfold bind at 1. unfold try_except.
    unfold bind at 1.
    destruct (files_delete_ok fid w) as (w' & Hd & Hgone & _); [|exact Hn|].
    { cbn in Hf. destruct Hrest as [-> | [rest' ->]]; eauto. }
    rewrite Hd. cbn. eauto.
  - destruct n as [|n]; [cbn in Hlen; lia|].
    inversion Hall as [|? ? Hs Hall']; subst.
    cbn [seq delete_retry]. unfold bind at 1. unfold try_except.
    unfold bind at 1. unfold files_delete. unfold bind at 1. unfold next_fault.
    rewrite Hf. cbn [map app]. cbn [emit raise bind]. cbn [app]. rewrite Hs.
    cbn [log emit sleep bind ret app].
    destruct (IH n (S i) fid (set_faults (map Some sts ++ rest) w) rest
                eq_refl Hrest Hall' Hn) as (w' & Hrun & Hgone).
    { cbn in Hlen. lia. }
    rewrite Hrun. exists w'. split; [reflexivity | exact Hgone].
Qed.

(** ** Fetching the content *)

Lemma skipn_length_firstn A n (l : list A) :
  skipn (List.length (firstn n l)) l = skipn n l.
Proof.
  rewrite length_firstn. destruct (Nat.le_ge_cases n (List.length l)) as [H | H].
  - now rewrite Nat.min_l.
  - rewrite Nat.min_r by exact H. rewrite skipn_all. symmetry.
    now apply skipn_all2.
Qed.

Lemma take_firstn A : forall (l : list A) n, take n l = firstn (N.to_nat n) l.
Proof.
  induction l as [|x l IH]; intros n; cbn [take].
  - now rewrite firstn_nil.
  - destruct (N.eqb_spec n 0) as [-> | Hn]; [reflexivity|].
    rewrite IH. replace (N.to_nat n) with (S (N.to_nat (N.pred n))) by lia.
    reflexivity.
Qed.

Lemma next_chunk_nofault exported req dl w body :
  faults w = [] ->
  body_of exported req (remote w) = Some body ->
  let chunk := firstn (Pos.to_nat (chunksize w)) (skipn (progress dl) body) in
  let progress' := (progress dl + List.length chunk)%nat in
  next_chunk exported req dl w
  = (Ok (progress',
         {| fh := fh dl ++ chunk; progress := progress';
            done := (progress' =? List.length body)%nat |}),
     w, [EvChunk (fileId req) (inr (List.length chunk))]).
Proof.
  intros Hf Hb. unfold next_chunk, bind, next_fault. rewrite Hf.
  cbn [get_world]. rewrite Hb. rewrite take_firstn. reflexivity.
Qed.

Lemma next_chunk_fault exported req dl w s rest :
  faults w = Some s :: rest ->
  next_chunk exported req dl w
  = (Raise (HttpError s), set_faults rest w, [EvChunk (fileId req) (inl s)]).
Proof.
  intros Hf. unfold next_chunk, bind, next_fault. rewrite Hf. reflexivity.
Qed.

(** Without faults the [while] loop reads the content to its end. *)
Lemma read_chunks_nofault exported req pbar body : forall fuel dl w,
  faults w = [] ->
  body_of exported req (remote w) = Some body ->
  (progress dl <= List.length body)%nat ->
  (done dl = true -> progress dl = List.length body) ->
  ((if done dl then 1 else 2 + List.length body - progress dl) <= fuel)%nat ->
  exists dl' w' evs,
    read_chunks exported fuel req pbar dl w = (Ok (dl', None), w', evs) /\
    fh dl' = fh dl ++ skipn (progress dl) body /\
    done dl' = true /\
    remote w' = remote w /\ faults w' = [] /\ local w' = local w /\
    sleeps evs = [] /\ failed_chunks evs = 0%nat /\ reports evs = [] /\
    writes evs = [].
Proof.
  induction fuel as [|fuel IH]; intros dl w Hf Hb Hle Hdone Hfuel;
    [destruct (done dl); lia|].
  cbn [read_chunks]. destruct (done dl) eqn:Hd.
  - exists dl, w, []. cbn [ret]. rewrite (Hdone eq_refl), skipn_all, app_nil_r.
    repeat split; auto.
  - unfold bind at 1. unfold try_except. unfold bind at 1.
    rewrite (next_chunk_nofault exported req dl w body Hf Hb). cbv zeta.
    set (chunk := firstn (Pos.to_nat (chunksize w)) (skipn (progress dl) body)).
    cbn [ret app]. unfold bind at 1. unfold pbar_update at 1.
    set (dl1 := {| fh := fh dl ++ chunk;
                   progress := (progress dl + List.length chunk)%nat;
                   done := (progress dl + List.length chunk =? List.length body)%nat |}).
    set (w1 := set_pbars _ w).
    assert (Hlen : List.length chunk
                   = Nat.min (Pos.to_nat (chunksize w))
                             (List.length body - progress dl)).
    { unfold chunk. now rewrite length_firstn, length_skipn. }
    assert (Hpos : (0 < Pos.to_nat (chunksize w))%nat) by apply Pos2Nat.is_pos.
    destruct (IH dl1 w1) as (dl' & w' & evs & Hrun & Hfh & Hdn & Hr & Hfa & Hl & Hs & Hc & Hrep & Hwr).
    + exact Hf.
    + exact Hb.
    + cbn [progress dl1]. lia.
    + cbn [done progress dl1]. intros H. now apply Nat.eqb_eq in H.
    + cbn [done progress dl1].
      destruct (Nat.eqb_spec (progress dl + List.length chunk) (List.length body));
        lia.
    + rewrite Hrun. exists dl', w', ([EvChunk (fileId req) (inr (List.length chunk))] ++
                                    [EvUpdate pbar (Z.of_nat (progress dl + List.length chunk))] ++ evs).
      split; [reflexivity|]. split.
      { rewrite Hfh. cbn [fh progress dl1]. rewrite <- app_assoc. f_equal.
        unfold chunk. rewrite <- (firstn_skipn (Pos.to_nat (chunksize w))
                                    (skipn (progress dl) body)) at 3.
        f_equal. fold chunk. rewrite Nat.add_comm, <- skipn_skipn.
        unfold chunk. apply skipn_length_firstn. }
      repeat split; auto.
Qed.

Lemma read_chunks_fault exported fuel req pbar dl w s rest :
  faults w = Some s :: rest ->
  done dl = false ->
  read_chunks exported (S fuel) req pbar dl w
  = (Ok (dl, Some s), set_faults rest w, [EvChunk (fileId req) (inl s)]).
Proof.
  intros Hf Hd. cbn [read_chunks]. rewrite Hd. unfold bind at 1.
  unfold try_except. unfold bind at 1.
  rewrite (next_chunk_fault exported req dl w s rest Hf). reflexivity.
Qed.

Lemma chunk_fuel_body exported req w body :
  body_of exported req (remote w) = Some body ->
  chunk_fuel exported req w = S (S (List.length body)).
Proof. intros H. unfold chunk_fuel. now rewrite H. Qed.

(** [k] rate-limit answers to the chunk requests, then Drive serves them:
    the loop sleeps [2^i, ...] and fetches the whole content. *)
Lemma fetch_retry_recovers exported req pbar body : forall sts n i dl w,
  faults w = map Some sts ->
  Forall (fun s => is_rate_limit s = true) sts ->
  body_of exported req (remote w) = Some body ->
  done dl = false ->
  (progress dl <= List.length body)%nat ->
  (List.length sts < n)%nat ->
  exists dl' w' evs,
    fetch_retry exported (seq i n) req pbar dl w = (Ok dl', w', evs) /\
    fh dl' = fh dl ++ skipn (progress dl) body /\
    done dl' = true /\
    sleeps evs = map backoff (seq i (List.length sts)) /\
    failed_chunks evs = List.length sts /\
    remote w' = remote w /\ faults w' = [] /\ local w' = local w /\
    writes evs = [].
Proof.
  induction sts as [|s sts IH]; intros n i dl w Hf Hall Hb Hd Hle Hlen.
  - destruct n as [|n]; [cbn in Hlen; lia|].
    cbn [seq fetch_retry]. unfold bind at 1. cbn [get_world]. unfold bind at 1.
    destruct (read_chunks_nofault exported req pbar body
                (chunk_fuel exported req w) dl w Hf Hb Hle)
      as (dl' & w' & evs & Hrun & Hfh & Hdn & Hr & Hfa & Hl & Hs & Hc & _ & Hw).
    { rewrite Hd. discriminate. }
    { rewrite Hd, (chunk_fuel_body exported req w body Hb). lia. }
    rewrite Hrun. cbn [ret app]. exists dl', w', evs. rewrite app_nil_r.
    repeat split; auto.
  - destruct n as [|n]; [cbn in Hlen; lia|].
    inversion Hall as [|? ? Hs Hall']; subst.
    cbn [seq fetch_retry]. unfold bind at 1. cbn [get_world]. unfold bind at 1.
    rewrite (chunk_fuel_body exported req w body Hb).
    rewrite (read_chunks_fault exported _ req pbar dl w s (map Some sts) Hf Hd).
    rewrite Hs. cbn [log emit sleep bind app].
    destruct (IH n (S i) dl (set_faults (map Some sts) w) eq_refl Hall' Hb Hd Hle)
      as (dl' & w' & evs & Hrun & Hfh & Hdn & Hsl & Hc & Hr & Hfa & Hl & Hw).
    { cbn in Hlen. lia. }
    rewrite Hrun. fold (backoff i).
    exists dl', w', (EvChunk (fileId req) (inl s) :: EvLog WARNING (MsgRateLimit (backoff i)) ::
                     EvSleep (backoff i) :: evs).
    split; [reflexivity|]. split; [exact Hfh|]. split; [exact Hdn|].
    split; [cbn [sleeps List.length seq map]; now rewrite Hsl|].
    split; [unfold failed_chunks in *; cbn [filter List.length]; now rewrite Hc|].
    repeat split; auto.
Qed.



(** ** Composing properties of computations *)

Section WorldRelation.

Variable R : world -> world -> Prop.
Hypothesis R_refl : forall w, R w w.
Hypothesis R_trans : forall w1 w2 w3, R w1 w2 -> R w2 w3 -> R w1 w3.

Lemma preserves_ret A (a : A) : preserves R (ret a).
Proof. intros w. apply R_refl. Qed.

Lemma preserves_raise A (e : exn) : preserves R (@raise A e).
Proof. intros w. apply R_refl. Qed.

Lemma preserves_out_of_fuel A : preserves R (@out_of_fuel A).
Proof. intros w. apply R_refl. Qed.

Lemma preserves_emit e : preserves R (emit e).
Proof. intros w. apply R_refl. Qed.

Lemma preserves_get_world : preserves R get_world.
Proof. intros w. apply R_refl. Qed.

Lemma preserves_bind A B (m : M A) (k : A -> M B) :
  preserves R m -> (forall a, preserves R (k a)) -> preserves R (bind m k).
Proof.
  intros Hm Hk w. unfold bind. specialize (Hm w).
  destruct (m w) as [[r w1] e1]. cbn in Hm. destruct r as [a| |]; try exact Hm.
  specialize (Hk a w1). destruct (k a w1) as [[r2 w2] e2]. cbn in Hk |- *.
  eapply R_trans; eassumption.
Qed.

Lemma preserves_try_except A (m : M A) (h : exn -> option (M A)) :
  preserves R m ->
  (forall e k, h e = Some k -> preserves R k) ->
  preserves R (try_except m h).
Proof.
  intros Hm Hh w. unfold try_except. specialize (Hm w).
  destruct (m w) as [[r w1] e1]. cbn in Hm. destruct r as [a|e|]; try exact Hm.
  destruct (h e) as [k|] eqn:Hk; [|exact Hm].
  specialize (Hh e k Hk w1). destruct (k w1) as [[r2 w2] e2]. cbn in Hh |- *.
  eapply R_trans; eassumption.
Qed.

Lemma preserves_for_each A (xs : list A) (body : A -> M unit) :
  (forall x, preserves R (body x)) -> preserves R (for_each xs body).
Proof.
  intros Hb. induction xs as [|x xs IH]; cbn [for_each].
  - apply preserves_ret.
  - apply preserves_bind; [apply Hb | intros _; exact IH].
Qed.

Lemma preserves_fold_each A S (xs : list A) (body : S -> A -> M S) :
  (forall acc x, preserves R (body acc x)) ->
  forall acc, preserves R (fold_each xs acc body).
Proof.
  intros Hb. induction xs as [|x xs IH]; intros acc; cbn [fold_each].
  - apply preserves_ret.
  - apply preserves_bind; [apply Hb | intros acc'; apply IH].
Qed.

End WorldRelation.

Lemma total_bind A B (m : M A) (k : A -> M B) :
  total m -> (forall a, total (k a)) -> total (bind m k).
Proof.
  intros Hm Hk w. unfold bind. specialize (Hm w).
  destruct (m w) as [[r w1] e1]. cbn in Hm. destruct r as [a| |]; cbn; try congruence.
  specialize (Hk a w1). destruct (k a w1) as [[r2 w2] e2]. exact Hk.
Qed.

Lemma total_try_except A (m : M A) (h : exn -> option (M A)) :
  total m -> (forall e k, h e = Some k -> total k) -> total (try_except m h).
Proof.
  intros Hm Hh w. unfold try_except. specialize (Hm w).
  destruct (m w) as [[r w1] e1]. cbn in Hm. destruct r as [a|e|]; cbn; try congruence.
  destruct (h e) as [k|] eqn:Hk; [|cbn; congruence].
  specialize (Hh e k Hk w1). destruct (k w1) as [[r2 w2] e2]. exact Hh.
Qed.

Lemma total_ret A (a : A) : total (ret a).
Proof. intros w. discriminate. Qed.

Lemma total_raise A (e : exn) : total (@raise A e).
Proof. intros w. discriminate. Qed.

Lemma total_emit e : total (emit e).
Proof. intros w. discriminate. Qed.

Lemma total_for_each A (xs : list A) (body : A -> M unit) :
  (forall x, total (body x)) -> total (for_each xs body).
Proof.
  intros Hb. induction xs as [|x xs IH]; cbn [for_each].
  - apply total_ret.
  - apply total_bind; [apply Hb | intros _; exact IH].
Qed.

Lemma http_free_bind A B (m : M A) (k : A -> M B) :
  http_free m -> (forall a, http_free (k a)) -> http_free (bind m k).
Proof.
  intros Hm Hk w s. unfold bind. specialize (Hm w s).
  destruct (m w) as [[r w1] e1]. cbn in Hm. destruct r as [a| |]; cbn; try congruence.
  specialize (Hk a w1 s). destruct (k a w1) as [[r2 w2] e2]. exact Hk.
Qed.

Lemma http_free_ret A (a : A) : http_free (ret a).
Proof. intros w s. discriminate. Qed.

Lemma http_free_emit e : http_free (emit e).
Proof. intros w s. discriminate. Qed.

(** A [try] whose handler takes every HttpError. *)
Lemma http_free_try_except A (m : M A) (h : exn -> option (M A)) :
  (forall s, exists k, h (HttpError s) = Some k) ->
  (forall e k, h e = Some k -> http_free k) ->
  http_free (try_except m h).
Proof.
  intros Hall Hh w s. unfold try_except.
  destruct (m w) as [[r w1] e1]. destruct r as [a|e|]; cbn; try congruence.
  destruct (h e) as [k|] eqn:Hk.
  - specialize (Hh e k Hk w1 s). destruct (k w1) as [[r2 w2] e2]. exact Hh.
  - cbn. intros H. injection H as ->. destruct (Hall s) as [k' Hk']. congruence.
Qed.

Lemma http_free_for_each A (xs : list A) (body : A -> M unit) :
  (forall x, http_free (body x)) -> http_free (for_each xs body).
Proof.
  intros Hb. induction xs as [|x xs IH]; cbn [for_each].
  - apply http_free_ret.
  - apply http_free_bind; [apply Hb | intros _; exact IH].
Qed.

Lemma processed_app a b : processed (a ++ b) = processed a ++ processed b.
Proof.
  induction a as [|e a IH]; cbn [app processed]; [reflexivity|].
  destruct e; cbn [app]; rewrite ?IH; reflexivity.
Qed.

Section Quiet.

Variable B : Type.
Variable view : list event -> list B.
Hypothesis view_nil : view [] = [].
Hypothesis view_app : forall a b, view (a ++ b) = view a ++ view b.

Lemma quiet_bind A C (m : M A) (k : A -> M C) :
  quiet view m -> (forall a, quiet view (k a)) -> quiet view (bind m k).
Proof.
  intros Hm Hk w. unfold bind. specialize (Hm w).
  destruct (m w) as [[r w1] e1]. cbn in Hm. destruct r as [a| |]; try exact Hm.
  specialize (Hk a w1). destruct (k a w1) as [[r2 w2] e2]. cbn in Hk |- *.
  now rewrite view_app, Hm, Hk.
Qed.

Lemma quiet_try_except A (m : M A) (h : exn -> option (M A)) :
  quiet view m -> (forall e k, h e = Some k -> quiet view k) ->
  quiet view (try_except m h).
Proof.
  intros Hm Hh w. unfold try_except. specialize (Hm w).
  destruct (m w) as [[r w1] e1]. cbn in Hm. destruct r as [a|e|]; try exact Hm.
  destruct (h e) as [k|] eqn:Hk; [|exact Hm].
  specialize (Hh e k Hk w1). destruct (k w1) as [[r2 w2] e2]. cbn in Hh |- *.
  now rewrite view_app, Hm, Hh.
Qed.

Lemma quiet_ret A (a : A) : quiet view (ret a).
Proof. intros w. exact view_nil. Qed.

Lemma quiet_raise A (e : exn) : quiet view (@raise A e).
Proof. intros w. exact view_nil. Qed.

Lemma quiet_out_of_fuel A : quiet view (@out_of_fuel A).
Proof. intros w. exact view_nil. Qed.

Lemma quiet_get_world : quiet view get_world.
Proof. intros w. exact view_nil. Qed.

Lemma quiet_next_fault : quiet view next_fault.
Proof. intros w. unfold next_fault. destruct (faults w); exact view_nil. Qed.

Lemma quiet_path_exists p : quiet view (path_exists p).
Proof. intros w. exact view_nil. Qed.

Lemma quiet_is_dir p : quiet view (is_dir p).
Proof. intros w. exact view_nil. Qed.

Lemma quiet_emit e : view [e] = [] -> quiet view (emit e).
Proof. intros H w. exact H. Qed.

Lemma quiet_log l m : view [EvLog l m] = [] -> quiet view (log l m).
Proof. intros H w. exact H. Qed.

Lemma quiet_sleep s : view [EvSleep s] = [] -> quiet view (sleep s).
Proof. intros H w. exact H. Qed.

Lemma quiet_mkdir p : view [EvMkdir p] = [] -> quiet view (mkdir p).
Proof. intros H w. unfold mkdir. destruct (make_dirs _ _); exact H. Qed.

Lemma quiet_read_file p : view [EvRead p] = [] -> quiet view (read_file p).
Proof.
  intros H w. unfold read_file. destruct (fs_lookup p (local w)) as [[|d]|]; exact H.
Qed.

Lemma quiet_write_file p d : view [EvWrite p d] = [] -> quiet view (write_file p d).
Proof. intros H w. unfold write_file. destruct (_ && _); exact H. Qed.

Lemma quiet_input : view [EvInput] = [] -> quiet view input.
Proof. intros H w. unfold input. destruct (stdin w); exact H. Qed.

Lemma quiet_tqdm total : view [EvPbar total] = [] -> quiet view (tqdm total).
Proof. intros H w. exact H. Qed.

Lemma quiet_pbar_update h n : view [EvUpdate h n] = [] -> quiet view (pbar_update h n).
Proof. intros H w. exact H. Qed.

Lemma quiet_for_each A (xs : list A) (body : A -> M unit) :
  (forall x, quiet view (body x)) -> quiet view (for_each xs body).
Proof.
  intros Hb. induction xs as [|x xs IH]; cbn [for_each].
  - apply quiet_ret.
  - apply quiet_bind; [apply Hb | intros _; exact IH].
Qed.

Lemma quiet_fold_each A S (xs : list A) (body : S -> A -> M S) :
  (forall acc x, quiet view (body acc x)) ->
  forall acc, quiet view (fold_each xs acc body).
Proof.
  intros Hb. induction xs as [|x xs IH]; intros acc; cbn [fold_each].
  - apply quiet_ret.
  - apply quiet_bind; [apply Hb | intros acc'; apply IH].
Qed.

End Quiet.

(** ** The progress counters never go back *)

Lemma pbars_le_refl ps : pbars_le ps ps.
Proof. induction ps; constructor; auto; lia. Qed.

Lemma pbars_le_trans ps1 ps2 ps3 :
  pbars_le ps1 ps2 -> pbars_le ps2 ps3 -> pbars_le ps1 ps3.
Proof.
  intros H12. revert ps3. induction H12; intros ps3 H23; [constructor|].
  inversion H23; subst. constructor; [congruence | lia | auto].
Qed.

Lemma pbars_le_app ps more : pbars_le ps (ps ++ more).
Proof. induction ps; cbn; constructor; auto; lia. Qed.

Lemma pbars_le_bump : forall ps h n, (0 <= n)%Z -> pbars_le ps (bump h n ps).
Proof.
  induction ps as [|p ps IH]; intros h n Hn; [constructor|].
  destruct h as [|h]; cbn [bump].
  - constructor; [reflexivity | cbn; lia | apply pbars_le_refl].
  - constructor; [reflexivity | lia | now apply IH].
Qed.

Lemma progress_kept_refl w : progress_kept w w.
Proof. apply pbars_le_refl. Qed.

Lemma progress_kept_trans w1 w2 w3 :
  progress_kept w1 w2 -> progress_kept w2 w3 -> progress_kept w1 w3.
Proof. apply pbars_le_trans. Qed.

(** Splits a computation along its binds, handlers and branches, and
    closes the leaves with the hints of [db]. *)
Ltac compose_with bind_lemma try_lemma ret_lemma tac :=
  repeat (match goal with
          | |- forall _, _ => intro
          | |- _ (bind _ _) => apply bind_lemma
          | |- _ (try_except _ _) => apply try_lemma
          | |- _ (ret _) => apply ret_lemma
          | H : Some _ = Some _ |- _ => injection H as <-
          | H : None = Some _ |- _ => discriminate H
          | H : (match ?e with _ => _ end) = Some _ |- _ => destruct e
          | H : (if ?b then _ else _) = Some _ |- _ => destruct b
          | |- _ (if ?b then _ else _) => destruct b
          | |- _ (match ?x with _ => _ end) => destruct x
          | |- _ (let (_, _) := ?x in _) => destruct x
          | |- _ => tac
          end).

Create HintDb pk discriminated.

Ltac pk := compose_with (preserves_bind progress_kept progress_kept_trans)
                        (preserves_try_except progress_kept progress_kept_trans)
                        (preserves_ret progress_kept progress_kept_refl)
                        ltac:(solve [eauto with pk]).

Lemma pk_same A (m : M A) : (forall w, pbars (world_of (m w)) = pbars w) ->
  preserves progress_kept m.
Proof. intros H w. unfold progress_kept. rewrite H. apply pbars_le_refl. Qed.

Lemma pk_emit e : preserves progress_kept (emit e).
Proof. now apply pk_same. Qed.

Lemma pk_log l m : preserves progress_kept (log l m).
Proof. now apply pk_same. Qed.

Lemma pk_sleep s : preserves progress_kept (sleep s).
Proof. now apply pk_same. Qed.

Lemma pk_raise A e : preserves progress_kept (@raise A e).
Proof. now apply pk_same. Qed.

Lemma pk_out_of_fuel A : preserves progress_kept (@out_of_fuel A).
Proof. now apply pk_same. Qed.

Lemma pk_get_world : preserves progress_kept get_world.
Proof. now apply pk_same. Qed.

Lemma pk_next_fault : preserves progress_kept next_fault.
Proof. apply pk_same. intros w. unfold next_fault. now destruct (faults w). Qed.

Lemma pk_mkdir p : preserves progress_kept (mkdir p).
Proof. apply pk_same. intros w. unfold mkdir. now destruct (make_dirs _ _). Qed.

Lemma pk_path_exists p : preserves progress_kept (path_exists p).
Proof. now apply pk_same. Qed.

Lemma pk_is_dir p : preserves progress_kept (is_dir p).
Proof. now apply pk_same. Qed.

Lemma pk_read_file p : preserves progress_kept (read_file p).
Proof.
  apply pk_same. intros w. unfold read_file.
  now destruct (fs_lookup p (local w)) as [[|d]|].
Qed.

Lemma pk_write_file p d : preserves progress_kept (write_file p d).
Proof.
  apply pk_same. intros w. unfold write_file. now destruct (_ && _).
Qed.

Lemma pk_input : preserves progress_kept input.
Proof. apply pk_same. intros w. unfold input. now destruct (stdin w). Qed.

Lemma pk_tqdm total : preserves progress_kept (tqdm total).
Proof. intros w. apply pbars_le_app. Qed.

Lemma pk_pbar_update h n : (0 <= n)%Z -> preserves progress_kept (pbar_update h n).
Proof. intros Hn w. now apply pbars_le_bump. Qed.

#[export] Hint Resolve pk_emit pk_log pk_sleep pk_raise pk_out_of_fuel pk_get_world
  pk_next_fault pk_mkdir pk_path_exists pk_is_dir pk_read_file pk_write_file
  pk_input pk_tqdm : pk.

Lemma pk_with_suffix p s : preserves progress_kept (with_suffix p s).
Proof. unfold with_suffix. pk. Qed.

Lemma pk_files_list q n tok : preserves progress_kept (files_list q n tok).
Proof. unfold files_list. pk. Qed.

Lemma pk_files_delete fid : preserves progress_kept (files_delete fid).
Proof. unfold files_delete. pk. Qed.

#[export] Hint Resolve pk_with_suffix pk_files_list pk_files_delete : pk.

Lemma pk_list_pages : forall fuel q rk tok acc,
  preserves progress_kept (list_pages fuel q rk tok acc).
Proof. induction fuel as [|fuel IH]; intros; cbn [list_pages]; pk. Qed.

#[export] Hint Resolve pk_list_pages : pk.

Lemma pk_list_sources p rk : preserves progress_kept (list_sources p rk).
Proof. unfold list_sources. pk. Qed.

#[export] Hint Resolve pk_list_sources : pk.

Lemma pk_fold_each A S (xs : list A) (body : S -> A -> M S) :
  (forall acc x, preserves progress_kept (body acc x)) ->
  forall acc, preserves progress_kept (fold_each xs acc body).
Proof.
  apply preserves_fold_each; [apply progress_kept_refl | apply progress_kept_trans].
Qed.

Lemma pk_for_each A (xs : list A) (body : A -> M unit) :
  (forall x, preserves progress_kept (body x)) ->
  preserves progress_kept (for_each xs body).
Proof.
  apply preserves_for_each; [apply progress_kept_refl | apply progress_kept_trans].
Qed.

Lemma pk_get_total_size : forall fuel parent_id,
  preserves progress_kept (get_total_size fuel parent_id).
Proof.
  induction fuel as [|fuel IH]; intros; cbn [get_total_size]; pk.
  apply pk_fold_each. pk.
Qed.

Lemma pk_get_total_files : forall fuel parent_id,
  preserves progress_kept (get_total_files fuel parent_id).
Proof.
  induction fuel as [|fuel IH]; intros; cbn [get_total_files]; pk.
  apply pk_fold_each. pk.
Qed.

#[export] Hint Resolve pk_get_total_size pk_get_total_files : pk.

Lemma pk_next_chunk exported req dl :
  preserves progress_kept (next_chunk exported req dl).
Proof. unfold next_chunk. pk. Qed.

#[export] Hint Resolve pk_next_chunk : pk.

Lemma pk_read_chunks exported : forall fuel req pbar dl,
  preserves progress_kept (read_chunks exported fuel req pbar dl).
Proof.
  induction fuel as [|fuel IH]; intros; cbn [read_chunks]; pk.
  apply pk_pbar_update. lia.
Qed.

#[export] Hint Resolve pk_read_chunks : pk.

Lemma pk_fetch_retry exported : forall attempts req pbar dl,
  preserves progress_kept (fetch_retry exported attempts req pbar dl).
Proof. induction attempts as [|i rest IH]; intros; cbn [fetch_retry]; pk. Qed.

Lemma pk_already_there md5 it p : preserves progress_kept (already_there md5 it p).
Proof. unfold already_there. pk. Qed.

Lemma pk_select_request it p : preserves progress_kept (select_request it p).
Proof. unfold select_request. pk. Qed.

Lemma pk_delete_source it : preserves progress_kept (delete_source it).
Proof. unfold delete_source. pk. Qed.

#[export] Hint Resolve pk_fetch_retry pk_already_there pk_select_request
  pk_delete_source : pk.

Lemma pk_download_file md5 exported it dest pbar n :
  preserves progress_kept (download_file md5 exported it dest pbar n).
Proof. unfold download_file. pk. Qed.

Lemma pk_delete_retry : forall attempts fid,
  preserves progress_kept (delete_retry attempts fid).
Proof. induction attempts as [|i rest IH]; intros; cbn [delete_retry]; pk. Qed.

#[export] Hint Resolve pk_download_file pk_delete_retry : pk.

Lemma pk_delete_empty_folders : forall fuel fid n,
  preserves progress_kept (delete_empty_folders fuel fid n).
Proof.
  induction fuel as [|fuel IH]; intros; cbn [delete_empty_folders]; pk.
  apply pk_for_each. pk.
Qed.

#[export] Hint Resolve pk_delete_empty_folders : pk.

Lemma pk_download_files md5 exported : forall fuel src dest is_root,
  preserves progress_kept (download_files md5 exported fuel src dest is_root).
Proof.
  induction fuel as [|fuel IH]; intros; cbn [download_files]; pk;
    apply pk_for_each; pk.
Qed.

(** ** What the functions leave out of a view of the trace *)

Create HintDb quiet discriminated.

#[export] Hint Resolve quiet_raise quiet_out_of_fuel quiet_get_world quiet_next_fault
  quiet_path_exists quiet_is_dir quiet_emit quiet_log quiet_sleep quiet_mkdir
  quiet_read_file quiet_write_file quiet_input quiet_tqdm quiet_pbar_update : quiet.

Section QuietFunctions.

Variable B : Type.
Variable view : list event -> list B.
Hypothesis view_nil : view [] = [].
Hypothesis view_app : forall a b, view (a ++ b) = view a ++ view b.

Hypothesis no_list : forall q t r, view [EvList q t r] = [].
Hypothesis no_log : forall l m, view [EvLog l m] = [].
Hypothesis no_chunk : forall f r, view [EvChunk f r] = [].
Hypothesis no_delete : forall f r, view [EvDelete f r] = [].
Hypothesis no_sleep : forall s, view [EvSleep s] = [].
Hypothesis no_mkdir : forall p, view [EvMkdir p] = [].
Hypothesis no_read : forall p, view [EvRead p] = [].
Hypothesis no_write : forall p d, view [EvWrite p d] = [].
Variable the_pbar : nat.
Hypothesis no_update : forall n, view [EvUpdate the_pbar n] = [].

Ltac qt := compose_with (quiet_bind B view view_app)
                        (quiet_try_except B view view_app)
                        (quiet_ret B view view_nil)
                        ltac:(solve [eauto with quiet]).

Lemma quiet_files_list q n tok : quiet view (files_list q n tok).
Proof. unfold files_list. qt. Qed.

Hint Resolve quiet_files_list : quiet.

Lemma quiet_list_pages : forall fuel q rk tok acc,
  quiet view (list_pages fuel q rk tok acc).
Proof. induction fuel as [|fuel IH]; intros; cbn [list_pages]; qt. Qed.

Hint Resolve quiet_list_pages : quiet.

Lemma quiet_list_sources p rk : quiet view (list_sources p rk).
Proof. unfold list_sources. qt. Qed.

Hint Resolve quiet_list_sources : quiet.

Lemma quiet_get_total_size : forall fuel parent_id,
  quiet view (get_total_size fuel parent_id).
Proof.
  induction fuel as [|fuel IH]; intros; cbn [get_total_size]; qt.
  apply quiet_fold_each; auto. qt.
Qed.

Lemma quiet_files_delete fid : quiet view (files_delete fid).
Proof. unfold files_delete. qt. intros w. apply no_delete. Qed.

Hint Resolve quiet_files_delete : quiet.

Lemma quiet_with_suffix p s : quiet view (with_suffix p s).
Proof. unfold with_suffix. qt. Qed.

Hint Resolve quiet_with_suffix : quiet.

Lemma quiet_next_chunk exported req dl : quiet view (next_chunk exported req dl).
Proof. unfold next_chunk. qt. Qed.

Hint Resolve quiet_next_chunk : quiet.

Lemma quiet_read_chunks exported : forall fuel req dl,
  quiet view (read_chunks exported fuel req the_pbar dl).
Proof. induction fuel as [|fuel IH]; intros; cbn [read_chunks]; qt. Qed.

Hint Resolve quiet_read_chunks : quiet.

Lemma quiet_fetch_retry exported : forall attempts req dl,
  quiet view (fetch_retry exported attempts req the_pbar dl).
Proof. induction attempts as [|i rest IH]; intros; cbn [fetch_retry]; qt. Qed.

Lemma quiet_already_there md5 it p : quiet view (already_there md5 it p).
Proof. unfold already_there. qt. Qed.

Lemma quiet_select_request it p : quiet view (select_request it p).
Proof. unfold select_request. qt. Qed.

Lemma quiet_delete_source it : quiet view (delete_source it).
Proof. unfold delete_source. qt. Qed.

Hint Resolve quiet_fetch_retry quiet_already_there quiet_select_request
  quiet_delete_source : quiet.

Lemma quiet_delete_retry : forall attempts fid, quiet view (delete_retry attempts fid).
Proof. induction attempts as [|i rest IH]; intros; cbn [delete_retry]; qt. Qed.

Hint Resolve quiet_delete_retry : quiet.

Lemma quiet_delete_empty_folders : forall fuel fid n,
  quiet view (delete_empty_folders fuel fid n).
Proof.
  induction fuel as [|fuel IH]; intros; cbn [delete_empty_folders]; qt.
  apply quiet_for_each; auto. qt.
Qed.

(** Of [download_file] the view shows the [print] at most. *)
Lemma view_download_file md5 exported it dest n w :
  view (trace_of (download_file md5 exported it dest the_pbar n w))
  = view [EvPrint (name it)].
Proof.
  unfold download_file. unfold bind at 1. cbn [emit].
  match goal with
  | |- context [bind ?m ?k w] =>
      assert (Hq : quiet view (bind m k)) by qt;
      specialize (Hq w); destruct (bind m k w) as [[r w'] e']
  end.
  cbn [trace_of snd] in *. now rewrite view_app, Hq, app_nil_r.
Qed.

End QuietFunctions.

(** ** [download_file] always returns *)

Lemma next_chunk_cases exported req dl w :
  exists w',
    remote w' = remote w /\ local w' = local w /\
    ((exists s, next_chunk exported req dl w
                = (Raise (HttpError s), w', [EvChunk (fileId req) (inl s)])) \/
     (exists body,
        body_of exported req (remote w) = Some body /\
        let chunk := firstn (Pos.to_nat (chunksize w)) (skipn (progress dl) body) in
        let progress' := (progress dl + List.length chunk)%nat in
        next_chunk exported req dl w
        = (Ok (progress',
               {| fh := fh dl ++ chunk; progress := progress';
                  done := (progress' =? List.length body)%nat |}), w',
           [EvChunk (fileId req) (inr (List.length chunk))]))).
Proof.
  unfold next_chunk, bind, next_fault.
  destruct (faults w) as [|[s|] rest] eqn:Hf; cbn [get_world emit raise app].
  - destruct (body_of exported req (remote w)) as [body|] eqn:Hb.
    + exists w. split; [reflexivity|]. split; [reflexivity|].
      right. exists body. split; [reflexivity|].
      cbv zeta. rewrite take_firstn. reflexivity.
    + exists w. split; [reflexivity|]. split; [reflexivity|].
      left. eexists. reflexivity.
  - exists (set_faults rest w). split; [reflexivity|].
    split; [reflexivity|]. left. eexists. reflexivity.
  - cbn [remote set_faults].
    destruct (body_of exported req (remote w)) as [body|] eqn:Hb.
    + exists (set_faults rest w). split; [reflexivity|].
      split; [reflexivity|]. right. exists body. split; [reflexivity|].
      cbv zeta. rewrite take_firstn. reflexivity.
    + exists (set_faults rest w). split; [reflexivity|].
      split; [reflexivity|]. left. eexists. reflexivity.
Qed.

Lemma read_chunks_returns exported req pbar : forall fuel dl w,
  (forall body, body_of exported req (remote w) = Some body ->
     (progress dl <= List.length body)%nat /\
     ((if done dl then 1 else 2 + List.length body - progress dl) <= fuel)%nat) ->
  (1 <= fuel)%nat ->
  exists dl' so w' evs,
    read_chunks exported fuel req pbar dl w = (Ok (dl', so), w', evs) /\
    remote w' = remote w /\ local w' = local w /\
    (forall body, body_of exported req (remote w) = Some body ->
       (progress dl' <= List.length body)%nat).
Proof.
  induction fuel as [|fuel IH]; intros dl w Hinv Hfuel; [lia|].
  cbn [read_chunks]. destruct (done dl) eqn:Hd.
  - exists dl, None, w, []. repeat split. intros body Hb. apply (Hinv body Hb).
  - unfold bind at 1. unfold try_except. unfold bind at 1.
    destruct (next_chunk_cases exported req dl w)
      as (w1 & Hr1 & Hl1 & [[s Hn] | (body & Hb & Hn)]).
    + rewrite Hn. cbn. exists dl, (Some s), w1. eexists. repeat split; auto.
      intros body Hb. apply (Hinv body Hb).
    + cbv zeta in Hn. rewrite Hn. clear Hn. cbn [ret app].
      set (chunk := firstn (Pos.to_nat (chunksize w)) (skipn (progress dl) body)).
      unfold bind at 1. unfold pbar_update at 1.
      set (dl1 := {| fh := fh dl ++ chunk;
                     progress := (progress dl + List.length chunk)%nat;
                     done := (progress dl + List.length chunk =? List.length body)%nat |}).
      set (w2 := set_pbars _ w1).
      destruct (Hinv body Hb) as [Hle Hf].
      assert (Hlen : List.length chunk
                     = Nat.min (Pos.to_nat (chunksize w))
                               (List.length body - progress dl)).
      { unfold chunk. now rewrite length_firstn, length_skipn. }
      assert (Hpos : (0 < Pos.to_nat (chunksize w))%nat) by apply Pos2Nat.is_pos.
      destruct (IH dl1 w2) as (dl' & so & w' & evs & Hrun & Hr & Hl & Hinv').
      * intros body' Hb'. cbn [remote w2 set_pbars] in Hb'. rewrite Hr1 in Hb'.
        assert (body' = body) by congruence. subst body'.
        cbn [progress done dl1].
        destruct (Nat.eqb_spec (progress dl + List.length chunk) (List.length body));
          lia.
      * destruct (Nat.le_gt_cases 1 fuel) as [H|H]; [exact H|]. exfalso. lia.
      * rewrite Hrun. exists dl', so, w'. eexists. split; [reflexivity|].
        split; [rewrite Hr; exact Hr1|]. split; [rewrite Hl; exact Hl1|].
        intros body' Hb'. apply Hinv'. cbn [remote w2 set_pbars]. now rewrite Hr1.
Qed.

Lemma fetch_retry_returns exported req pbar : forall attempts dl w,
  (forall body, body_of exported req (remote w) = Some body ->
     (progress dl <= List.length body)%nat) ->
  result_of (fetch_retry exported attempts req pbar dl w) <> OutOfFuel.
Proof.
  induction attempts as [|i rest IH]; intros dl w Hinv.
  - cbn. discriminate.
  - cbn [fetch_retry]. unfold bind at 1. cbn [get_world]. unfold bind at 1.
    destruct (read_chunks_returns exported req pbar (chunk_fuel exported req w) dl w)
      as (dl' & so & w' & evs & Hrun & Hr & _ & Hinv').
    { intros body Hb. split; [now apply Hinv|].
      rewrite (chunk_fuel_body exported req w body Hb). destruct (done dl); lia. }
    { unfold chunk_fuel. destruct (body_of exported req (remote w)); lia. }
    rewrite Hrun. destruct so as [s|]; [|cbn; discriminate].
    destruct (is_rate_limit s); [|cbn; discriminate].
    cbn [log emit sleep bind app].
    specialize (IH dl' w'). 
    destruct (fetch_retry exported rest req pbar dl' w') as [[r2 w2] e2].
    cbn in IH |- *. apply IH. intros body Hb. apply Hinv'. now rewrite <- Hr.
Qed.

Lemma total_fetch_retry exported attempts req pbar :
  total (fetch_retry exported attempts req pbar new_downloader).
Proof.
  intros w. apply fetch_retry_returns. intros body _. cbn. lia.
Qed.

Create HintDb tot discriminated.

Ltac tot := compose_with total_bind total_try_except total_ret
                         ltac:(solve [eauto with tot]).


Lemma total_log l m : total (log l m).
Proof. intros w. discriminate. Qed.

Lemma total_sleep s : total (sleep s).
Proof. intros w. discriminate. Qed.

Lemma total_get_world : total get_world.
Proof. intros w. discriminate. Qed.

Lemma total_next_fault : total next_fault.
Proof. intros w. unfold next_fault. destruct (faults w); discriminate. Qed.

Lemma total_mkdir p : total (mkdir p).
Proof. intros w. unfold mkdir. destruct (make_dirs _ _); discriminate. Qed.

Lemma total_path_exists p : total (path_exists p).
Proof. intros w. discriminate. Qed.

Lemma total_read_file p : total (read_file p).
Proof.
  intros w. unfold read_file. destruct (fs_lookup p (local w)) as [[|d]|]; discriminate.
Qed.

Lemma total_write_file p d : total (write_file p d).
Proof. intros w. unfold write_file. destruct (_ && _); discriminate. Qed.

Lemma total_list_sources p rk : total (list_sources p rk).
Proof.
  intros w. destruct (list_sources_spec p rk w) as (items & w' & evs & -> & _).
  discriminate.
Qed.

#[export] Hint Resolve total_raise total_emit total_log total_sleep total_get_world
  total_next_fault total_mkdir total_path_exists total_read_file total_write_file
  total_list_sources total_fetch_retry : tot.

Lemma total_with_suffix p s : total (with_suffix p s).
Proof. unfold with_suffix. tot. Qed.

Lemma total_files_delete fid : total (files_delete fid).
Proof. unfold files_delete. tot. intros w. discriminate. Qed.

#[export] Hint Resolve total_with_suffix total_files_delete : tot.

Lemma total_already_there md5 it p : total (already_there md5 it p).
Proof. unfold already_there. tot. Qed.

Lemma total_select_request it p : total (select_request it p).
Proof. unfold select_request. tot. Qed.

Lemma total_delete_source it : total (delete_source it).
Proof. unfold delete_source. tot. Qed.

#[export] Hint Resolve total_already_there total_select_request
  total_delete_source : tot.

Lemma total_download_file md5 exported it dest pbar n :
  total (download_file md5 exported it dest pbar n).
Proof. unfold download_file. tot. Qed.

Lemma http_free_log l m : http_free (log l m).
Proof. intros w s. discriminate. Qed.

Lemma http_free_download_file md5 exported it dest pbar n :
  http_free (download_file md5 exported it dest pbar n).
Proof.
  unfold download_file. apply http_free_bind; [apply http_free_emit|]. intros _.
  apply http_free_bind; [apply http_free_log|]. intros _.
  apply http_free_try_except.
  - intros s. eexists. reflexivity.
  - intros e k Hk. destruct e; try discriminate. injection Hk as <-.
    apply http_free_log.
Qed.

Lemma processed_download_file md5 exported it dest pbar n w :
  processed (trace_of (download_file md5 exported it dest pbar n w)) = [name it].
Proof.
  apply (view_download_file string processed eq_refl processed_app);
    intros; reflexivity.
Qed.

(** The loop over the files goes to its end unless a local operation
    fails. *)
Lemma download_each_runs md5 exported dest pbar : forall items w r w' evs,
  download_each md5 exported items dest pbar w = (r, w', evs) ->
  match r with
  | Ok _ => processed evs = file_names items
  | Raise e => local_failure e = true
  | OutOfFuel => False
  end.
Proof.
  unfold download_each, file_names.
  induction items as [|it items IH]; intros w r w' evs Hrun.
  - cbn in Hrun. injection Hrun as <- <- <-. reflexivity.
  - cbn [for_each filter] in *. unfold bind at 1 in Hrun.
    destruct (negb (is_folder it)).
    + pose proof (total_download_file md5 exported it dest pbar 5 w) as Ht.
      pose proof (http_free_download_file md5 exported it dest pbar 5 w) as Hh.
      pose proof (processed_download_file md5 exported it dest pbar 5 w) as Hp.
      destruct (download_file md5 exported it dest pbar 5 w) as [[r1 w1] e1].
      cbn [result_of trace_of fst snd] in *. destruct r1 as [[]|e|].
      * destruct (for_each items _ w1) as [[r2 w2] e2] eqn:Hrec.
        injection Hrun as <- <- <-. specialize (IH _ _ _ _ Hrec).
        destruct r2; auto. cbn [map]. rewrite processed_app, Hp, IH. reflexivity.
      * injection Hrun as <- <- <-.
        destruct e; [exfalso; eapply Hh; reflexivity | reflexivity..].
      * congruence.
    + cbn [ret] in Hrun. destruct (for_each items _ w) as [[r2 w2] e2] eqn:Hrec.
      injection Hrun as <- <- <-. cbn [app]. exact (IH _ _ _ _ Hrec).
Qed.

(** [download_files] runs [download_each] on the items of its listing. *)
Lemma download_files_loop md5 exported fuel src dest_folder is_root :
  download_files md5 exported (S fuel) src dest_folder is_root
  = (let dest_folder :=
       if negb is_root then joinpath dest_folder (src_name src) else dest_folder in
     bind (mkdir dest_folder) (fun _ =>
     bind (list_sources (Some (src_id src)) None) (fun items =>
     bind (log DEBUG (MsgItemsToDownload items)) (fun _ =>
     bind (get_total_size fuel (src_id src)) (fun total =>
     bind (tqdm total) (fun pbar =>
     bind (download_each md5 exported items dest_folder pbar) (fun _ =>
     bind (for_each items
             (fun item =>
                if is_folder item
                then download_files md5 exported fuel
                       {| src_id := id item; src_name := name item |}
                       dest_folder false
                else ret tt)) (fun _ =>
     delete_empty_folders fuel (src_id src) 5)))))))).
Proof. reflexivity. Qed.

(** ** One counter for each folder *)

Lemma pbars_le_nth : forall ps q ps',
  pbars_le (ps ++ [q]) ps' ->
  exists p', nth_error ps' (List.length ps) = Some p' /\
             pb_total p' = pb_total q /\ (pb_n q <= pb_n p')%Z.
Proof.
  induction ps as [|p ps IH]; intros q ps' H; cbn [app] in H; inversion H; subst.
  - eexists. split; [reflexivity|]. split; assumption.
  - cbn [List.length nth_error]. now apply IH.
Qed.

Create HintDb frame discriminated.

Ltac frame := compose_with (preserves_bind only_faults only_faults_trans)
                           (preserves_try_except only_faults only_faults_trans)
                           (preserves_ret only_faults only_faults_refl)
                           ltac:(solve [eauto with frame]).

Lemma frame_list_sources p rk : preserves only_faults (list_sources p rk).
Proof.
  intros w. destruct (list_sources_spec p rk w) as (items & w' & evs & -> & H).
  exact H.
Qed.

Lemma frame_out_of_fuel A : preserves only_faults (@out_of_fuel A).
Proof. intros w. apply only_faults_refl. Qed.

#[export] Hint Resolve frame_list_sources frame_out_of_fuel : frame.

Lemma frame_get_total_size : forall fuel parent_id,
  preserves only_faults (get_total_size fuel parent_id).
Proof.
  induction fuel as [|fuel IH]; intros; cbn [get_total_size]; frame.
  apply preserves_fold_each;
    [apply only_faults_refl | apply only_faults_trans | frame].
Qed.

Lemma transfers_app a b : transfers (a ++ b) = transfers a ++ transfers b.
Proof. apply filter_app. Qed.

Lemma updates_app a b : updates (a ++ b) = updates a ++ updates b.
Proof. apply filter_app. Qed.

Lemma foreign_updates_app h a b :
  foreign_updates h (a ++ b) = foreign_updates h a ++ foreign_updates h b.
Proof. apply filter_app. Qed.


(** The updates of the loop over the files go to the counter it was
    given. *)
Lemma download_each_updates md5 exported dest pbar : forall items w,
  foreign_updates pbar (trace_of (download_each md5 exported items dest pbar w)) = [].
Proof.
  intros items. unfold download_each.
  apply (quiet_for_each event (foreign_updates pbar) eq_refl
           (foreign_updates_app pbar)).
  intros it w. destruct (negb (is_folder it)); [|reflexivity].
  rewrite (view_download_file event (foreign_updates pbar) eq_refl
             (foreign_updates_app pbar)); try (intros; reflexivity).
  intros n. unfold foreign_updates. cbn. now rewrite Nat.eqb_refl.
Qed.

Lemma mkdir_run p w r w' evs :
  mkdir p w = (r, w', evs) ->
  evs = [EvMkdir p] /\ remote w' = remote w /\ pbars w' = pbars w /\
  faults w' = faults w.
Proof.
  unfold mkdir. destruct (make_dirs _ _); intros H; injection H as <- <- <-;
    repeat split.
Qed.

Lemma pk_download_each md5 exported items dest pbar :
  preserves progress_kept (download_each md5 exported items dest pbar).
Proof. unfold download_each. apply pk_for_each. pk. Qed.

Lemma quiet_sizing B (view : list event -> list B) :
  view [] = [] -> (forall a b, view (a ++ b) = view a ++ view b) ->
  (forall q t r, view [EvList q t r] = []) ->
  (forall l m, view [EvLog l m] = []) ->
  forall p rk fuel sid w1 w2 w3 items total e2 e3,
    list_sources p rk w1 = (Ok items, w2, e2) ->
    get_total_size fuel sid w2 = (Ok total, w3, e3) ->
    view (e2 ++ [EvLog DEBUG (MsgItemsToDownload items)] ++ e3) = [].
Proof.
  intros Hnil Happ Hlist Hlog p rk fuel sid w1 w2 w3 items total e2 e3 H2 H3.
  pose proof (quiet_list_sources B view Hnil Happ Hlist Hlog p rk w1) as Q2.
  pose proof (quiet_get_total_size B view Hnil Happ Hlist Hlog fuel sid w2) as Q3.
  rewrite H2 in Q2. rewrite H3 in Q3. cbn [trace_of snd] in Q2, Q3.
  now rewrite !Happ, Q2, Q3, Hlog.
Qed.

(** *** Every chunk is followed by an update *)

Lemma updates_follow_chunks_app h : forall n a b,
  (List.length a <= n)%nat ->
  updates_follow_chunks h a -> updates_follow_chunks h b ->
  updates_follow_chunks h (a ++ b).
Proof.
  induction n as [|n IH]; intros a b Hn Ha Hb.
  - destruct a; [exact Hb | cbn in Hn; lia].
  - destruct a as [|e a]; [exact Hb|]. cbn [List.length] in Hn.
    assert (Hrec : updates_follow_chunks h a ->
                   updates_follow_chunks h (a ++ b))
      by (intros H; apply IH; [lia | exact H | exact Hb]).
    destruct e as [q t r|f r|f r|s|l m|nm|p|p|p d|total|h' k|]; cbn [app];
      try (cbn [updates_follow_chunks] in Ha |- *; now apply Hrec).
    destruct r as [s|k]; [cbn [updates_follow_chunks] in Ha |- *; now apply Hrec|].
    destruct a as [|e' a]; [contradiction|].
    destruct e'; try contradiction.
    cbn [updates_follow_chunks app] in Ha |- *. destruct Ha as [-> Ha].
    split; [reflexivity|]. apply IH; [cbn [List.length] in Hn; lia | exact Ha | exact Hb].
Qed.

Create HintDb traced discriminated.

Section TracedFunctions.

Variable P : list event -> Prop.
Hypothesis P_nil : P [].
Hypothesis P_app : forall a b, P a -> P b -> P (a ++ b).
Hypothesis P_log : forall l m, P [EvLog l m].
Hypothesis P_delete : forall f r, P [EvDelete f r].
Hypothesis P_sleep : forall s, P [EvSleep s].
Hypothesis P_mkdir : forall p, P [EvMkdir p].
Hypothesis P_read : forall p, P [EvRead p].
Hypothesis P_write : forall p d, P [EvWrite p d].
Hypothesis P_print : forall nm, P [EvPrint nm].

Variable exported : string -> list byte -> list byte.
Variable the_pbar : nat.
Hypothesis P_read_chunks : forall fuel req dl,
  traced P (read_chunks exported fuel req the_pbar dl).

Lemma traced_bind A C (m : M A) (k : A -> M C) :
  traced P m -> (forall a, traced P (k a)) -> traced P (bind m k).
Proof.
  intros Hm Hk w. unfold bind. specialize (Hm w).
  destruct (m w) as [[r w1] e1]. cbn in Hm. destruct r as [a| |]; try exact Hm.
  specialize (Hk a w1). destruct (k a w1) as [[r2 w2] e2]. cbn in Hk |- *.
  now apply P_app.
Qed.

Lemma traced_try_except A (m : M A) (h : exn -> option (M A)) :
  traced P m -> (forall e k, h e = Some k -> traced P k) ->
  traced P (try_except m h).
Proof.
  intros Hm Hh w. unfold try_except. specialize (Hm w).
  destruct (m w) as [[r w1] e1]. cbn in Hm. destruct r as [a|e|]; try exact Hm.
  destruct (h e) as [k|] eqn:Hk; [|exact Hm].
  specialize (Hh e k Hk w1). destruct (k w1) as [[r2 w2] e2]. cbn in Hh |- *.
  now apply P_app.
Qed.

Lemma traced_ret A (a : A) : traced P (ret a).
Proof. intros w. exact P_nil. Qed.

Lemma traced_raise A (e : exn) : traced P (@raise A e).
Proof. intros w. exact P_nil. Qed.

Lemma traced_get_world : traced P get_world.
Proof. intros w. exact P_nil. Qed.

Lemma traced_next_fault : traced P next_fault.
Proof. intros w. unfold next_fault. destruct (faults w); exact P_nil. Qed.

Lemma traced_path_exists p : traced P (path_exists p).
Proof. intros w. exact P_nil. Qed.

Lemma traced_emit e : P [e] -> traced P (emit e).
Proof. intros H w. exact H. Qed.

Lemma traced_log l m : traced P (log l m).
Proof. intros w. apply P_log. Qed.

Lemma traced_sleep s : traced P (sleep s).
Proof. intros w. apply P_sleep. Qed.

Lemma traced_mkdir p : traced P (mkdir p).
Proof. intros w. unfold mkdir. destruct (make_dirs _ _); apply P_mkdir. Qed.

Lemma traced_read_file p : traced P (read_file p).
Proof.
  intros w. unfold read_file. destruct (fs_lookup p (local w)) as [[|d]|]; apply P_read.
Qed.

Lemma traced_write_file p d : traced P (write_file p d).
Proof. intros w. unfold write_file. destruct (_ && _); apply P_write. Qed.

Hint Resolve traced_raise traced_get_world traced_next_fault traced_path_exists
  traced_emit traced_log traced_sleep traced_mkdir traced_read_file traced_write_file
  P_delete P_print P_read_chunks : traced.

Ltac tr := compose_with traced_bind traced_try_except traced_ret
                        ltac:(solve [eauto with traced]).

Lemma traced_for_each A (xs : list A) (body : A -> M unit) :
  (forall x, traced P (body x)) -> traced P (for_each xs body).
Proof.
  intros Hb. induction xs as [|x xs IH]; cbn [for_each].
  - apply traced_ret.
  - apply traced_bind; [apply Hb | intros _; exact IH].
Qed.

Lemma traced_files_delete fid : traced P (files_delete fid).
Proof. unfold files_delete. tr. intros w. apply P_delete. Qed.

Lemma traced_with_suffix p s : traced P (with_suffix p s).
Proof. unfold with_suffix. tr. Qed.

Hint Resolve traced_files_delete traced_with_suffix : traced.

Lemma traced_fetch_retry : forall attempts req dl,
  traced P (fetch_retry exported attempts req the_pbar dl).
Proof. induction attempts as [|i rest IH]; intros; cbn [fetch_retry]; tr. Qed.

Lemma traced_already_there md5 it p : traced P (already_there md5 it p).
Proof. unfold already_there. tr. Qed.

Lemma traced_select_request it p : traced P (select_request it p).
Proof. unfold select_request. tr. Qed.

Lemma traced_delete_source it : traced P (delete_source it).
Proof. unfold delete_source. tr. Qed.

Hint Resolve traced_fetch_retry traced_already_there traced_select_request
  traced_delete_source : traced.

Lemma traced_download_file md5 it dest n :
  traced P (download_file md5 exported it dest the_pbar n).
Proof. unfold download_file. tr. Qed.

Lemma traced_download_each md5 items dest :
  traced P (download_each md5 exported items dest the_pbar).
Proof.
  unfold download_each. apply traced_for_each. intros it.
  destruct (negb (is_folder it)); [apply traced_download_file | apply traced_ret].
Qed.

End TracedFunctions.

(** The [while] loop advances the counter after every chunk it retrieves. *)
Lemma read_chunks_updates exported req pbar : forall fuel dl w,
  updates_follow_chunks pbar (trace_of (read_chunks exported fuel req pbar dl w)).
Proof.
  induction fuel as [|fuel IH]; intros dl w; [exact I|].
  cbn [read_chunks]. destruct (done dl); [exact I|].
  unfold bind at 1. unfold try_except. unfold bind at 1.
  destruct (next_chunk_cases exported req dl w)
    as (w1 & _ & _ & [[s Hn] | (body & _ & Hn)]).
  - rewrite Hn. cbn. exact I.
  - cbv zeta in Hn. rewrite Hn. cbn [ret app]. unfold bind at 1.
    unfold pbar_update at 1.
    match goal with
    | |- context [read_chunks exported fuel req pbar ?d ?w2] =>
        specialize (IH d w2);
        destruct (read_chunks exported fuel req pbar d w2) as [[r3 w3] e3]
    end.
    cbn [trace_of snd app updates_follow_chunks] in *. split; [reflexivity | exact IH].
Qed.

(** In the loop over the files every chunk that is retrieved is followed by
    an update of the counter the loop was given. *)
Lemma download_each_follows md5 exported items dest pbar w :
  updates_follow_chunks pbar (trace_of (download_each md5 exported items dest pbar w)).
Proof.
  apply (traced_download_each (updates_follow_chunks pbar) I
           (fun a b => updates_follow_chunks_app pbar (List.length a) a b (le_n _))
           (fun _ _ => I) (fun _ _ => I) (fun _ => I) (fun _ => I) (fun _ => I)
           (fun _ _ => I) (fun _ => I) exported pbar).
  intros fuel req dl w0. apply read_chunks_updates.
Qed.

(** *** The counters a call leaves alone *)

Lemma updates_below_app n a b :
  updates_below n (a ++ b) = updates_below n a ++ updates_below n b.
Proof. apply filter_app. Qed.

Lemma pbars_le_length : forall ps ps', pbars_le ps ps' ->
  (List.length ps <= List.length ps')%nat.
Proof. induction 1; cbn [List.length]; lia. Qed.

Lemma above_of_quiet A n (m : M A) :
  quiet (updates_below n) m -> preserves progress_kept m -> above n m.
Proof.
  intros Hq Hk w Hn. split; [apply Hq|].
  specialize (Hk w). apply pbars_le_length in Hk. lia.
Qed.

Lemma above_bind A B n (m : M A) (k : A -> M B) :
  above n m -> (forall a, above n (k a)) -> above n (bind m k).
Proof.
  intros Hm Hk w Hn. unfold bind. destruct (Hm w Hn) as [Hu Hl].
  destruct (m w) as [[[a|e|] w1] e1]; cbn [trace_of world_of fst snd] in *;
    try (split; assumption).
  destruct (Hk a w1 Hl) as [Hu2 Hl2].
  destruct (k a w1) as [[r2 w2] e2]. cbn [trace_of world_of fst snd] in *.
  split; [|exact Hl2]. now rewrite updates_below_app, Hu, Hu2.
Qed.

Lemma above_ret A n (a : A) : above n (ret a).
Proof. intros w Hn. split; [reflexivity | exact Hn]. Qed.

Lemma above_for_each A n (xs : list A) (body : A -> M unit) :
  (forall x, above n (body x)) -> above n (for_each xs body).
Proof.
  intros Hb. induction xs as [|x xs IH]; cbn [for_each].
  - apply above_ret.
  - apply above_bind; [apply Hb | intros _; exact IH].
Qed.

(** The counter that [tqdm] makes is not one of the first [n]. *)
Lemma above_tqdm A n total (k : nat -> M A) :
  (forall p, (n <= p)%nat -> above n (k p)) -> above n (bind (tqdm total) k).
Proof.
  intros Hk w Hn. unfold bind, tqdm.
  destruct (Hk (List.length (pbars w)) Hn
              (set_pbars (pbars w ++ [{| pb_total := total; pb_n := 0 |}]) w))
    as [Hu Hl].
  { cbn [pbars set_pbars]. rewrite length_app. lia. }
  destruct (k _ _) as [[r2 w2] e2]. cbn [trace_of world_of fst snd] in *.
  split; [|exact Hl]. rewrite updates_below_app, Hu. reflexivity.
Qed.

Lemma quiet_below_sources n p rk : quiet (updates_below n) (list_sources p rk).
Proof.
  apply (quiet_list_sources event (updates_below n) eq_refl (updates_below_app n));
    intros; reflexivity.
Qed.

Lemma quiet_below_sizing n fuel fid : quiet (updates_below n) (get_total_size fuel fid).
Proof.
  apply (quiet_get_total_size event (updates_below n) eq_refl (updates_below_app n));
    intros; reflexivity.
Qed.

Lemma quiet_below_reaper n fuel fid k :
  quiet (updates_below n) (delete_empty_folders fuel fid k).
Proof.
  apply (quiet_delete_empty_folders event (updates_below n) eq_refl
           (updates_below_app n)); intros; reflexivity.
Qed.

Lemma quiet_below_download_each n md5 exported items dest pbar :
  (n <= pbar)%nat -> quiet (updates_below n) (download_each md5 exported items dest pbar).
Proof.
  intros Hn. unfold download_each.
  apply (quiet_for_each event (updates_below n) eq_refl (updates_below_app n)).
  intros it w. destruct (negb (is_folder it)); [|reflexivity].
  rewrite (view_download_file event (updates_below n) eq_refl
             (updates_below_app n)); try (intros; reflexivity).
  intros k. unfold updates_below. cbn [filter].
  destruct (Nat.ltb_spec pbar n); [lia | reflexivity].
Qed.

(** A call of [download_files] advances the counters it makes, and those
    that the calls under it make: none of those that were there. *)
Lemma download_files_above md5 exported : forall fuel n src dest is_root,
  above n (download_files md5 exported fuel src dest is_root).
Proof.
  induction fuel as [|fuel IH]; intros n src dest is_root.
  - intros w Hn. split; [reflexivity | exact Hn].
  - cbn [download_files].
    apply above_bind.
    { apply above_of_quiet; [|apply pk_mkdir].
      apply quiet_mkdir. reflexivity. }
    intros _. apply above_bind.
    { apply above_of_quiet; [apply quiet_below_sources | apply pk_list_sources]. }
    intros items. apply above_bind.
    { apply above_of_quiet; [|apply pk_log]. apply quiet_log. reflexivity. }
    intros _. apply above_bind.
    { apply above_of_quiet; [apply quiet_below_sizing | apply pk_get_total_size]. }
    intros total. apply above_tqdm. intros pbar Hp. apply above_bind.
    { apply above_of_quiet;
        [exact (quiet_below_download_each n md5 exported items _ pbar Hp)
        |apply pk_download_each]. }
    intros _. apply above_bind.
    { apply above_for_each. intros it. destruct (is_folder it);
        [apply IH | apply above_ret]. }
    intros _. apply above_of_quiet;
      [apply quiet_below_reaper | apply pk_delete_empty_folders].
Qed.

(** Every call of [download_files] that comes to its end has sized its
    folder before any transfer, has made a counter of its own with that
    size as its bound, has given that counter to the loop over the files of
    the folder, which advances it after every chunk and advances no other;
    what follows the loop advances none of the counters made so far. *)
Lemma download_files_counter md5 exported fuel src dest is_root w w' evs :
  download_files md5 exported (S fuel) src dest is_root w = (Ok tt, w', evs) ->
  exists pre total files rest,
    evs = pre ++ EvPbar total :: files ++ rest /\
    transfers pre = [] /\ updates pre = [] /\
    (exists w2 w3 pre0 e3,
       pre = pre0 ++ e3 /\ remote w2 = remote w /\
       get_total_size fuel (src_id src) w2 = (Ok total, w3, e3)) /\
    (exists p, nth_error (pbars w') (List.length (pbars w)) = Some p /\
               pb_total p = total) /\
    foreign_updates (List.length (pbars w)) files = [] /\
    (exists items w1 w2 e2 w4 w5,
       remote w1 = remote w /\
       list_sources (Some (src_id src)) None w1 = (Ok items, w2, e2) /\
       nth_error (pbars w4) (List.length (pbars w))
       = Some {| pb_total := total; pb_n := 0 |} /\
       download_each md5 exported items
         (if negb is_root then joinpath dest (src_name src) else dest)
         (List.length (pbars w)) w4
       = (Ok tt, w5, files) /\
       processed files = file_names items) /\
    updates_follow_chunks (List.length (pbars w)) files /\
    updates_below (S (List.length (pbars w))) rest = [].
Proof.
  intros H. rewrite download_files_loop in H. cbv zeta in H.
  set (d := if negb is_root then joinpath dest (src_name src) else dest) in *.
  unfold bind at 1 in H.
  destruct (mkdir d w) as [[[[]|e|] w1] e1] eqn:E1; try discriminate.
  destruct (mkdir_run _ _ _ _ _ E1) as (-> & Hr1 & Hp1 & _).
  unfold bind at 1 in H.
  destruct (list_sources (Some (src_id src)) None w1) as [[[items|e|] w2] e2] eqn:E2;
    try discriminate.
  pose proof (frame_list_sources (Some (src_id src)) None w1) as F2.
  rewrite E2 in F2. destruct F2 as (Hr2 & _ & _ & Hp2 & _).
  cbn [world_of fst snd] in Hr2, Hp2.
  unfold bind at 1 in H. cbn [log emit] in H.
  unfold bind at 1 in H.
  destruct (get_total_size fuel (src_id src) w2) as [[[total|e|] w3] e3] eqn:E3;
    try discriminate.
  pose proof (frame_get_total_size fuel (src_id src) w2) as F3.
  rewrite E3 in F3. destruct F3 as (Hr3 & _ & _ & Hp3 & _).
  cbn [world_of fst snd] in Hr3, Hp3.
  unfold bind at 1 in H. unfold tqdm at 1 in H.
  set (w4 := set_pbars _ w3) in H.
  unfold bind at 1 in H.
  destruct (download_each md5 exported items d (List.length (pbars w3)) w4)
    as [[[[]|e|] w5] e5] eqn:E5; try discriminate.
  pose proof (pk_download_each md5 exported items d (List.length (pbars w3)) w4)
    as K5. rewrite E5 in K5. cbn [world_of fst snd] in K5.
  assert (L5 : (S (List.length (pbars w3)) <= List.length (pbars w5))%nat).
  { apply pbars_le_length in K5. cbn [w4 pbars set_pbars] in K5.
    rewrite length_app in K5. cbn [List.length] in K5. lia. }
  match type of H with
  | context [bind ?m ?k w5] =>
      assert (K6 : preserves progress_kept (bind m k))
        by (pk; apply pk_for_each; pk; apply pk_download_files);
      assert (A6 : above (S (List.length (pbars w3))) (bind m k))
        by (apply above_bind;
            [apply above_for_each; intros it; destruct (is_folder it);
             [apply download_files_above | apply above_ret]
            |intros _; apply above_of_quiet;
             [apply quiet_below_reaper | apply pk_delete_empty_folders]]);
      specialize (K6 w5); specialize (A6 w5 L5);
      destruct (bind m k w5) as [[r6 w6] e6] eqn:E6
  end.
  cbn [world_of trace_of fst snd] in K6, A6.
  injection H as -> -> <-.
  assert (Hlen : List.length (pbars w3) = List.length (pbars w))
    by (now rewrite Hp3, Hp2, Hp1).
  exists ([EvMkdir d] ++ e2 ++ [EvLog DEBUG (MsgItemsToDownload items)] ++ e3),
         total, e5, e6.
  split; [now rewrite <- !app_assoc|].
  split.
  { rewrite transfers_app.
    rewrite (quiet_sizing event transfers eq_refl transfers_app
               (fun _ _ _ => eq_refl) (fun _ _ => eq_refl) _ _ _ _ _ _ _ _ _ _ _ E2 E3).
    reflexivity. }
  split.
  { rewrite updates_app.
    rewrite (quiet_sizing event updates eq_refl updates_app
               (fun _ _ _ => eq_refl) (fun _ _ => eq_refl) _ _ _ _ _ _ _ _ _ _ _ E2 E3).
    reflexivity. }
  split.
  { exists w2, w3, ([EvMkdir d] ++ e2 ++ [EvLog DEBUG (MsgItemsToDownload items)]), e3.
    split; [now rewrite <- !app_assoc|]. split; [congruence | exact E3]. }
  split.
  { pose proof (progress_kept_trans _ _ _ K5 K6) as K7. unfold progress_kept in K7.
    cbn [w4 pbars set_pbars] in K7.
    destruct (pbars_le_nth _ _ _ K7) as (p & Hn & Ht & _).
    exists p. rewrite <- Hlen. split; [exact Hn | exact Ht]. }
  rewrite <- Hlen.
  split.
  { pose proof (download_each_updates md5 exported d (List.length (pbars w3)) items w4)
      as U. now rewrite E5 in U. }
  split.
  { exists items, w1, w2, e2, w4, w5.
    split; [exact Hr1|]. split; [exact E2|].
    split.
    { cbn [w4 pbars set_pbars]. rewrite nth_error_app2 by apply le_n.
      now rewrite Nat.sub_diag. }
    split; [exact E5|].
    exact (download_each_runs md5 exported d _ items w4 (Ok tt) w5 e5 E5). }
  split.
  { pose proof (download_each_follows md5 exported items d (List.length (pbars w3)) w4)
      as U. now rewrite E5 in U. }
  exact (proj1 A6).
Qed.



(** On the scenario the counter of the root is advanced by the chunk of
    [A.bin] and by nothing else; [C.bin] advances the counter of [B]. *)
Example counters_of_the_scenario :
  let x := download_files plain_digest plain_export 3 scenario_root ["dl"] true
             scenario in
  filter (fun e => match e with
                   | EvChunk _ (inr _) | EvUpdate _ _ | EvPbar _ => true
                   | _ => false
                   end) (trace_of x)
  = [EvPbar 8; EvChunk "a" (inr 5%nat); EvUpdate 0 5;
     EvPbar 3; EvChunk "c" (inr 3%nat); EvUpdate 1 3].
Proof. vm_compute. reflexivity. Qed.

(** ** The root is reaped like any folder *)

Lemma reap_empty fuel folder_id w w1 e1 :
  list_sources (Some folder_id) None w = (Ok [], w1, e1) ->
  (faults w1 = [] \/ exists rest, faults w1 = None :: rest) ->
  find_node folder_id (remote w) <> None ->
  exists w',
    delete_empty_folders (S fuel) folder_id 5 w
    = (Ok tt, w',
       e1 ++ [EvDelete folder_id None; EvLog DEBUG (MsgFolderDeleted folder_id)]) /\
    find_node folder_id (remote w') = None.
Proof.
  intros Hls Hf Hn. cbn [delete_empty_folders]. unfold bind at 1. rewrite Hls.
  pose proof (frame_list_sources (Some folder_id) None w) as F. rewrite Hls in F.
  destruct F as (Hr & _). cbn [world_of fst snd] in Hr.
  destruct (delete_retry_recovers [] 5 0 folder_id w1 (faults w1) eq_refl)
    as (w' & Hrun & Hgone).
  - destruct Hf as [-> | [rest ->]]; eauto.
  - constructor.
  - now rewrite Hr.
  - cbn. lia.
  - rewrite Hrun. exists w'. split; [reflexivity | exact Hgone].
Qed.

Lemma download_files_ends_with_reaper md5 exported fuel src dest is_root w w' evs :
  download_files md5 exported (S fuel) src dest is_root w = (Ok tt, w', evs) ->
  exists w6 pre e,
    evs = pre ++ e /\
    delete_empty_folders fuel (src_id src) 5 w6 = (Ok tt, w', e).
Proof.
  intros H. rewrite download_files_loop in H. cbv zeta in H.
  set (d := if negb is_root then joinpath dest (src_name src) else dest) in H.
  unfold bind at 1 in H.
  destruct (mkdir d w) as [[[[]|e|] w1] e1]; try discriminate.
  unfold bind at 1 in H.
  destruct (list_sources (Some (src_id src)) None w1) as [[[items|e|] w2] e2];
    try discriminate.
  unfold bind at 1 in H. cbn [log emit] in H.
  unfold bind at 1 in H.
  destruct (get_total_size fuel (src_id src) w2) as [[[total|e|] w3] e3];
    try discriminate.
  unfold bind at 1 in H. unfold tqdm at 1 in H.
  set (w4 := set_pbars _ w3) in H.
  unfold bind at 1 in H.
  destruct (download_each md5 exported items d (List.length (pbars w3)) w4)
    as [[[[]|e|] w5] e5]; try discriminate.
  unfold bind at 1 in H.
  destruct (for_each items _ w5) as [[[[]|e|] w6] e6]; try discriminate.
  destruct (delete_empty_folders fuel (src_id src) 5 w6) as [[r7 w7] e7] eqn:E7.
  injection H as -> -> <-.
  exists w6, (e1 ++ e2 ++ [EvLog DEBUG (MsgItemsToDownload items)] ++ e3 ++
              [EvPbar total] ++ e5 ++ e6), e7.
  split; [now rewrite <- !app_assoc | exact E7].
Qed.

(** C9, amended.  [download_files] ends with [delete_empty_folders] on the
    identifier of its folder, for the root ([is_root] true) as for every
    other folder.  When the listing of the root then returns zero children
    and Drive accepts the deletion, the root folder itself is deleted. *)
Theorem root_folder_is_reaped :
  forall md5 exported fuel src dest is_root w w' evs,
    download_files md5 exported (S fuel) src dest is_root w = (Ok tt, w', evs) ->
    exists w6 pre e,
      evs = pre ++ e /\
      delete_empty_folders fuel (src_id src) 5 w6 = (Ok tt, w', e) /\
      (forall w7 e7,
         list_sources (Some (src_id src)) None w6 = (Ok [], w7, e7) ->
         (faults w7 = [] \/ exists rest, faults w7 = None :: rest) ->
         find_node (src_id src) (remote w6) <> None ->
         find_node (src_id src) (remote w') = None /\
         e = e7 ++ [EvDelete (src_id src) None;
                    EvLog DEBUG (MsgFolderDeleted (src_id src))]).
Proof.
  intros md5 exported fuel src dest is_root w w' evs H.
  destruct (download_files_ends_with_reaper md5 exported fuel src dest is_root
              w w' evs H) as (w6 & pre & e & -> & Hreap).
  exists w6, pre, e. split; [reflexivity|]. split; [exact Hreap|].
  intros w7 e7 Hls Hf Hn. destruct fuel as [|fuel]; [discriminate|].
  destruct (reap_empty fuel (src_id src) w6 w7 e7 Hls Hf Hn) as (w8 & Hrun & Hgone).
  rewrite Hrun in Hreap. injection Hreap as <- <-. split; [exact Hgone | reflexivity].
Qed.

Lemma root_folder_is_reaped_witness :
  let x := download_files plain_digest plain_export 3 scenario_root ["dl"] true
             scenario in
  exists w6 pre e,
    trace_of x = pre ++ e /\
    delete_empty_folders 2 "R" 5 w6 = (Ok tt, world_of x, e) /\
    (forall w7 e7,
       list_sources (Some "R") None w6 = (Ok [], w7, e7) ->
       (faults w7 = [] \/ exists rest, faults w7 = None :: rest) ->
       find_node "R" (remote w6) <> None ->
       find_node "R" (remote (world_of x)) = None /\
       e = e7 ++ [EvDelete "R" None; EvLog DEBUG (MsgFolderDeleted "R")]).
Proof.
  cbv zeta.
  apply (root_folder_is_reaped plain_digest plain_export 2 scenario_root ["dl"] true
           scenario).
  vm_compute. reflexivity.
Defined.

(** ** Counting and sizing a tree *)

(** C6.  On the scenario of the specification the tree has two File-kind
    nodes, of 5 and 3 bytes.  [get_total_size] returns their sum, 8;
    [get_total_files] returns 3: it starts from the length of the listing,
    so the folder [B] is counted as a file. *)
Lemma get_total_files_counts_folders :
  store_of_tree scenario_tree = scenario_store /\
  count_files scenario_tree = 2%Z /\
  sum_bytes scenario_tree = 8%Z /\
  result_of (get_total_files 3 "R" scenario) = Ok 3%Z /\
  result_of (get_total_size 3 "R" scenario) = Ok 8%Z.
Proof. repeat split; reflexivity. Qed.

(** ** Listings of a remote tree *)

Lemma rtree_induction (P : rtree -> Prop) :
  (forall n, P (TFile n)) ->
  (forall fid nm cs, Forall P cs -> P (TFolder fid nm cs)) ->
  forall t, P t.
Proof.
  intros Hfile Hfolder.
  fix IH 1. intros [n | fid nm cs].
  - apply Hfile.
  - apply Hfolder. induction cs as [|c cs IHcs]; constructor; [apply IH | exact IHcs].
Qed.

Lemma nodes_of_folder ps fid nm cs :
  nodes_of ps (TFolder fid nm cs)
  = folder_node fid nm ps :: flat_map (nodes_of [fid]) cs.
Proof. reflexivity. Qed.

Lemma tree_ids_folder fid nm cs :
  tree_ids (TFolder fid nm cs) = fid :: flat_map tree_ids cs.
Proof. reflexivity. Qed.

Lemma weigh_folder part fid nm cs :
  weigh part (TFolder fid nm cs)
  = (part (tree_item (TFolder fid nm cs)) + sumZ (map (weigh part) cs))%Z.
Proof.
  cbn [weigh]. f_equal. induction cs as [|c cs IH]; [reflexivity|].
  cbn [map sumZ fold_right]. fold (sumZ (map (weigh part) cs)). now rewrite IH.
Qed.

Lemma leaves_are_files_folder fid nm cs :
  leaves_are_files (TFolder fid nm cs) <-> Forall leaves_are_files cs.
Proof.
  cbn [leaves_are_files]. induction cs as [|c cs IH].
  - split; [constructor | trivial].
  - split.
    + intros [Hc Hcs]. constructor; [exact Hc | now apply IH].
    + intros H. inversion H; subst. split; [assumption | now apply IH].
Qed.

Lemma depth_child fid nm cs c :
  In c cs -> (depth c < depth (TFolder fid nm cs))%nat.
Proof.
  cbn [depth]. induction cs as [|c' cs IH]; intros Hin; [contradiction|].
  destruct Hin as [-> | Hin]; [lia|]. specialize (IH Hin). lia.
Qed.

Lemma filter_flat_map A B (f : B -> bool) (g : A -> list B) (l : list A) :
  filter f (flat_map g l) = flat_map (fun x => filter f (g x)) l.
Proof.
  induction l as [|x l IH]; [reflexivity|].
  cbn [flat_map]. now rewrite filter_app, IH.
Qed.

Lemma flat_map_nil A B (g : A -> list B) (l : list A) :
  (forall x, In x l -> g x = []) -> flat_map g l = [].
Proof.
  induction l as [|x l IH]; intros H; [reflexivity|].
  cbn [flat_map]. rewrite (H x) by now left. apply IH. intros y Hy. apply H. now right.
Qed.

Lemma flat_map_singleton A B (g : A -> list B) (h : A -> B) (l : list A) :
  (forall x, In x l -> g x = [h x]) -> flat_map g l = map h l.
Proof.
  induction l as [|x l IH]; intros H; [reflexivity|].
  cbn [flat_map map]. rewrite (H x) by now left. cbn [app]. f_equal.
  apply IH. intros y Hy. apply H. now right.
Qed.

Lemma matches_root fid ps t :
  matches (QChildren fid) (root_node ps t) = mem_id fid ps.
Proof.
  destruct t; cbn [matches root_node with_parents folder_node r_parents r_trashed];
    unfold mem_id; now rewrite andb_true_r.
Qed.

(** Outside of a tree, a folder has for children at most the root of the
    tree. *)
Lemma no_kids : forall t ps fid,
  ~ In fid (tree_ids t) ->
  filter (matches (QChildren fid)) (nodes_of ps t)
  = if mem_id fid ps then [root_node ps t] else [].
Proof.
  induction t as [n | f nm cs IH] using rtree_induction; intros ps fid Hnot.
  - cbn [nodes_of filter].
    pose proof (matches_root fid ps (TFile n)) as Hm. cbn [root_node] in Hm |- *.
    rewrite Hm. now destruct (mem_id fid ps).
  - rewrite nodes_of_folder. cbn [filter].
    pose proof (matches_root fid ps (TFolder f nm cs)) as Hm.
    cbn [root_node] in Hm |- *. rewrite Hm.
    rewrite tree_ids_folder in Hnot.
    assert (Hf : fid <> f) by (intros ->; apply Hnot; now left).
    rewrite filter_flat_map, flat_map_nil.
    + now destruct (mem_id fid ps).
    + intros c Hc. rewrite Forall_forall in IH. rewrite (IH c Hc).
      * cbn [mem_id existsb]. destruct (String.eqb_spec fid f); [contradiction|].
        reflexivity.
      * intros Hin. apply Hnot. right. apply in_flat_map. eauto.
Qed.

Lemma NoDup_app_disjoint A (a b : list A) x :
  NoDup (a ++ b) -> In x a -> ~ In x b.
Proof.
  induction a as [|y a IH]; intros Hnd Hin; [contradiction|].
  cbn [app] in Hnd. inversion Hnd as [|? ? Hy Hrest]; subst.
  destruct Hin as [-> | Hin]; [|now apply IH].
  intros Hb. apply Hy. apply in_or_app. now right.
Qed.

Lemma NoDup_mid A (a b c : list A) x :
  NoDup (a ++ b ++ c) -> In x b -> NoDup b /\ ~ In x a /\ ~ In x c.
Proof.
  intros Hnd Hin. split; [|split].
  - apply NoDup_app_remove_l in Hnd. now apply NoDup_app_remove_r in Hnd.
  - intros Ha. apply (NoDup_app_disjoint _ _ _ x Hnd Ha). apply in_or_app. now left.
  - apply NoDup_app_remove_l in Hnd. now apply (NoDup_app_disjoint _ _ _ x Hnd).
Qed.

Lemma folder_of_id fid nm cs T :
  folder_of (TFolder fid nm cs) T -> In fid (tree_ids T).
Proof.
  intros H. remember (TFolder fid nm cs) as t eqn:Ht.
  induction H as [f n c | t c f n cs0 Hin Hsub IH].
  - injection Ht as -> -> ->. rewrite tree_ids_folder. now left.
  - rewrite tree_ids_folder. right. apply in_flat_map. exists c. auto.
Qed.

(** In a tree with distinct identifiers, the nodes that have a folder of
    the tree among their parents are the children of that folder. *)
Lemma kids_of_folder fid nm cs T :
  folder_of (TFolder fid nm cs) T ->
  forall ps, NoDup (tree_ids T) -> mem_id fid ps = false ->
  filter (matches (QChildren fid)) (nodes_of ps T) = map (root_node [fid]) cs.
Proof.
  intros H. remember (TFolder fid nm cs) as t eqn:Ht.
  induction H as [f n c | t c f n cs0 Hin Hsub IH]; intros ps Hnd Hps.
  - injection Ht as -> -> ->. rewrite nodes_of_folder. cbn [filter].
    pose proof (matches_root fid ps (TFolder fid nm cs)) as Hm.
    cbn [root_node] in Hm. rewrite Hm, Hps.
    rewrite filter_flat_map. apply flat_map_singleton. intros x Hx.
    rewrite no_kids.
    + cbn [mem_id existsb]. now rewrite String.eqb_refl.
    + rewrite tree_ids_folder in Hnd. inversion Hnd as [|? ? Hnot _]; subst.
      intros Hin. apply Hnot. apply in_flat_map. eauto.
  - subst t. pose proof (folder_of_id fid nm cs c Hsub) as Hfid.
    rewrite tree_ids_folder in Hnd. inversion Hnd as [|? ? Hf Hrest]; subst.
    assert (Hne : fid <> f).
    { intros ->. apply Hf. apply in_flat_map. eauto. }
    assert (Hmem : mem_id fid [f] = false).
    { cbn [mem_id existsb]. destruct (String.eqb_spec fid f); [contradiction|].
      reflexivity. }
    destruct (in_split c cs0 Hin) as (l1 & l2 & ->).
    rewrite flat_map_app in Hrest. cbn [flat_map] in Hrest.
    destruct (NoDup_mid _ _ _ _ fid Hrest Hfid) as (Hc & H1 & H2).
    rewrite nodes_of_folder. cbn [filter].
    pose proof (matches_root fid ps (TFolder f n (l1 ++ c :: l2))) as Hm.
    cbn [root_node] in Hm. rewrite Hm, Hps.
    rewrite flat_map_app. cbn [flat_map]. rewrite !filter_app.
    rewrite (IH eq_refl [f] Hc Hmem).
    rewrite !filter_flat_map.
    rewrite (flat_map_nil _ _ _ l1), (flat_map_nil _ _ _ l2).
    + now rewrite app_nil_r.
    + intros x Hx. rewrite no_kids; [now rewrite Hmem|].
      intros Hin'. apply H2. apply in_flat_map. eauto.
    + intros x Hx. rewrite no_kids; [now rewrite Hmem|].
      intros Hin'. apply H1. apply in_flat_map. eauto.
Qed.

Lemma folder_of_folder t T : folder_of t T -> exists fid nm cs, t = TFolder fid nm cs.
Proof. induction 1; eauto. Qed.

Lemma folder_of_child_of fid nm cs c T :
  folder_of (TFolder fid nm cs) T -> In c cs ->
  forall g nm' cs', c = TFolder g nm' cs' -> folder_of c T.
Proof.
  intros H. remember (TFolder fid nm cs) as t eqn:Ht.
  induction H as [f n cs0 | t c0 f n cs0 Hin Hsub IH]; intros Hc g nm' cs' ->.
  - injection Ht as -> -> ->. eapply folder_of_child; [exact Hc | constructor].
  - eapply folder_of_child; [exact Hin|]. eapply IH; eauto.
Qed.

Lemma leaves_of_folder t T :
  folder_of t T -> leaves_are_files T -> leaves_are_files t.
Proof.
  induction 1 as [|t c f n cs Hin Hsub IH]; intros Hl; [exact Hl|].
  apply IH. apply leaves_are_files_folder in Hl. rewrite Forall_forall in Hl. auto.
Qed.

Lemma item_of_root ps t : item_of_node (root_node ps t) = tree_item t.
Proof. destruct t; reflexivity. Qed.

Section TreeWalk.

(** A walk of the shape of [get_total_files] and [get_total_size]: a first
    total computed from the listing, to which the walk of each folder of
    the listing is added. *)
Variable walk : nat -> string -> M Z.
Variable init : list item -> Z.
Variable part : item -> Z.

Hypothesis walk_S : forall fuel parent_id w,
  walk (S fuel) parent_id w
  = bind (list_sources (Some parent_id) None)
         (fun items =>
            fold_each items (init items)
              (fun total item =>
                 if is_folder item
                 then bind (walk fuel (id item)) (fun n => ret (total + n)%Z)
                 else ret total)) w.
Hypothesis init_parts : forall items, init items = sumZ (map part items).
Hypothesis part_key : forall rk it, part (with_resource_key rk it) = part it.

Variable T : rtree.
Variable w : world.
Hypothesis T_ok : well_formed T.
Hypothesis w_store : remote w = store_of_tree T.
Hypothesis w_faults : faults w = [].

Lemma walk_children fuel cs :
  Forall (fun c => match c with
                   | TFile n => r_mime n <> folder_mime
                   | TFolder _ _ _ =>
                       exists evs,
                         walk fuel (tree_id c) w
                         = (Ok (weigh part c - part (tree_item c))%Z, w, evs)
                   end) cs ->
  forall acc, exists evs,
    fold_each (map child_item cs) acc
      (fun total item =>
         if is_folder item
         then bind (walk fuel (id item)) (fun n => ret (total + n)%Z)
         else ret total) w
    = (Ok (acc + sumZ (map (below part) cs))%Z, w, evs).
Proof.
  induction 1 as [|c cs Hc Hcs IH]; intros acc.
  - exists []. cbn. now rewrite Z.add_0_r.
  - cbn [map fold_each]. unfold bind at 1. destruct c as [n | g nm' cs'].
    + assert (Hf : is_folder (child_item (TFile n)) = false).
      { unfold is_folder. cbn. now apply String.eqb_neq. }
      rewrite Hf. cbn [ret]. destruct (IH acc) as (evs & ->).
      exists evs. cbn [below sumZ fold_right app]. fold (sumZ (map (below part) cs)).
      now rewrite Z.add_0_l.
    + assert (Hf : is_folder (child_item (TFolder g nm' cs')) = true) by reflexivity.
      rewrite Hf. destruct Hc as (e1 & Hw). unfold bind at 1.
      change (id (child_item (TFolder g nm' cs'))) with (tree_id (TFolder g nm' cs')).
      rewrite Hw. cbn [ret app].
      destruct (IH (acc + (weigh part (TFolder g nm' cs')
                           - part (tree_item (TFolder g nm' cs'))))%Z) as (evs & ->).
      eexists. f_equal. f_equal. f_equal.
      cbn [below sumZ fold_right map]. fold (sumZ (map (below part) cs)). lia.
Qed.

Lemma weigh_children cs :
  (sumZ (map part (map child_item cs)) + sumZ (map (below part) cs))%Z
  = sumZ (map (weigh part) cs).
Proof.
  induction cs as [|c cs IH]; [reflexivity|].
  cbn [map sumZ fold_right].
  fold (sumZ (map part (map child_item cs))) (sumZ (map (below part) cs))
       (sumZ (map (weigh part) cs)).
  rewrite <- IH. unfold child_item at 1. rewrite part_key.
  destruct c; cbn [below weigh]; lia.
Qed.

Lemma walk_tree : forall t,
  folder_of t T ->
  forall fuel, (depth t <= fuel)%nat ->
  exists evs,
    walk fuel (tree_id t) w = (Ok (weigh part t - part (tree_item t))%Z, w, evs).
Proof.
  destruct T_ok as (Hnd & Hne & Hleaves).
  induction t as [n | fid nm cs IH] using rtree_induction; intros Hsub fuel Hfuel.
  - destruct (folder_of_folder _ _ Hsub) as (? & ? & ? & ?). discriminate.
  - destruct fuel as [|fuel]; [cbn in Hfuel; lia|].
    rewrite walk_S. unfold bind at 1.
    destruct (list_sources_nofault (Some fid) None w w_faults) as (e1 & Hls & _).
    change (tree_id (TFolder fid nm cs)) with fid. rewrite Hls.
    assert (Hfid : fid <> "").
    { intros ->. apply Hne. eapply folder_of_id; eassumption. }
    rewrite (list_query_folder fid Hfid), w_store. unfold store_of_tree.
    rewrite (kids_of_folder fid nm cs T Hsub [] Hnd eq_refl).
    assert (Hitems : map (with_resource_key None)
                       (map item_of_node (map (root_node [fid]) cs))
                     = map child_item cs).
    { rewrite !map_map. apply map_ext. intros c. unfold child_item.
      now rewrite item_of_root. }
    rewrite Hitems.
    destruct (walk_children fuel cs) with (acc := init (map child_item cs))
      as (e2 & ->).
    + pose proof (leaves_of_folder _ _ Hsub Hleaves) as Hl.
      apply leaves_are_files_folder in Hl.
      rewrite Forall_forall in *. intros c Hc. destruct c as [n | g nm' cs'].
      * exact (Hl _ Hc).
      * apply (IH _ Hc).
        -- eapply folder_of_child_of; eauto.
        -- pose proof (depth_child fid nm cs _ Hc). lia.
    + eexists. f_equal. f_equal. f_equal.
      rewrite init_parts, weigh_children, weigh_folder. lia.
Qed.

End TreeWalk.

Lemma sum_sizes_parts items : sum_sizes items = sumZ (map size_part items).
Proof.
  unfold sum_sizes. induction items as [|it items IH]; [reflexivity|].
  cbn [filter map sumZ fold_right]. fold (sumZ (map size_part items)).
  rewrite <- IH. unfold size_part at 1.
  destruct (is_folder it); cbn [negb map fold_right]; lia.
Qed.

Lemma length_parts (items : list item) :
  Z.of_nat (List.length items) = sumZ (map (fun _ => 1%Z) items).
Proof.
  induction items as [|it items IH]; [reflexivity|].
  cbn [List.length map sumZ fold_right]. fold (sumZ (map (fun _ => 1%Z) items)). lia.
Qed.

Lemma weigh_size : forall t, leaves_are_files t -> weigh size_part t = sum_bytes t.
Proof.
  induction t as [n | fid nm cs IH] using rtree_induction; intros Hl.
  - cbn [weigh sum_bytes leaves_are_files] in *. unfold size_part, is_folder.
    cbn. apply String.eqb_neq in Hl. now rewrite Hl.
  - rewrite weigh_folder. apply leaves_are_files_folder in Hl.
    cbn [sum_bytes]. change (size_part (tree_item (TFolder fid nm cs))) with 0%Z.
    rewrite Z.add_0_l. induction cs as [|c cs IHcs]; [reflexivity|].
    inversion IH; subst. inversion Hl; subst.
    cbn [map sumZ fold_right]. fold (sumZ (map (weigh size_part) cs)).
    rewrite IHcs by assumption. f_equal. auto.
Qed.

Lemma weigh_one : forall t, weigh (fun _ => 1%Z) t = count_nodes t.
Proof.
  induction t as [n | fid nm cs IH] using rtree_induction; [reflexivity|].
  rewrite weigh_folder. cbn [count_nodes]. f_equal.
  induction cs as [|c cs IHcs]; [reflexivity|]. inversion IH; subst.
  cbn [map sumZ fold_right]. fold (sumZ (map (weigh (fun _ => 1%Z)) cs)).
  rewrite IHcs by assumption. f_equal. auto.
Qed.

(** On every well-formed remote tree, [get_total_size] returns the sum of
    the sizes of the files of the tree. *)
Lemma get_total_size_sums_files fid nm cs w fuel :
  well_formed (TFolder fid nm cs) ->
  remote w = store_of_tree (TFolder fid nm cs) ->
  faults w = [] ->
  (depth (TFolder fid nm cs) <= fuel)%nat ->
  result_of (get_total_size fuel fid w) = Ok (sum_bytes (TFolder fid nm cs)).
Proof.
  intros Hwf Hst Hf Hfuel.
  destruct (walk_tree get_total_size sum_sizes size_part
              (fun _ _ _ => eq_refl) sum_sizes_parts (fun _ _ => eq_refl)
              (TFolder fid nm cs) w Hwf Hst Hf (TFolder fid nm cs)
              (folder_of_root fid nm cs) fuel Hfuel) as (evs & Hrun).
  change (tree_id (TFolder fid nm cs)) with fid in Hrun. rewrite Hrun.
  cbn [result_of fst]. f_equal.
  rewrite (weigh_size _ (proj2 (proj2 Hwf))).
  change (size_part (tree_item (TFolder fid nm cs))) with 0%Z. lia.
Qed.

(** On every well-formed remote tree, [get_total_files] returns the number
    of the nodes below the root, the folders among them. *)
Lemma get_total_files_counts_nodes fid nm cs w fuel :
  well_formed (TFolder fid nm cs) ->
  remote w = store_of_tree (TFolder fid nm cs) ->
  faults w = [] ->
  (depth (TFolder fid nm cs) <= fuel)%nat ->
  result_of (get_total_files fuel fid w)
  = Ok (count_nodes (TFolder fid nm cs) - 1)%Z.
Proof.
  intros Hwf Hst Hf Hfuel.
  destruct (walk_tree get_total_files (fun items => Z.of_nat (List.length items))
              (fun _ => 1%Z)
              (fun _ _ _ => eq_refl) length_parts (fun _ _ => eq_refl)
              (TFolder fid nm cs) w Hwf Hst Hf (TFolder fid nm cs)
              (folder_of_root fid nm cs) fuel Hfuel) as (evs & Hrun).
  change (tree_id (TFolder fid nm cs)) with fid in Hrun. rewrite Hrun.
  cbn [result_of fst]. now rewrite weigh_one.
Qed.

(** ** The loops written in place give up after [max_retry] failures *)

Lemma fetch_retry_exhausted exported req pbar : forall sts i dl w rest,
  faults w = map Some sts ++ rest ->
  Forall (fun s => is_rate_limit s = true) sts ->
  done dl = false ->
  exists w' evs,
    fetch_retry exported (seq i (List.length sts)) req pbar dl w
    = (Ok dl, w', evs ++ [EvLog ERROR MsgExceeded]) /\
    faults w' = rest /\ remote w' = remote w /\ local w' = local w /\
    pbars w' = pbars w /\
    failed_chunks evs = List.length sts /\
    sleeps evs = map backoff (seq i (List.length sts)) /\
    exchanges evs = List.length sts.
Proof.
  induction sts as [|s sts IH]; intros i dl w rest Hf Hall Hd.
  - exists w, []. cbn in Hf |- *. repeat split; auto.
  - inversion Hall as [|? ? Hs Hall']; subst.
    cbn [List.length seq fetch_retry]. unfold bind at 1. cbn [get_world].
    unfold bind at 1.
    assert (Hfuel : exists k, chunk_fuel exported req w = S k).
    { unfold chunk_fuel. destruct (body_of exported req (remote w)); eauto. }
    destruct Hfuel as (k & ->).
    rewrite (read_chunks_fault exported k req pbar dl w s (map Some sts ++ rest) Hf Hd).
    rewrite Hs. cbn [log emit sleep bind app].
    destruct (IH (S i) dl (set_faults (map Some sts ++ rest) w) rest eq_refl Hall' Hd)
      as (w' & evs & Hrun & Hfa & Hr & Hl & Hp & Hc & Hsl & Hx).
    rewrite Hrun. fold (backoff i).
    exists w', (EvChunk (fileId req) (inl s) :: EvLog WARNING (MsgRateLimit (backoff i))
                :: EvSleep (backoff i) :: evs).
    split; [reflexivity|]. repeat split; auto.
    + unfold failed_chunks in *. cbn [filter List.length]. now rewrite Hc.
    + cbn [sleeps map]. now rewrite Hsl.
    + unfold exchanges in *. cbn [filter is_exchange List.length]. now rewrite Hx.
Qed.

Lemma delete_retry_exhausted : forall sts i fid w rest,
  faults w = map Some sts ++ rest ->
  Forall (fun s => is_rate_limit s = true) sts ->
  exists w',
    delete_retry (seq i (List.length sts)) fid w
    = (Ok tt, w', failed_deletes fid i sts ++ [EvLog ERROR MsgExceeded]) /\
    faults w' = rest /\ remote w' = remote w.
Proof.
  induction sts as [|s sts IH]; intros i fid w rest Hf Hall.
  - exists w. cbn in Hf |- *. repeat split; auto.
  - inversion Hall as [|? ? Hs Hall']; subst.
    cbn [List.length seq delete_retry]. unfold bind at 1. unfold try_except.
    unfold bind at 1. unfold files_delete. unfold bind at 1. unfold next_fault.
    rewrite Hf. cbn [map app]. cbn [emit raise bind]. cbn [app]. rewrite Hs.
    cbn [log emit sleep bind ret app].
    destruct (IH (S i) fid (set_faults (map Some sts ++ rest) w) rest eq_refl Hall')
      as (w' & Hrun & Hfa & Hr).
    rewrite Hrun. exists w'. split; [reflexivity|]. split; [exact Hfa | exact Hr].
Qed.

Lemma fetch_retry_permanent exported req pbar n dl w s rest :
  faults w = Some s :: rest ->
  is_rate_limit s = false ->
  done dl = false ->
  fetch_retry exported (seq 0 (S n)) req pbar dl w
  = (Raise (HttpError s), set_faults rest w, [EvChunk (fileId req) (inl s)]).
Proof.
  intros Hf Hs Hd. cbn [seq fetch_retry]. unfold bind at 1. cbn [get_world].
  unfold bind at 1.
  assert (Hfuel : exists k, chunk_fuel exported req w = S k).
  { unfold chunk_fuel. destruct (body_of exported req (remote w)); eauto. }
  destruct Hfuel as (k & ->).
  rewrite (read_chunks_fault exported k req pbar dl w s rest Hf Hd).
  rewrite Hs. reflexivity.
Qed.

(** C8.  An operation that always raises a rate-limit error is invoked
    exactly [N] times by the wrapper, which sleeps [2^0, ..., 2^(N-1)]
    seconds after the failures (a strictly increasing sequence), logs that
    the attempts are exhausted and returns; an operation whose first call
    raises another HttpError is invoked once and the error propagates.  The
    loop written in place around the chunk reads of [download_file] does
    the same on [N] rate-limit answers of Drive and on another HttpError. *)
Theorem retry_bound A (func : M A) (N : nat) :
  (always_transient func ->
   forall w, exists w' evs,
     handle_http_error_with_exponential_backoff N func w
       = (Ok None, w', evs ++ [EvLog ERROR MsgExceeded]) /\
     exchanges evs = N /\
     sleeps evs = map backoff (seq 0 N) /\
     StronglySorted Z.lt (sleeps evs)) /\
  (forall w s w' evs,
     func w = (Raise (HttpError s), w', evs) ->
     is_rate_limit s = false ->
     (0 < N)%nat ->
     handle_http_error_with_exponential_backoff N func w
       = (Raise (HttpError s), w', evs)) /\
  (forall exported req pbar sts w rest,
     faults w = map Some sts ++ rest ->
     Forall (fun s => is_rate_limit s = true) sts ->
     List.length sts = N ->
     exists w' evs,
       fetch_retry exported (seq 0 N) req pbar new_downloader w
       = (Ok new_downloader, w', evs ++ [EvLog ERROR MsgExceeded]) /\
       failed_chunks evs = N /\ exchanges evs = N /\
       sleeps evs = map backoff (seq 0 N) /\
       StronglySorted Z.lt (sleeps evs)) /\
  (forall exported req pbar w s rest,
     faults w = Some s :: rest ->
     is_rate_limit s = false ->
     (0 < N)%nat ->
     fetch_retry exported (seq 0 N) req pbar new_downloader w
     = (Raise (HttpError s), set_faults rest w, [EvChunk (fileId req) (inl s)])).
Proof.
  split; [|split; [|split]].
  - intros H w. unfold handle_http_error_with_exponential_backoff.
    destruct (backoff_attempts_transient A func H (seq 0 N) w) as (w' & evs & Hr & Hx & Hs).
    exists w', evs. rewrite length_seq in Hx. repeat split; auto.
    rewrite Hs. apply backoff_increasing.
  - intros w s w' evs Hf Hs HN. unfold handle_http_error_with_exponential_backoff.
    destruct N as [|n]; [lia|]. simpl.
    unfold bind at 1. unfold try_except, bind at 1. rewrite Hf, Hs. cbn.
    now rewrite app_nil_r.
  - intros exported req pbar sts w rest Hf Hall <-.
    destruct (fetch_retry_exhausted exported req pbar sts 0%nat new_downloader w rest
                Hf Hall eq_refl)
      as (w' & evs & Hrun & _ & _ & _ & _ & Hc & Hsl & Hx).
    exists w', evs. split; [exact Hrun|]. split; [exact Hc|]. split; [exact Hx|].
    split; [exact Hsl|]. rewrite Hsl. apply backoff_increasing.
  - intros exported req pbar w s rest Hf Hs HN. destruct N as [|n]; [lia|].
    now apply fetch_retry_permanent.
Qed.

Lemma retry_bound_witness :
  (exists w' evs,
     handle_http_error_with_exponential_backoff 3 (failing_endpoint 503) single
       = (Ok None, w', evs ++ [EvLog ERROR MsgExceeded]) /\
     exchanges evs = 3%nat /\
     sleeps evs = [1; 2; 4]%Z /\
     StronglySorted Z.lt (sleeps evs)) /\
  handle_http_error_with_exponential_backoff 3 (failing_endpoint 404) single
  = (Raise (HttpError 404), single, [EvDelete "x" (Some 404%Z)]) /\
  (exists w' evs,
     fetch_retry plain_export (seq 0 3) request_a 0 new_downloader
       (set_faults (map Some [503; 429; 503]%Z) rate_limited)
     = (Ok new_downloader, w', evs ++ [EvLog ERROR MsgExceeded]) /\
     failed_chunks evs = 3%nat /\ exchanges evs = 3%nat /\
     sleeps evs = [1; 2; 4]%Z /\
     StronglySorted Z.lt (sleeps evs)) /\
  fetch_retry plain_export (seq 0 3) request_a 0 new_downloader
    (set_faults [Some 404%Z] rate_limited)
  = (Raise (HttpError 404), set_faults [] (set_faults [Some 404%Z] rate_limited),
     [EvChunk "a" (inl 404%Z)]).
Proof.
  pose proof (retry_bound unit (failing_endpoint 503) 3) as (H1 & _ & H3 & _).
  pose proof (retry_bound unit (failing_endpoint 404) 3) as (_ & H2 & _ & H4).
  split; [|split; [|split]].
  - apply H1. intros w. exists 503%Z, w, [EvDelete "x" (Some 503%Z)]. repeat split.
  - apply H2; [reflexivity | reflexivity | lia].
  - apply (H3 plain_export request_a 0%nat [503; 429; 503]%Z
              (set_faults (map Some [503; 429; 503]%Z) rate_limited) []).
    + reflexivity.
    + repeat constructor.
    + reflexivity.
  - apply (H4 plain_export request_a 0%nat (set_faults [Some 404%Z] rate_limited)
              404%Z []); [reflexivity | reflexivity | lia].
Defined.

(** * Further properties of the functions *)

(** ** [list_sources] *)

(** X1.  [list_sources] always returns a list: it never raises, whatever
    Drive answers, and it changes nothing in the world but the pending
    answers of Drive that it consumed. *)
Theorem list_sources_always_returns :
  forall parent_id resource_key w,
    exists items w' evs,
      list_sources parent_id resource_key w = (Ok items, w', evs) /\
      only_faults w w'.
Proof.
  intros p rk w.
  destruct (list_sources_spec p rk w) as (items & w' & evs & Hrun & Hfr).
  eauto.
Qed.

(** X2.  When Drive answers every page, [list_sources] returns all the
    nodes that match the query, in the order of the store and each with the
    resource key it was given, however many pages that takes; the world is
    left as it was. *)
Theorem list_sources_complete :
  forall parent_id resource_key w,
    faults w = [] ->
    exists evs,
      list_sources parent_id resource_key w
      = (Ok (listed parent_id resource_key w), w, evs) /\
      lists_only (list_query parent_id) evs.
Proof. intros p rk w Hf. exact (list_sources_nofault p rk w Hf). Qed.

Lemma list_sources_complete_witness :
  exists evs,
    list_sources (Some "R") None (world_of_store (wide_store 250) [])
    = (Ok (listed (Some "R") None (world_of_store (wide_store 250) [])),
       world_of_store (wide_store 250) [], evs) /\
    lists_only (list_query (Some "R")) evs.
Proof.
  apply (list_sources_complete (Some "R") None (world_of_store (wide_store 250) [])).
  reflexivity.
Defined.

(** A folder of 250 files is listed in three pages. *)
Example wide_listing :
  let x := list_sources (Some "R") None (world_of_store (wide_store 250) []) in
  exchanges (trace_of x) = 3%nat /\
  match result_of x with Ok items => List.length items = 250%nat | _ => False end.
Proof. vm_compute. split; reflexivity. Qed.

(** X3.  An HttpError on the second page makes [list_sources] return the
    empty list: the hundred items of the first page are dropped with the
    rest. *)
Theorem list_sources_drops_pages_on_error :
  forall parent_id resource_key w s rest,
    faults w = None :: Some s :: rest ->
    (100 < List.length (filter (matches (list_query parent_id)) (remote w)))%nat ->
    exists first_page,
      list_sources parent_id resource_key w
      = (Ok [], set_faults rest w,
         [EvLog DEBUG MsgListing;
          EvList (list_query parent_id) None (inr (first_page, Some 100%nat));
          EvLog DEBUG (MsgCurrentItems (map (with_resource_key resource_key) first_page));
          EvList (list_query parent_id) (Some 100%nat) (inl s);
          EvLog ERROR (MsgErrorOccurred (HttpError s))]) /\
      List.length first_page = 100%nat.
Proof.
  intros p rk w s rest Hf Hlen.
  pose proof (filter_length_le (matches (list_query p)) (remote w)) as Hle.
  destruct (List.length (remote w)) as [|k] eqn:Hk; [lia|].
  exists (map item_of_node (firstn 100 (filter (matches (list_query p)) (remote w)))).
  split.
  - unfold list_sources. unfold bind at 1. cbn [log emit].
    unfold bind at 1. cbn [get_world]. unfold bind at 1. unfold try_except.
    unfold bind at 1. rewrite Hk. cbn [list_pages]. unfold bind at 1.
    unfold files_list at 1. unfold bind at 1. unfold next_fault at 1. rewrite Hf.
    cbn [get_world bind emit ret app]. cbn [remote set_faults].
    unfold page_of. cbn [skipn fst snd].
    apply Nat.ltb_lt in Hlen. rewrite Hlen. cbn [fst snd Nat.add].
    unfold bind at 1. cbn [log emit]. unfold files_list. unfold bind at 1.
    unfold next_fault. cbn [faults set_faults].
    cbn [emit raise bind app ret log]. reflexivity.
  - rewrite length_map, length_firstn. lia.
Qed.

Lemma list_sources_drops_pages_on_error_witness :
  exists first_page,
    list_sources (Some "R") None
      (set_faults [None; Some 500%Z] (world_of_store (wide_store 250) []))
    = (Ok [], set_faults [] (set_faults [None; Some 500%Z]
                               (world_of_store (wide_store 250) [])),
       [EvLog DEBUG MsgListing;
        EvList (list_query (Some "R")) None (inr (first_page, Some 100%nat));
        EvLog DEBUG (MsgCurrentItems (map (with_resource_key None) first_page));
        EvList (list_query (Some "R")) (Some 100%nat) (inl 500%Z);
        EvLog ERROR (MsgErrorOccurred (HttpError 500))]) /\
    List.length first_page = 100%nat.
Proof.
  apply (list_sources_drops_pages_on_error (Some "R") None
           (set_faults [None; Some 500%Z] (world_of_store (wide_store 250) []))
           500%Z []).
  - reflexivity.
  - vm_compute. lia.
Defined.

(** ** [get_total_size], [get_total_files] *)

Lemma scenario_tree_well_formed : well_formed scenario_tree.
Proof.
  unfold well_formed. cbn. split; [|split].
  - repeat constructor; cbn; intuition discriminate.
  - intuition discriminate.
  - repeat split; discriminate.
Qed.

(** X4.  On the store of a remote tree with distinct identifiers,
    [get_total_size] returns the sum of the sizes of the files of the tree,
    at any depth, when Drive answers every listing and the recursion is
    allowed to go as deep as the tree. *)
Theorem get_total_size_of_tree :
  forall fid nm children w fuel,
    well_formed (TFolder fid nm children) ->
    remote w = store_of_tree (TFolder fid nm children) ->
    faults w = [] ->
    (depth (TFolder fid nm children) <= fuel)%nat ->
    result_of (get_total_size fuel fid w) = Ok (sum_bytes (TFolder fid nm children)).
Proof. exact get_total_size_sums_files. Qed.

Lemma get_total_size_of_tree_witness :
  result_of (get_total_size 2 "R" scenario) = Ok (sum_bytes scenario_tree).
Proof.
  apply (get_total_size_of_tree "R" "root" _ scenario 2).
  - exact scenario_tree_well_formed.
  - reflexivity.
  - reflexivity.
  - cbn. lia.
Defined.

(** X5.  On the same stores [get_total_files] returns the number of nodes
    below the root, the folders counted with the files. *)
Theorem get_total_files_of_tree :
  forall fid nm children w fuel,
    well_formed (TFolder fid nm children) ->
    remote w = store_of_tree (TFolder fid nm children) ->
    faults w = [] ->
    (depth (TFolder fid nm children) <= fuel)%nat ->
    result_of (get_total_files fuel fid w)
    = Ok (count_nodes (TFolder fid nm children) - 1)%Z.
Proof. exact get_total_files_counts_nodes. Qed.

Lemma get_total_files_of_tree_witness :
  result_of (get_total_files 2 "R" scenario) = Ok (count_nodes scenario_tree - 1)%Z.
Proof.
  apply (get_total_files_of_tree "R" "root" _ scenario 2).
  - exact scenario_tree_well_formed.
  - reflexivity.
  - reflexivity.
  - cbn. lia.
Defined.

(** X6.  When the listing of the folder fails, both totals are 0: the
    failure of [list_sources] shows as an empty folder, and no error reaches
    the caller. *)
Theorem totals_of_failed_listing :
  forall fuel parent_id w s rest,
    faults w = Some s :: rest ->
    result_of (get_total_size (S fuel) parent_id w) = Ok 0%Z /\
    result_of (get_total_files (S fuel) parent_id w) = Ok 0%Z /\
    world_of (get_total_size (S fuel) parent_id w) = set_faults rest w /\
    exchanges (trace_of (get_total_size (S fuel) parent_id w)) = 1%nat.
Proof.
  intros fuel pid w s rest Hf.
  cbn [get_total_size get_total_files]. unfold bind.
  rewrite (list_sources_fault (Some pid) None w s rest Hf).
  repeat split.
Qed.

Lemma totals_of_failed_listing_witness :
  result_of (get_total_size 3 "R" (two_failures scenario)) = Ok 0%Z /\
  result_of (get_total_files 3 "R" (two_failures scenario)) = Ok 0%Z /\
  world_of (get_total_size 3 "R" (two_failures scenario))
  = set_faults [Some 429%Z] (two_failures scenario) /\
  exchanges (trace_of (get_total_size 3 "R" (two_failures scenario))) = 1%nat.
Proof.
  apply (totals_of_failed_listing 2 "R" (two_failures scenario) 503%Z [Some 429%Z]).
  reflexivity.
Defined.

(** ** [handle_http_error_with_exponential_backoff] *)

Lemma backoff_attempts_recovers : forall sts n i fid w rest,
  faults w = map Some sts ++ rest ->
  (rest = [] \/ exists rest', rest = None :: rest') ->
  Forall (fun s => is_rate_limit s = true) sts ->
  find_node fid (remote w) <> None ->
  (List.length sts < n)%nat ->
  exists w',
    backoff_attempts (seq i n) (files_delete fid) w
    = (Ok (Some tt), w', failed_deletes fid i sts ++ [EvDelete fid None]) /\
    find_node fid (remote w') = None.
Proof.
  induction sts as [|s sts IH]; intros n i fid w rest Hf Hrest Hall Hn Hlen.
  - destruct n as [|n]; [cbn in Hlen; lia|].
    cbn [seq backoff_attempts]. unfold bind at 1. unfold try_except.
    unfold bind at 1.
    destruct (files_delete_ok fid w) as (w' & Hd & Hgone & _); [|exact Hn|].
    { cbn in Hf. destruct Hrest as [-> | [rest' ->]]; eauto. }
    rewrite Hd. cbn. eauto.
  - destruct n as [|n]; [cbn in Hlen; lia|].
    inversion Hall as [|? ? Hs Hall']; subst.
    cbn [seq backoff_attempts]. unfold bind at 1. unfold try_except.
    unfold bind at 1. unfold files_delete at 1. unfold bind at 1.
    unfold next_fault at 1.
    rewrite Hf. cbn [map app]. cbn [emit raise bind]. cbn [app]. rewrite Hs.
    cbn [log emit sleep bind ret app].
    destruct (IH n (S i) fid (set_faults (map Some sts ++ rest) w) rest
                eq_refl Hrest Hall' Hn) as (w' & Hrun & Hgone).
    { cbn in Hlen. lia. }
    rewrite Hrun. exists w'. split; [reflexivity | exact Hgone].
Qed.

(** X7.  The wrapper around a deletion: after fewer than [max_retry]
    rate-limit answers, with sleeps of [2^0, 2^1, ...] seconds, the call
    that Drive accepts goes through; the wrapper returns its value and the
    node is gone. *)
Theorem wrapper_recovers :
  forall sts max_retry fid w,
    faults w = map Some sts ->
    Forall (fun s => is_rate_limit s = true) sts ->
    find_node fid (remote w) <> None ->
    (List.length sts < max_retry)%nat ->
    exists w',
      handle_http_error_with_exponential_backoff max_retry (files_delete fid) w
      = (Ok (Some tt), w', failed_deletes fid 0 sts ++ [EvDelete fid None]) /\
      find_node fid (remote w') = None /\
      sleeps (failed_deletes fid 0 sts) = map backoff (seq 0 (List.length sts)).
Proof.
  intros sts n fid w Hf Hall Hn Hlen.
  destruct (backoff_attempts_recovers sts n 0%nat fid w [])
    as (w' & Hrun & Hgone); auto.
  { now rewrite app_nil_r. }
  exists w'. split; [exact Hrun|]. split; [exact Hgone|].
  clear. generalize 0%nat. induction sts as [|s sts IH]; intros i; [reflexivity|].
  cbn [failed_deletes sleeps List.length seq map]. now rewrite IH.
Qed.

Lemma wrapper_recovers_witness :
  exists w',
    handle_http_error_with_exponential_backoff 5 (files_delete "a")
      (two_failures single)
    = (Ok (Some tt), w', failed_deletes "a" 0 [503; 429]%Z ++ [EvDelete "a" None]) /\
    find_node "a" (remote w') = None /\
    sleeps (failed_deletes "a" 0 [503; 429]%Z) = map backoff (seq 0 2).
Proof.
  apply (wrapper_recovers [503; 429]%Z 5 "a" (two_failures single)).
  - reflexivity.
  - repeat constructor.
  - discriminate.
  - cbn. lia.
Defined.

Lemma backoff_attempts_raises A (func : M A) : forall attempts w e,
  result_of (backoff_attempts attempts func w) = Raise e ->
  local_failure e = false.
Proof.
  induction attempts as [|i rest IH]; intros w e; [discriminate|].
  cbn [backoff_attempts]. unfold bind at 1. unfold try_except. unfold bind at 1.
  destruct (func w) as [[[a|e1|] w1] ev1]; cbn [ret app].
  - cbn. discriminate.
  - destruct e1 as [s| | |].
    + destruct (is_rate_limit s).
      * cbn [log emit sleep bind ret app]. specialize (IH w1 e).
        destruct (backoff_attempts rest func w1) as [[r2 w2] e2]. exact IH.
      * cbn. intros H. now injection H as <-.
    + cbn [log emit bind ret app]. specialize (IH w1 e).
      destruct (backoff_attempts rest func w1) as [[r2 w2] e2]. exact IH.
    + cbn [log emit bind ret app]. specialize (IH w1 e).
      destruct (backoff_attempts rest func w1) as [[r2 w2] e2]. exact IH.
    + cbn [log emit bind ret app]. specialize (IH w1 e).
      destruct (backoff_attempts rest func w1) as [[r2 w2] e2]. exact IH.
  - cbn. discriminate.
Qed.

Lemma backoff_attempts_unexpected A (func : M A) (H : always_unexpected func) :
  forall attempts w, exists w' evs,
    backoff_attempts attempts func w = (Ok None, w', evs ++ [EvLog ERROR MsgExceeded]) /\
    exchanges evs = List.length attempts /\
    sleeps evs = [].
Proof.
  induction attempts as [|i rest IH]; intros w.
  - exists w, []. repeat split.
  - destruct (H w) as (e & w1 & e1 & Hf & He & Hx & Hsl).
    destruct (IH w1) as (w2 & e2 & Hrest & Hx2 & Hsl2).
    exists w2, ((e1 ++ [EvLog ERROR (MsgUnexpected e)]) ++ e2).
    repeat split.
    + cbn [backoff_attempts]. unfold bind at 1. unfold try_except, bind at 1.
      rewrite Hf. destruct e; [discriminate He| | |];
        cbn [log emit bind ret app]; rewrite Hrest; now rewrite <- !app_assoc.
    + rewrite !exchanges_app, Hx, Hx2. reflexivity.
    + rewrite !sleeps_app, Hsl, Hsl2. reflexivity.
Qed.

(** X8.  No exception but an HttpError ever leaves the wrapper: any other
    exception of the wrapped function is logged and the next attempt is
    made at once.  A function that fails that way on every call is called
    [max_retry] times with no sleep in between, and the wrapper returns
    [None]. *)
Theorem wrapper_swallows_unexpected :
  forall A (func : M A) max_retry,
    (forall w e,
       result_of (handle_http_error_with_exponential_backoff max_retry func w)
       = Raise e -> local_failure e = false) /\
    (always_unexpected func ->
     forall w, exists w' evs,
       handle_http_error_with_exponential_backoff max_retry func w
       = (Ok None, w', evs ++ [EvLog ERROR MsgExceeded]) /\
       exchanges evs = max_retry /\
       sleeps evs = []).
Proof.
  intros A func n. split.
  - intros w e. apply backoff_attempts_raises.
  - intros H w. unfold handle_http_error_with_exponential_backoff.
    destruct (backoff_attempts_unexpected A func H (seq 0 n) w)
      as (w' & evs & Hrun & Hx & Hs).
    exists w', evs. now rewrite length_seq in Hx.
Qed.

Lemma wrapper_swallows_unexpected_witness :
  exists w' evs,
    handle_http_error_with_exponential_backoff 5 broken_endpoint single
    = (Ok None, w', evs ++ [EvLog ERROR MsgExceeded]) /\
    exchanges evs = 5%nat /\
    sleeps evs = [].
Proof.
  apply (proj2 (wrapper_swallows_unexpected unit broken_endpoint 5)).
  intros w. exists OSError, w, [EvDelete "x" None]. repeat split.
Defined.

(** ** [get_destination] *)

Lemma set_stdin_same w : set_stdin (stdin w) w = w.
Proof. now destruct w. Qed.

Lemma get_destination_accepts : forall bad good rest attempts w,
  stdin w = bad ++ good :: rest ->
  Forall (not_a_directory (local w)) bad ->
  fs_is_dir (Path good) (local w) = true ->
  (List.length bad < attempts)%nat ->
  get_destination attempts w
  = (Ok (Path good), set_stdin rest w, rejected bad ++ [EvInput]).
Proof.
  induction bad as [|b bad IH]; intros good rest attempts w Hin Hbad Hgood Hlen;
    (destruct attempts as [|attempts]; [cbn in Hlen; lia|]);
    cbn [get_destination]; unfold bind at 1; unfold input at 1; rewrite Hin;
    cbn [app]; unfold bind at 1; unfold is_dir at 1; cbn [local set_stdin].
  - rewrite Hgood. reflexivity.
  - inversion Hbad as [|? ? Hb Hbad']; subst. unfold not_a_directory in Hb.
    rewrite Hb. cbn [log emit bind app].
    rewrite (IH good rest attempts (set_stdin (bad ++ good :: rest) w)
               eq_refl Hbad' Hgood ltac:(cbn in Hlen; lia)).
    reflexivity.
Qed.

Lemma get_destination_gives_up : forall bad rest w,
  stdin w = bad ++ rest ->
  Forall (not_a_directory (local w)) bad ->
  get_destination (List.length bad) w
  = (Raise ValueError, set_stdin rest w, rejected bad).
Proof.
  induction bad as [|b bad IH]; intros rest w Hin Hbad.
  - cbn in Hin |- *. unfold raise. rewrite <- Hin. now rewrite set_stdin_same.
  - cbn [List.length get_destination]. unfold bind at 1. unfold input at 1.
    rewrite Hin. cbn [app]. unfold bind at 1. unfold is_dir at 1.
    cbn [local set_stdin].
    inversion Hbad as [|? ? Hb Hbad']; subst. unfold not_a_directory in Hb.
    rewrite Hb. cbn [log emit bind app].
    rewrite (IH rest (set_stdin (bad ++ rest) w) eq_refl Hbad'). reflexivity.
Qed.

Lemma get_destination_eof : forall bad attempts w,
  stdin w = bad ->
  Forall (not_a_directory (local w)) bad ->
  (List.length bad < attempts)%nat ->
  get_destination attempts w
  = (Raise EOFError, set_stdin [] w, rejected bad ++ [EvInput]).
Proof.
  induction bad as [|b bad IH]; intros attempts w Hin Hbad Hlen;
    (destruct attempts as [|attempts]; [cbn in Hlen; lia|]);
    cbn [get_destination]; unfold bind at 1; unfold input at 1; rewrite Hin.
  - cbn. rewrite <- Hin. now rewrite set_stdin_same.
  - unfold bind at 1. unfold is_dir at 1. cbn [local set_stdin].
    inversion Hbad as [|? ? Hb Hbad']; subst. unfold not_a_directory in Hb.
    rewrite Hb. cbn [log emit bind app].
    rewrite (IH attempts (set_stdin bad w) eq_refl Hbad' ltac:(cbn in Hlen; lia)).
    reflexivity.
Qed.

(** X9.  [get_destination] returns the first line that names an existing
    directory, if it is among the first [attempts] lines, having logged an
    error for each line before it and read no line after it.  When the first
    [attempts] lines name no directory it raises a ValueError after reading
    exactly these; when the input ends before that, the EOFError of [input]
    comes out. *)
Theorem get_destination_first_directory :
  forall attempts w,
    (forall bad good rest,
       stdin w = bad ++ good :: rest ->
       Forall (not_a_directory (local w)) bad ->
       fs_is_dir (Path good) (local w) = true ->
       (List.length bad < attempts)%nat ->
       get_destination attempts w
       = (Ok (Path good), set_stdin rest w, rejected bad ++ [EvInput])) /\
    (forall bad rest,
       stdin w = bad ++ rest ->
       Forall (not_a_directory (local w)) bad ->
       List.length bad = attempts ->
       get_destination attempts w
       = (Raise ValueError, set_stdin rest w, rejected bad)) /\
    (Forall (not_a_directory (local w)) (stdin w) ->
     (List.length (stdin w) < attempts)%nat ->
     get_destination attempts w
     = (Raise EOFError, set_stdin [] w, rejected (stdin w) ++ [EvInput])).
Proof.
  intros attempts w. split; [|split].
  - intros. now apply get_destination_accepts.
  - intros bad rest Hin Hbad <-. now apply get_destination_gives_up.
  - intros. now apply get_destination_eof.
Qed.

Lemma get_destination_first_directory_witness :
  let w := set_stdin ["nowhere"; "dl/"; "later"] single in
  get_destination 3 w = (Ok ["dl"], set_stdin ["later"] w, rejected ["nowhere"] ++ [EvInput]) /\
  get_destination 1 w = (Raise ValueError, set_stdin ["dl/"; "later"] w, rejected ["nowhere"]) /\
  get_destination 3 (set_stdin ["nowhere"; "void"] single)
  = (Raise EOFError, set_stdin [] (set_stdin ["nowhere"; "void"] single),
     rejected ["nowhere"; "void"] ++ [EvInput]).
Proof.
  cbv zeta. split; [|split].
  - apply (proj1 (get_destination_first_directory 3
                    (set_stdin ["nowhere"; "dl/"; "later"] single))
             ["nowhere"] "dl/" ["later"]).
    + reflexivity.
    + repeat constructor.
    + reflexivity.
    + cbn. lia.
  - apply (proj1 (proj2 (get_destination_first_directory 1
                           (set_stdin ["nowhere"; "dl/"; "later"] single)))
             ["nowhere"] ["dl/"; "later"]).
    + reflexivity.
    + repeat constructor.
    + reflexivity.
  - apply (proj2 (proj2 (get_destination_first_directory 3
                           (set_stdin ["nowhere"; "void"] single)))).
    + repeat constructor.
    + cbn. lia.
Defined.

(** ** Paths *)

Lemma string_app_nil_r : forall s, (s ++ "")%string = s.
Proof. induction s as [|c s IH]; cbn; [reflexivity | now rewrite IH]. Qed.

Lemma string_app_char : forall a c s,
  ((a ++ String c "") ++ s)%string = (a ++ String c s)%string.
Proof. induction a as [|x a IH]; intros c s; cbn; [reflexivity | now rewrite IH]. Qed.

Lemma split_path_no_slash : forall s cur,
  forallb (fun c => negb (Ascii.eqb c "/"%char)) (list_ascii_of_string s) = true ->
  split_path s cur = component (cur ++ s)%string.
Proof.
  induction s as [|c s IH]; intros cur H; cbn [split_path].
  - now rewrite string_app_nil_r.
  - cbn [list_ascii_of_string forallb] in H. apply andb_prop in H.
    destruct H as [Hc Hs]. apply negb_true_iff in Hc. rewrite Hc.
    rewrite (IH _ Hs). now rewrite string_app_char.
Qed.

(** A plain name is one component, and [dest / name] appends it. *)
Lemma joinpath_plain dest nm : plain_name nm = true -> joinpath dest nm = dest ++ [nm].
Proof.
  unfold plain_name. intros H. apply andb_prop in H. destruct H as [H Hs].
  apply andb_prop in H. destruct H as [H _]. apply andb_prop in H.
  destruct H as [He Hd]. apply negb_true_iff in He. apply negb_true_iff in Hd.
  unfold joinpath, anchor.
  assert (Hl : leading_slashes nm = 0%nat).
  { destruct nm as [|c nm]; [reflexivity|]. cbn [list_ascii_of_string forallb] in Hs.
    apply andb_prop in Hs. destruct Hs as [Hc _]. apply negb_true_iff in Hc.
    cbn [leading_slashes]. now rewrite Hc. }
  rewrite Hl, (split_path_no_slash nm "" Hs). cbn [append]. unfold component.
  now rewrite He, Hd.
Qed.

Lemma plain_name_no_anchor nm : plain_name nm = true -> is_anchor nm = false.
Proof.
  intros H. unfold is_anchor.
  destruct (String.eqb_spec nm "/") as [-> | _]; [discriminate H|].
  destruct (String.eqb_spec nm "//") as [-> | _]; [discriminate H | reflexivity].
Qed.

Lemma has_name_child dest nm :
  nm <> "" -> is_anchor nm = false -> has_name (dest ++ [nm]) = true.
Proof.
  intros Hn Ha. unfold has_name. rewrite rev_app_distr. cbn [rev app].
  apply String.eqb_neq in Hn. now rewrite Hn, Ha.
Qed.

Lemma has_name_plain dest nm :
  plain_name nm = true -> has_name (joinpath dest nm) = true.
Proof.
  intros H. rewrite (joinpath_plain dest nm H). apply has_name_child.
  - intros ->. discriminate H.
  - now apply plain_name_no_anchor.
Qed.

Lemma has_name_nonempty p : has_name p = true -> p <> [].
Proof. intros H ->. discriminate H. Qed.

(** ** [download_file]: a transfer that goes through *)

(** Lines 144-161 return the request and the destination, or raise the
    ValueError of [with_suffix]. *)
Lemma select_request_cases it dest w :
  select_request it (joinpath dest (name it)) w
  = (Ok (request_of it, destination_of it dest), w, []) \/
  select_request it (joinpath dest (name it)) w = (Raise ValueError, w, []).
Proof.
  unfold select_request, request_of, destination_of, export_of, with_suffix.
  destruct (rev (joinpath dest (name it))) as [|nm rest].
  - destruct (mimeType it =? document_mime)%string; [now right|].
    destruct (mimeType it =? spreadsheet_mime)%string; [now right|].
    destruct (mimeType it =? presentation_mime)%string; [now right | now left].
  - destruct ((nm =? "")%string || is_anchor nm).
    + destruct (mimeType it =? document_mime)%string; [now right|].
      destruct (mimeType it =? spreadsheet_mime)%string; [now right|].
      destruct (mimeType it =? presentation_mime)%string; [now right | now left].
    + destruct (mimeType it =? document_mime)%string; [now left|].
      destruct (mimeType it =? spreadsheet_mime)%string; [now left|].
      destruct (mimeType it =? presentation_mime)%string; now left.
Qed.

Lemma select_request_ok it dest w :
  has_name (joinpath dest (name it)) = true ->
  select_request it (joinpath dest (name it)) w
  = (Ok (request_of it, destination_of it dest), w, []).
Proof.
  intros H. unfold has_name in H.
  unfold select_request, request_of, destination_of, export_of, with_suffix.
  destruct (rev (joinpath dest (name it))) as [|nm rest]; [discriminate|].
  apply negb_true_iff in H. rewrite H.
  destruct (mimeType it =? document_mime)%string; [reflexivity|].
  destruct (mimeType it =? spreadsheet_mime)%string; [reflexivity|].
  destruct (mimeType it =? presentation_mime)%string; reflexivity.
Qed.

Lemma make_dirs_makes_dirs : forall ps fs fs' p,
  make_dirs ps fs = Some fs' -> In p ps -> fs_lookup p fs' = Some Dir.
Proof.
  induction ps as [|q ps IH]; intros fs fs' p Hmk Hin; [contradiction|].
  cbn [make_dirs] in Hmk.
  destruct (fs_lookup q fs) as [[|d]|] eqn:Hq; try discriminate.
  - destruct Hin as [-> | Hin]; [|now apply (IH fs)].
    exact (make_dirs_keeps ps fs fs' p Dir Hmk Hq).
  - destruct Hin as [-> | Hin]; [|now apply (IH (fs_set q Dir fs))].
    apply (make_dirs_keeps ps (fs_set p Dir fs) fs' p Dir Hmk).
    apply fs_lookup_set_same.
Qed.

Lemma prefixes_self : forall p, p <> [] -> In p (prefixes p).
Proof.
  induction p as [|c p IH]; intros Hp; [congruence|].
  cbn [prefixes]. destruct p as [|c' p]; [now left|].
  right. apply in_map. apply IH. discriminate.
Qed.

(** After [mkdir] the path is a directory. *)
Lemma make_dirs_is_dir p fs fs' :
  make_dirs (prefixes p) fs = Some fs' -> fs_is_dir p fs' = true.
Proof.
  intros Hmk. destruct p as [|c p]; [reflexivity|].
  unfold fs_is_dir.
  rewrite (make_dirs_makes_dirs _ _ _ (c :: p) Hmk); [reflexivity|].
  apply prefixes_self. discriminate.
Qed.

Lemma writes_app a b : writes (a ++ b) = writes a ++ writes b.
Proof. apply filter_app. Qed.

Lemma already_there_not md5 it p w :
  not_there md5 it p (local w) -> p <> [] ->
  exists evs,
    already_there md5 it p w = (Ok false, w, evs) /\ writes evs = [] /\
    transfers evs = [] /\ reports evs = [] /\ sleeps evs = [].
Proof.
  intros Hnot Hp. unfold already_there. unfold bind at 1. unfold path_exists.
  unfold fs_exists. destruct p as [|c p]; [congruence|].
  destruct Hnot as [Hnone | (data & Hfile & Hmd5)].
  - rewrite Hnone. exists []. repeat split.
  - rewrite Hfile. unfold bind at 1. unfold read_file. rewrite Hfile.
    assert (Hne : opt_string_eqb (Some (md5 data)) (md5Checksum it) = false).
    { destruct (md5Checksum it) as [x|]; [|reflexivity]. cbn.
      apply String.eqb_neq. congruence. }
    rewrite Hne. eexists. repeat split.
Qed.

Lemma body_of_found exported req store body :
  body_of exported req store = Some body -> find_node (fileId req) store <> None.
Proof.
  unfold body_of. destruct (find_node (fileId req) store); [discriminate | discriminate].
Qed.

(** The destination of an item with a plain name is in the folder. *)
Lemma destination_of_child it dest :
  plain_name (name it) = true ->
  exists nm, destination_of it dest = dest ++ [nm].
Proof.
  intros H. unfold destination_of. rewrite (joinpath_plain dest (name it) H).
  rewrite rev_app_distr. cbn [rev app]. rewrite rev_involutive.
  destruct (export_of it) as [[target suffix]|]; eauto.
Qed.

Lemma delete_source_ok it w :
  faults w = [] -> find_node (id it) (remote w) <> None ->
  delete_source it w
  = (Ok tt,
     set_remote (delete_tree (S (List.length (remote w))) [id it] (remote w)) w,
     [EvDelete (id it) None; EvLog DEBUG (MsgFileDeleted (name it))]).
Proof.
  intros Hf Hn. unfold delete_source, try_except. unfold bind at 1.
  unfold files_delete. unfold bind at 1. unfold next_fault. rewrite Hf.
  unfold bind at 1. cbn [get_world]. unfold find_node in Hn.
  unfold find_node. destruct (find _ (remote w)); [|congruence].
  reflexivity.
Qed.

(** A transfer that goes through, with the world it leaves. *)
Lemma download_file_run md5 exported it dest pbar max_retry w sts body fs :
  has_name (joinpath dest (name it)) = true ->
  faults w = map Some sts ->
  Forall (fun s => is_rate_limit s = true) sts ->
  (List.length sts < max_retry)%nat ->
  body_of exported (request_of it) (remote w) = Some body ->
  make_dirs (prefixes dest) (local w) = Some fs ->
  not_there md5 it (joinpath dest (name it)) fs ->
  fs_is_dir (removelast (destination_of it dest)) fs = true ->
  fs_is_dir (destination_of it dest) fs = false ->
  exists w' evs,
    download_file md5 exported it dest pbar max_retry w = (Ok tt, w', evs) /\
    local w' = fs_set (destination_of it dest) (File body) fs /\
    remote w' = delete_tree (S (List.length (remote w))) [id it] (remote w) /\
    faults w' = [] /\
    writes evs = [EvWrite (destination_of it dest) body] /\
    sleeps evs = map backoff (seq 0 (List.length sts)).
Proof.
  intros Hnm Hf Hall Hlen Hb Hfs Hnot Hparent Hdir.
  set (w1 := set_local fs w).
  destruct (already_there_not md5 it (joinpath dest (name it)) w1 Hnot
              (has_name_nonempty _ Hnm))
    as (ev1 & Hrun1 & Hw1 & _ & _ & Hs1).
  destruct (fetch_retry_recovers exported (request_of it) pbar body sts max_retry
              0%nat new_downloader w1 Hf Hall Hb eq_refl (Nat.le_0_l _) Hlen)
    as (dl & w2 & ev2 & Hrun2 & Hfh & _ & Hsl & _ & Hr2 & Hf2 & Hl2 & Hw2).
  cbn [new_downloader fh progress app skipn] in Hfh.
  assert (Hwr : fs_is_dir (removelast (destination_of it dest)) (local w2)
                && negb (fs_is_dir (destination_of it dest) (local w2)) = true).
  { rewrite Hl2. cbn [w1 local set_local]. now rewrite Hparent, Hdir. }
  set (w3 := set_local (fs_set (destination_of it dest) (File body) (local w2)) w2).
  assert (Hrun4 := delete_source_ok it w3 Hf2).
  cbn [w3 remote set_local] in Hrun4. rewrite Hr2 in Hrun4.
  cbn [w1 remote set_local] in Hrun4.
  specialize (Hrun4 (body_of_found exported (request_of it) (remote w) body Hb)).
  fold w3 in Hrun4.
  unfold download_file. unfold bind at 1. cbn [emit]. unfold bind at 1.
  cbn [log emit]. unfold try_except. unfold bind at 1. unfold mkdir. rewrite Hfs.
  fold w1. unfold bind at 1. rewrite Hrun1. unfold bind at 1. cbn [log emit].
  unfold bind at 1. rewrite (select_request_ok it dest w1 Hnm). cbn [fst snd].
  unfold bind at 1. rewrite Hrun2. unfold bind at 1. cbn [log emit].
  unfold bind at 1. unfold write_file. rewrite Hwr, Hfh. fold w3.
  unfold bind at 1. cbn [log emit]. rewrite Hrun4.
  do 2 eexists. split; [reflexivity|].
  split; [cbn [w3 local set_remote set_local]; now rewrite Hl2|].
  split; [reflexivity|].
  split; [exact Hf2|].
  split.
  - rewrite !writes_app, Hw1, Hw2. reflexivity.
  - rewrite !sleeps_app, Hs1, Hsl. cbn [sleeps app]. now rewrite app_nil_r.
Qed.



(** An item named with a separator goes to a sub-directory of the
    destination; when that does not exist, the content is fetched, the
    [open] fails, and the error leaves [download_file]: nothing is written
    and nothing is deleted. *)
Example name_with_separator :
  let it := item_of_node (file_node "r" "2023/report.bin" "data" "R") in
  let w := world_of_store [folder_node "R" "root" []; file_node "r" "2023/report.bin" "data" "R"]
                          [(["dl"], Dir)] in
  let x := download_file plain_digest plain_export it ["dl"] 0 5 w in
  destination_of it ["dl"] = ["dl"; "2023"; "report.bin"] /\
  result_of x = Raise OSError /\
  transfers (trace_of x) = [EvChunk "r" (inr 4%nat)] /\
  local (world_of x) = local w /\ remote (world_of x) = remote w.
Proof. vm_compute. repeat split. Qed.

(** ** What the job never does *)

(** A relation between the world before and after that the operations on
    the world keep is kept by every function of the program. *)
Create HintDb inv discriminated.

Section Invariant.

Variable R : world -> world -> Prop.
Hypothesis R_refl : forall w, R w w.
Hypothesis R_trans : forall w1 w2 w3, R w1 w2 -> R w2 w3 -> R w1 w3.
Hypothesis R_next_fault : preserves R next_fault.
Hypothesis R_files_delete : forall fid, preserves R (files_delete fid).
Hypothesis R_mkdir : forall p, preserves R (mkdir p).
Hypothesis R_write_file : forall p d, preserves R (write_file p d).
Hypothesis R_tqdm : forall total, preserves R (tqdm total).
Hypothesis R_pbar_update : forall h n, preserves R (pbar_update h n).
Hypothesis R_input : preserves R input.

Lemma inv_same A (m : M A) : (forall w, world_of (m w) = w) -> preserves R m.
Proof. intros H w. rewrite H. apply R_refl. Qed.

Lemma inv_emit e : preserves R (emit e).
Proof. now apply inv_same. Qed.

Lemma inv_log l m : preserves R (log l m).
Proof. now apply inv_same. Qed.

Lemma inv_sleep s : preserves R (sleep s).
Proof. now apply inv_same. Qed.

Lemma inv_raise A e : preserves R (@raise A e).
Proof. now apply inv_same. Qed.

Lemma inv_out_of_fuel A : preserves R (@out_of_fuel A).
Proof. now apply inv_same. Qed.

Lemma inv_get_world : preserves R get_world.
Proof. now apply inv_same. Qed.

Lemma inv_path_exists p : preserves R (path_exists p).
Proof. now apply inv_same. Qed.

Lemma inv_is_dir p : preserves R (is_dir p).
Proof. now apply inv_same. Qed.

Lemma inv_read_file p : preserves R (read_file p).
Proof.
  apply inv_same. intros w. unfold read_file.
  now destruct (fs_lookup p (local w)) as [[|d]|].
Qed.

Hint Resolve inv_emit inv_log inv_sleep inv_raise inv_out_of_fuel inv_get_world
  inv_path_exists inv_is_dir inv_read_file R_next_fault R_files_delete R_mkdir
  R_write_file R_tqdm R_pbar_update R_input : inv.

Ltac inv := compose_with (preserves_bind R R_trans)
                         (preserves_try_except R R_trans)
                         (preserves_ret R R_refl)
                         ltac:(solve [eauto with inv]).

Lemma inv_files_list q n tok : preserves R (files_list q n tok).
Proof. unfold files_list. inv. Qed.

Hint Resolve inv_files_list : inv.

Lemma inv_list_pages : forall fuel q rk tok acc,
  preserves R (list_pages fuel q rk tok acc).
Proof. induction fuel as [|fuel IH]; intros; cbn [list_pages]; inv. Qed.

Hint Resolve inv_list_pages : inv.

Lemma inv_list_sources p rk : preserves R (list_sources p rk).
Proof. unfold list_sources. inv. Qed.

Hint Resolve inv_list_sources : inv.

Lemma inv_get_total_size : forall fuel parent_id,
  preserves R (get_total_size fuel parent_id).
Proof.
  induction fuel as [|fuel IH]; intros; cbn [get_total_size]; inv.
  apply (preserves_fold_each R R_refl R_trans). inv.
Qed.

Lemma inv_with_suffix p s : preserves R (with_suffix p s).
Proof. unfold with_suffix. inv. Qed.

Hint Resolve inv_get_total_size inv_with_suffix : inv.

Lemma inv_next_chunk exported req dl : preserves R (next_chunk exported req dl).
Proof. unfold next_chunk. inv. Qed.

Hint Resolve inv_next_chunk : inv.

Lemma inv_read_chunks exported : forall fuel req pbar dl,
  preserves R (read_chunks exported fuel req pbar dl).
Proof. induction fuel as [|fuel IH]; intros; cbn [read_chunks]; inv. Qed.

Hint Resolve inv_read_chunks : inv.

Lemma inv_fetch_retry exported : forall attempts req pbar dl,
  preserves R (fetch_retry exported attempts req pbar dl).
Proof. induction attempts as [|i rest IH]; intros; cbn [fetch_retry]; inv. Qed.

Lemma inv_already_there md5 it p : preserves R (already_there md5 it p).
Proof. unfold already_there. inv. Qed.

Lemma inv_select_request it p : preserves R (select_request it p).
Proof. unfold select_request. inv. Qed.

Lemma inv_delete_source it : preserves R (delete_source it).
Proof. unfold delete_source. inv. Qed.

Hint Resolve inv_fetch_retry inv_already_there inv_select_request
  inv_delete_source : inv.

Lemma inv_download_file md5 exported it dest pbar n :
  preserves R (download_file md5 exported it dest pbar n).
Proof. unfold download_file. inv. Qed.

Lemma inv_delete_retry : forall attempts fid, preserves R (delete_retry attempts fid).
Proof. induction attempts as [|i rest IH]; intros; cbn [delete_retry]; inv. Qed.

Hint Resolve inv_download_file inv_delete_retry : inv.

Lemma inv_delete_empty_folders : forall fuel fid n,
  preserves R (delete_empty_folders fuel fid n).
Proof.
  induction fuel as [|fuel IH]; intros; cbn [delete_empty_folders]; inv.
  apply (preserves_for_each R R_refl R_trans). inv.
Qed.

Hint Resolve inv_delete_empty_folders : inv.

Lemma inv_download_files md5 exported : forall fuel src dest is_root,
  preserves R (download_files md5 exported fuel src dest is_root).
Proof.
  induction fuel as [|fuel IH]; intros; cbn [download_files]; inv;
    apply (preserves_for_each R R_refl R_trans); inv.
Qed.

Lemma inv_get_destination : forall attempts, preserves R (get_destination attempts).
Proof. induction attempts as [|n IH]; cbn [get_destination]; inv. Qed.

Hint Resolve inv_download_files inv_get_destination : inv.

Lemma inv_main md5 exported fuel : preserves R (main md5 exported fuel).
Proof. unfold main. inv. Qed.

End Invariant.

Lemma only_removes_trans w1 w2 w3 :
  only_removes w1 w2 -> only_removes w2 w3 -> only_removes w1 w3.
Proof. unfold only_removes. intros H1 H2. eapply incl_tran; eassumption. Qed.

Lemma only_removes_same A (m : M A) :
  (forall w, remote (world_of (m w)) = remote w) -> preserves only_removes m.
Proof. intros H w. unfold only_removes. rewrite H. apply incl_refl. Qed.

Lemma only_removes_files_delete fid : preserves only_removes (files_delete fid).
Proof.
  intros w. destruct (files_delete_cases fid w) as (w' & Hincl & _ & _ & [H | [s H]]);
    rewrite H; exact Hincl.
Qed.

Lemma keeps_local_paths_refl w : keeps_local_paths w w.
Proof. intros p. split; eauto. Qed.

Lemma keeps_local_paths_trans w1 w2 w3 :
  keeps_local_paths w1 w2 -> keeps_local_paths w2 w3 -> keeps_local_paths w1 w3.
Proof.
  intros H1 H2 p. destruct (H1 p) as [Hd1 Hf1]. destruct (H2 p) as [Hd2 Hf2].
  split; [auto|]. intros d Hd. destruct (Hf1 d Hd) as [d' Hd']. eauto.
Qed.

Lemma keeps_local_paths_same A (m : M A) :
  (forall w, local (world_of (m w)) = local w) -> preserves keeps_local_paths m.
Proof. intros H w. unfold keeps_local_paths. rewrite H. split; eauto. Qed.

Lemma keeps_local_paths_mkdir p : preserves keeps_local_paths (mkdir p).
Proof.
  intros w. unfold mkdir.
  destruct (make_dirs (prefixes p) (local w)) as [fs|] eqn:Hmk;
    [|apply keeps_local_paths_refl].
  intros q. cbn [world_of fst snd local set_local]. split.
  - unfold fs_is_dir. destruct q as [|c q]; [reflexivity|].
    destruct (fs_lookup (c :: q) (local w)) as [[|d]|] eqn:Hq; try discriminate.
    now rewrite (make_dirs_keeps _ _ _ _ _ Hmk Hq).
  - intros d Hd. exists d. exact (make_dirs_keeps _ _ _ _ _ Hmk Hd).
Qed.

Lemma keeps_local_paths_write_file p d : preserves keeps_local_paths (write_file p d).
Proof.
  intros w. unfold write_file.
  destruct (fs_is_dir (removelast p) (local w) && negb (fs_is_dir p (local w)))
    eqn:Hc; [|apply keeps_local_paths_refl].
  apply andb_prop in Hc. destruct Hc as [_ Hc]. apply negb_true_iff in Hc.
  intros q. cbn [world_of fst snd local set_local].
  destruct (list_eq_dec string_dec q p) as [-> | Hne].
  - split; [congruence|]. intros d0 _. exists d. apply fs_lookup_set_same.
  - unfold fs_is_dir. rewrite (fs_lookup_set_other _ _ _ _ Hne). split; eauto.
Qed.

(** X11.  Whatever Drive answers and whatever is typed, a run of the job
    only ever removes nodes from Drive (it never adds one), and it never
    removes a local path or changes its kind: directories stay directories,
    files stay files (their content may be overwritten). *)
Theorem job_only_removes_remote_and_keeps_local :
  forall md5 exported fuel w,
    let w' := world_of (main md5 exported fuel w) in
    only_removes w w' /\ keeps_local_paths w w'.
Proof.
  intros md5 exported fuel w. split.
  - apply (inv_main only_removes); try (intros; now apply only_removes_same).
    + intros w0. apply incl_refl.
    + exact only_removes_trans.
    + apply only_removes_same. intros w0. unfold next_fault.
      now destruct (faults w0) as [|[s|] rest].
    + exact only_removes_files_delete.
    + intros p. apply only_removes_same. intros w0. unfold mkdir.
      now destruct (make_dirs _ _).
    + intros p d. apply only_removes_same. intros w0. unfold write_file.
      now destruct (_ && _).
    + apply only_removes_same. intros w0. unfold input. now destruct (stdin w0).
  - apply (inv_main keeps_local_paths); try (intros; now apply keeps_local_paths_same).
    + exact keeps_local_paths_refl.
    + exact keeps_local_paths_trans.
    + apply keeps_local_paths_same. intros w0. unfold next_fault.
      now destruct (faults w0) as [|[s|] rest].
    + intros fid w0.
      destruct (files_delete_cases fid w0) as (w1 & _ & Hl & _ & [H | [s H]]);
        rewrite H; unfold keeps_local_paths; cbn [world_of fst snd]; rewrite Hl;
        split; eauto.
    + exact keeps_local_paths_mkdir.
    + exact keeps_local_paths_write_file.
    + apply keeps_local_paths_same. intros w0. unfold input. now destruct (stdin w0).
Qed.

(** ** [download_file] deletes what it has written *)

Lemma removals_app a b : removals (a ++ b) = removals a ++ removals b.
Proof. apply filter_app. Qed.

Lemma delete_source_cases it w :
  exists w' evs,
    delete_source it w = (Ok tt, w', evs) /\ local w' = local w /\
    writes evs = [] /\
    (removals evs = [] \/
     removals evs = [EvDelete (id it) None] /\
     find_node (id it) (remote w') = None).
Proof.
  unfold delete_source, try_except. unfold bind at 1.
  unfold files_delete, bind, next_fault. unfold find_node at 1.
  destruct (faults w) as [|[s|] rest] eqn:Hf; cbn -[delete_tree find_node].
  - destruct (find _ (remote w)); cbn -[delete_tree find_node].
    + do 2 eexists. split; [reflexivity|]. split; [reflexivity|].
      split; [reflexivity|]. right. split; [reflexivity | apply find_node_deleted].
    + do 2 eexists. split; [reflexivity|]. repeat split. now left.
  - do 2 eexists. split; [reflexivity|]. repeat split. now left.
  - destruct (find _ (remote w)); cbn -[delete_tree find_node].
    + do 2 eexists. split; [reflexivity|]. split; [reflexivity|].
      split; [reflexivity|]. right. split; [reflexivity | apply find_node_deleted].
    + do 2 eexists. split; [reflexivity|]. repeat split. now left.
Qed.

Lemma writes_already_there md5 it p : quiet writes (already_there md5 it p).
Proof. apply quiet_already_there; try reflexivity. apply writes_app. Qed.

Lemma removals_already_there md5 it p : quiet removals (already_there md5 it p).
Proof. apply quiet_already_there; try reflexivity. apply removals_app. Qed.

Lemma writes_fetch_retry exported attempts req pbar dl :
  quiet writes (fetch_retry exported attempts req pbar dl).
Proof. apply quiet_fetch_retry; try reflexivity. apply writes_app. Qed.

Lemma removals_fetch_retry exported attempts req pbar dl :
  quiet removals (fetch_retry exported attempts req pbar dl).
Proof. apply quiet_fetch_retry; try reflexivity. apply removals_app. Qed.

(** Closes a branch of a run whose trace holds no deletion. *)
Ltac no_removal H1 H2 :=
  let H := fresh in
  cbn [ret log emit];
  intros [= <- <- <-] H; exfalso; apply H;
  unfold removals in *;
  repeat (progress (cbn [filter app]; rewrite ?filter_app, ?H1, ?H2));
  reflexivity.

Lemma download_file_removal md5 exported it dest pbar max_retry w r w' evs :
  download_file md5 exported it dest pbar max_retry w = (r, w', evs) ->
  removals evs <> [] ->
  removals evs = [EvDelete (id it) None] /\
  r = Ok tt /\
  find_node (id it) (remote w') = None /\
  exists data,
    writes evs = [EvWrite (destination_of it dest) data] /\
    fs_lookup (destination_of it dest) (local w') = Some (File data).
Proof.
  unfold download_file. unfold bind at 1. cbn [emit]. unfold bind at 1.
  cbn [log emit]. unfold try_except. unfold bind at 1. unfold mkdir.
  destruct (make_dirs (prefixes dest) (local w)) as [fs|];
    [|intros [= <- <- <-] H; exfalso; apply H; reflexivity].
  unfold bind at 1.
  pose proof (writes_already_there md5 it (joinpath dest (name it)) (set_local fs w)) as Hw1.
  pose proof (removals_already_there md5 it (joinpath dest (name it)) (set_local fs w)) as Hr1.
  destruct (already_there md5 it (joinpath dest (name it)) (set_local fs w))
    as [[r1 w1] ev1].
  cbn [trace_of snd] in Hw1, Hr1.
  destruct r1 as [[|]|e|];
    [no_removal Hr1 Hr1| |destruct e; no_removal Hr1 Hr1|no_removal Hr1 Hr1].
  unfold bind at 1. cbn [log emit]. unfold bind at 1.
  destruct (select_request_cases it dest w1) as [Hsel | Hsel]; rewrite Hsel;
    [|no_removal Hr1 Hr1].
  cbn [fst snd]. unfold bind at 1.
  pose proof (writes_fetch_retry exported (seq 0 max_retry) (request_of it) pbar
                new_downloader w1) as Hw2.
  pose proof (removals_fetch_retry exported (seq 0 max_retry) (request_of it) pbar
                new_downloader w1) as Hr2.
  destruct (fetch_retry exported (seq 0 max_retry) (request_of it) pbar
              new_downloader w1) as [[r2 w2] ev2].
  cbn [trace_of snd] in Hw2, Hr2.
  destruct r2 as [dl|e|]; [|destruct e; no_removal Hr1 Hr2|no_removal Hr1 Hr2].
  unfold bind at 1. cbn [log emit]. unfold bind at 1. unfold write_file.
  destruct (fs_is_dir (removelast (destination_of it dest)) (local w2)
            && negb (fs_is_dir (destination_of it dest) (local w2)));
    [|no_removal Hr1 Hr2].
  unfold bind at 1. cbn [log emit].
  destruct (delete_source_cases it
              (set_local (fs_set (destination_of it dest) (File (fh dl)) (local w2)) w2))
    as (w4 & ev4 & Hrun4 & Hl4 & Hw4 & Hr4).
  rewrite Hrun4. intros [= <- <- <-].
  unfold removals, writes in *.
  repeat (progress (cbn [filter app];
                    rewrite ?filter_app, ?Hr1, ?Hr2, ?Hw1, ?Hw2, ?Hw4)).
  intros H. destruct Hr4 as [Hr4 | [Hr4 Hgone]]; [congruence|].
  split; [exact Hr4|]. split; [reflexivity|]. split; [exact Hgone|].
  exists (fh dl). split; [reflexivity|].
  rewrite Hl4. apply fs_lookup_set_same.
Qed.

(** X12.  [download_file] deletes on Drive nothing but its own item, at
    most once, and only after the local file was written: when a run
    contains a deletion that Drive carried out, it returned normally, the
    destination file holds the bytes that were written, and the item is
    gone from Drive. *)
Theorem download_file_deletes_what_it_wrote :
  forall md5 exported it dest pbar max_retry w,
    let x := download_file md5 exported it dest pbar max_retry w in
    removals (trace_of x) <> [] ->
    removals (trace_of x) = [EvDelete (id it) None] /\
    result_of x = Ok tt /\
    find_node (id it) (remote (world_of x)) = None /\
    exists data,
      writes (trace_of x) = [EvWrite (destination_of it dest) data] /\
      fs_lookup (destination_of it dest) (local (world_of x)) = Some (File data).
Proof.
  intros md5 exported it dest pbar max_retry w. cbv zeta.
  destruct (download_file md5 exported it dest pbar max_retry w) as [[r w'] evs]
    eqn:Hrun.
  exact (download_file_removal md5 exported it dest pbar max_retry w r w' evs Hrun).
Qed.

Lemma download_file_deletes_what_it_wrote_witness :
  let x := download_file plain_digest plain_export item_a ["dl"] 0 5 single in
  removals (trace_of x) = [EvDelete (id item_a) None] /\
  result_of x = Ok tt /\
  find_node (id item_a) (remote (world_of x)) = None /\
  exists data,
    writes (trace_of x) = [EvWrite (destination_of item_a ["dl"]) data] /\
    fs_lookup (destination_of item_a ["dl"]) (local (world_of x)) = Some (File data).
Proof.
  apply (download_file_deletes_what_it_wrote plain_digest plain_export item_a
           ["dl"] 0%nat 5%nat single).
  vm_compute. discriminate.
Defined.

(** ** [main]: nothing is touched without a confirmation *)

(** Computes the views of a trace made of known events and of the traces
    of calls whose views are known to be empty. *)
Ltac sift :=
  unfold transfers, writes, removals in *;
  repeat (progress (cbn [filter app]; rewrite ?filter_app;
                    repeat match goal with
                           | H : filter _ ?l = [] |- context [filter _ ?l] =>
                               rewrite H
                           end)).

Lemma transfers_list_sources p rk : quiet transfers (list_sources p rk).
Proof. apply quiet_list_sources; try reflexivity. apply transfers_app. Qed.

Lemma get_destination_cases : forall attempts w r w' evs,
  get_destination attempts w = (r, w', evs) ->
  r <> OutOfFuel /\ transfers evs = [] /\ writes evs = [] /\
  remote w' = remote w /\ local w' = local w /\ faults w' = faults w /\
  incl (stdin w') (stdin w).
Proof.
  induction attempts as [|n IH]; intros w r w' evs.
  - cbn. intros [= <- <- <-]. repeat split; try discriminate. apply incl_refl.
  - cbn [get_destination]. unfold bind at 1. unfold input.
    destruct (stdin w) as [|line rest] eqn:Hs.
    + intros [= <- <- <-]. repeat split; try discriminate. rewrite ?Hs. apply incl_refl.
    + unfold bind at 1. unfold is_dir. cbn [local set_stdin].
      destruct (fs_is_dir (Path line) (local w)).
      * cbn [ret]. intros [= <- <- <-]. repeat split; try discriminate.
        cbn [stdin set_stdin]. rewrite ?Hs. apply incl_tl, incl_refl.
      * unfold bind at 1. cbn [log emit].
        destruct (get_destination n (set_stdin rest w)) as [[r2 w2] ev2] eqn:Hrec.
        apply IH in Hrec.
        destruct Hrec as (Hr & Ht & Hw & Hrem & Hloc & Hf & Hin).
        intros [= <- <- <-]. rewrite ?Hs.
        repeat split; auto.
        intros x Hx. right. exact (Hin x Hx).
Qed.

Lemma no_transfer_unconfirmed md5 exported fuel w r w' evs :
  Forall (fun line => confirms line = false) (stdin w) ->
  main md5 exported fuel w = (r, w', evs) ->
  r = Ok tt /\ transfers evs = [] /\ writes evs = [] /\
  remote w' = remote w /\ local w' = local w.
Proof.
  intros Hno. unfold main, try_except. unfold bind at 1. unfold input at 1.
  destruct (stdin w) as [|folder_id rest] eqn:Hs;
    [intros [= <- <- <-]; repeat split|].
  unfold bind at 1. unfold input at 1. cbn [stdin set_stdin].
  destruct rest as [|resource_key rest]; [intros [= <- <- <-]; repeat split|].
  unfold bind at 1. cbn [log emit]. unfold bind at 1.
  set (w1 := set_stdin rest (set_stdin (resource_key :: rest) w)).
  destruct (list_sources_spec (Some folder_id) (Some resource_key) w1)
    as (items & w2 & ev1 & Hrun1 & (Hrem & _ & Hloc & _ & Hin)).
  pose proof (transfers_list_sources (Some folder_id) (Some resource_key) w1) as Ht1.
  assert (Hw1 : writes (trace_of (list_sources (Some folder_id) (Some resource_key) w1))
                = []).
  { apply quiet_list_sources; try reflexivity. apply writes_app. }
  rewrite Hrun1 in Ht1, Hw1 |- *. cbn [trace_of snd] in Ht1, Hw1.
  unfold bind at 1. cbn [log emit].
  destruct items as [|it items].
  { cbn [log emit]. intros [= <- <- <-]. sift. repeat split; assumption. }
  unfold bind at 1.
  destruct (get_destination 3 w2) as [[r2 w3] ev2] eqn:Hrun2.
  apply get_destination_cases in Hrun2.
  destruct Hrun2 as (Hr2 & Ht2 & Hw2 & Hrem2 & Hloc2 & _ & Hin2).
  assert (Hrem3 : remote w3 = remote w) by (rewrite Hrem2, Hrem; reflexivity).
  assert (Hloc3 : local w3 = local w) by (rewrite Hloc2, Hloc; reflexivity).
  destruct r2 as [dest|e|]; [| |congruence].
  - unfold bind at 1. unfold input at 1.
    destruct (stdin w3) as [|confirmation rest3] eqn:Hs3.
    + cbn [log emit bind]. intros [= <- <- <-].
      sift. repeat split; assumption.
    + assert (Hc : confirms confirmation = false).
      { rewrite Forall_forall in Hno. apply Hno. right. right.
        assert (Hi : In confirmation (stdin w1)).
        { rewrite <- Hin. apply Hin2. now left. }
        exact Hi. }
      unfold confirms in Hc. rewrite Hc. cbn [negb log emit].
      intros [= <- <- <-].
      sift. repeat split; assumption.
  - cbn [log emit bind]. intros [= <- <- <-].
    sift. repeat split; assumption.
Qed.

(** X13.  Nothing is fetched, written or deleted unless the user confirms:
    when no line of the input (lines of code points below 256) reads "yes"
    or "y" once lower-cased by [str.lower] and stripped by [str.strip],
    [main] returns without a chunk request, a deletion or a local write, and
    Drive and the local file system are as before. *)
Theorem no_transfer_without_confirmation :
  forall md5 exported fuel w,
    Forall (fun line => confirms line = false) (stdin w) ->
    let x := main md5 exported fuel w in
    result_of x = Ok tt /\ transfers (trace_of x) = [] /\ writes (trace_of x) = [] /\
    remote (world_of x) = remote w /\ local (world_of x) = local w.
Proof.
  intros md5 exported fuel w Hno. cbv zeta.
  destruct (main md5 exported fuel w) as [[r w'] evs] eqn:Hrun.
  exact (no_transfer_unconfirmed md5 exported fuel w r w' evs Hno Hrun).
Qed.

Lemma no_transfer_without_confirmation_witness :
  let x := main plain_digest plain_export 5 declined in
  result_of x = Ok tt /\ transfers (trace_of x) = [] /\ writes (trace_of x) = [] /\
  remote (world_of x) = remote declined /\ local (world_of x) = local declined.
Proof.
  apply (no_transfer_without_confirmation plain_digest plain_export 5%nat declined).
  repeat constructor.
Defined.

(** ** [main]: a root that cannot be listed *)

(** X14.  When Drive refuses the listing of the root, with any status,
    [main] logs the error, reports "No sources available" as for an empty
    folder and returns normally: it asks for neither the destination nor
    the confirmation, and performs no other exchange. *)
Theorem failed_root_listing_reads_as_no_sources :
  forall md5 exported fuel w folder_id resource_key rest s answers,
    stdin w = folder_id :: resource_key :: rest ->
    faults w = Some s :: answers ->
    main md5 exported fuel w
    = (Ok tt, set_faults answers (set_stdin rest w),
       [EvInput; EvInput; EvLog DEBUG (MsgGettingFiles folder_id);
        EvLog DEBUG MsgListing;
        EvList (list_query (Some folder_id)) None (inl s);
        EvLog ERROR (MsgErrorOccurred (HttpError s));
        EvLog DEBUG MsgGotAllFiles; EvLog INFO MsgNoSources]).
Proof.
  intros md5 exported fuel w folder_id resource_key rest s answers Hs Hf.
  unfold main, try_except. unfold bind at 1. unfold input at 1. rewrite Hs.
  unfold bind at 1. unfold input at 1. cbn [stdin set_stdin].
  unfold bind at 1. cbn [log emit]. unfold bind at 1.
  rewrite (list_sources_fault (Some folder_id) (Some resource_key)
             (set_stdin rest (set_stdin (resource_key :: rest) w)) s answers Hf).
  reflexivity.
Qed.

Lemma failed_root_listing_reads_as_no_sources_witness :
  main plain_digest plain_export 5 unknown_root
  = (Ok tt, set_faults [] (set_stdin ["dl"; "Yes"] unknown_root),
     [EvInput; EvInput; EvLog DEBUG (MsgGettingFiles "R");
      EvLog DEBUG MsgListing;
      EvList (list_query (Some "R")) None (inl 404%Z);
      EvLog ERROR (MsgErrorOccurred (HttpError 404));
      EvLog DEBUG MsgGotAllFiles; EvLog INFO MsgNoSources]).
Proof.
  apply (failed_root_listing_reads_as_no_sources plain_digest plain_export 5%nat
           unknown_root "R" "" ["dl"; "Yes"] 404%Z []); reflexivity.
Defined.

(** ** [delete_empty_folders]: the ways a folder is left on Drive *)

Lemma listed_nil p rk w :
  listed p rk w = [] -> filter (matches (list_query p)) (remote w) = [].
Proof.
  unfold listed. intros H. apply map_eq_nil in H. now apply map_eq_nil in H.
Qed.

Lemma list_sources_empty p rk w rest :
  faults w = None :: rest ->
  listed p rk w = [] ->
  list_sources p rk w = (Ok [], set_faults rest w, empty_listing p).
Proof.
  intros Hf Hl. apply listed_nil in Hl.
  unfold list_sources. unfold bind at 1. cbn [log emit]. unfold bind at 1.
  cbn [get_world]. unfold bind at 1. unfold try_except. unfold bind at 1.
  cbn [list_pages]. unfold bind at 1. unfold files_list. unfold bind at 1.
  unfold next_fault. rewrite Hf. unfold bind at 1. cbn [get_world].
  unfold page_of. cbn [remote set_faults]. rewrite Hl. reflexivity.
Qed.

Lemma for_each_skip (m : item -> M unit) : forall (items : list item) w,
  forallb (fun it => negb (is_folder it)) items = true ->
  for_each items (fun item => if is_folder item then m item else ret tt) w
  = (Ok tt, w, []).
Proof.
  induction items as [|it items IH]; intros w Hall; [reflexivity|].
  cbn [forallb] in Hall. apply andb_prop in Hall. destruct Hall as [Hit Hall].
  apply negb_true_iff in Hit. cbn [for_each]. unfold bind. rewrite Hit.
  cbn [ret]. now rewrite (IH w Hall).
Qed.

(** X15.  A folder whose listing shows files and no folder is left alone:
    [delete_empty_folders] lists it and returns, sending no deletion. *)
Theorem folder_with_files_is_kept :
  forall fuel folder_id max_retry w,
    faults w = [] ->
    listed (Some folder_id) None w <> [] ->
    forallb (fun it => negb (is_folder it)) (listed (Some folder_id) None w) = true ->
    exists evs,
      delete_empty_folders (S fuel) folder_id max_retry w = (Ok tt, w, evs) /\
      lists_only (list_query (Some folder_id)) evs.
Proof.
  intros fuel folder_id max_retry w Hf Hne Hall.
  destruct (list_sources_nofault (Some folder_id) None w Hf) as (evs & Hrun & Hev).
  fold (listed (Some folder_id) None w) in Hrun.
  exists evs. cbn [delete_empty_folders]. unfold bind at 1. rewrite Hrun.
  destruct (listed (Some folder_id) None w) as [|it items] eqn:Hl; [congruence|].
  rewrite (for_each_skip (fun item => delete_empty_folders fuel (id item) 5)
             (it :: items) w Hall).
  rewrite app_nil_r.
  split; [reflexivity | exact Hev].
Qed.

Lemma folder_with_files_is_kept_witness :
  exists evs,
    delete_empty_folders 1 "R" 5 single = (Ok tt, single, evs) /\
    lists_only (list_query (Some "R")) evs.
Proof.
  apply (folder_with_files_is_kept 0%nat "R" 5%nat single).
  - reflexivity.
  - discriminate.
  - reflexivity.
Defined.

(** X16.  When Drive refuses the deletion of an empty folder with a status
    that is not a rate limit, the HttpError leaves [delete_empty_folders]
    after that one attempt: nothing catches it there. *)
Theorem refused_folder_deletion_escapes :
  forall fuel folder_id max_retry w s rest,
    faults w = None :: Some s :: rest ->
    listed (Some folder_id) None w = [] ->
    is_rate_limit s = false ->
    (0 < max_retry)%nat ->
    delete_empty_folders (S fuel) folder_id max_retry w
    = (Raise (HttpError s), set_faults rest w,
       empty_listing (Some folder_id) ++ [EvDelete folder_id (Some s)]).
Proof.
  intros fuel folder_id max_retry w s rest Hf Hl Hs Hn.
  cbn [delete_empty_folders]. unfold bind at 1.
  rewrite (list_sources_empty (Some folder_id) None w (Some s :: rest) Hf Hl).
  destruct max_retry as [|n]; [lia|].
  cbn [seq delete_retry]. unfold bind at 1. unfold try_except. unfold bind at 1.
  unfold files_delete. unfold bind at 1. unfold next_fault.
  cbn [faults set_faults]. cbn [emit raise bind]. rewrite Hs. reflexivity.
Qed.

Lemma refused_folder_deletion_escapes_witness :
  delete_empty_folders 1 "b" 5 (refusing [404%Z])
  = (Raise (HttpError 404), set_faults [] (refusing [404%Z]),
     empty_listing (Some "b") ++ [EvDelete "b" (Some 404%Z)]).
Proof.
  apply (refused_folder_deletion_escapes 0%nat "b" 5%nat (refusing [404%Z]) 404%Z []).
  - reflexivity.
  - reflexivity.
  - reflexivity.
  - lia.
Defined.

(** X17.  When Drive answers every one of the [max_retry] attempts to
    delete an empty folder with a rate-limit status, [delete_empty_folders]
    sleeps after each of them, logs that the attempts are exhausted and
    returns normally: the folder stays on Drive and the caller is not
    told. *)
Theorem exhausted_folder_deletion_is_silent :
  forall fuel folder_id w sts rest,
    faults w = None :: map Some sts ++ rest ->
    listed (Some folder_id) None w = [] ->
    Forall (fun s => is_rate_limit s = true) sts ->
    exists w',
      delete_empty_folders (S fuel) folder_id (List.length sts) w
      = (Ok tt, w',
         empty_listing (Some folder_id) ++ failed_deletes folder_id 0 sts ++
         [EvLog ERROR MsgExceeded]) /\
      remote w' = remote w /\ faults w' = rest.
Proof.
  intros fuel folder_id w sts rest Hf Hl Hall.
  cbn [delete_empty_folders]. unfold bind at 1.
  rewrite (list_sources_empty (Some folder_id) None w (map Some sts ++ rest) Hf Hl).
  destruct (delete_retry_exhausted sts 0%nat folder_id
              (set_faults (map Some sts ++ rest) w) rest eq_refl Hall)
    as (w' & Hrun & Hfa & Hr).
  rewrite Hrun. exists w'. split; [reflexivity|]. split; [exact Hr | exact Hfa].
Qed.

Lemma exhausted_folder_deletion_is_silent_witness :
  exists w',
    delete_empty_folders 1 "b" 3 (refusing [503; 429; 500]%Z)
    = (Ok tt, w',
       empty_listing (Some "b") ++ failed_deletes "b" 0 [503; 429; 500]%Z ++
       [EvLog ERROR MsgExceeded]) /\
    remote w' = remote (refusing [503; 429; 500]%Z) /\ faults w' = [].
Proof.
  apply (exhausted_folder_deletion_is_silent 0%nat "b" (refusing [503; 429; 500]%Z)
           [503; 429; 500]%Z []).
  - reflexivity.
  - reflexivity.
  - repeat constructor.
Defined.

(** ** The progress counter and the chunks *)

Lemma advance_app h a b : advance h (a ++ b) = (advance h a + advance h b)%Z.
Proof.
  induction a as [|e a IH]; [reflexivity|].
  cbn [app advance]. destruct e; try exact IH.
  destruct (_ =? _)%nat; [rewrite IH; lia | exact IH].
Qed.

(** Every pass of the [while] loop adds the bytes received so far, not the
    bytes of the chunk. *)
Lemma read_chunks_advance exported req pbar body : forall fuel dl w r w' evs,
  faults w = [] ->
  body_of exported req (remote w) = Some body ->
  (progress dl <= List.length body)%nat ->
  done dl = false ->
  (2 + List.length body - progress dl <= fuel)%nat ->
  read_chunks exported fuel req pbar dl w = (r, w', evs) ->
  (exists dl', r = Ok (dl', None)) /\
  ((List.length body - progress dl <= Pos.to_nat (chunksize w))%nat ->
   advance pbar evs = Z.of_nat (List.length body)) /\
  ((Pos.to_nat (chunksize w) < List.length body - progress dl)%nat ->
   (Z.of_nat (progress dl + Pos.to_nat (chunksize w) + List.length body)
    <= advance pbar evs)%Z).
Proof.
  induction fuel as [|fuel IH]; intros dl w r w' evs Hf Hb Hle Hd Hfuel; [lia|].
  cbn [read_chunks]. rewrite Hd. unfold bind at 1. unfold try_except.
  unfold bind at 1. rewrite (next_chunk_nofault exported req dl w body Hf Hb).
  cbv zeta.
  set (chunk := firstn (Pos.to_nat (chunksize w)) (skipn (progress dl) body)).
  cbn [ret app]. unfold bind at 1. unfold pbar_update at 1.
  set (dl1 := {| fh := fh dl ++ chunk;
                 progress := (progress dl + List.length chunk)%nat;
                 done := (progress dl + List.length chunk =? List.length body)%nat |}).
  set (w1 := set_pbars _ w).
  assert (Hlen : List.length chunk
                 = Nat.min (Pos.to_nat (chunksize w))
                           (List.length body - progress dl)).
  { unfold chunk. now rewrite length_firstn, length_skipn. }
  assert (Hpos : (0 < Pos.to_nat (chunksize w))%nat) by apply Pos2Nat.is_pos.
  destruct (Nat.eqb_spec (progress dl + List.length chunk) (List.length body))
    as [Hend | Hmore].
  - (* the last chunk *)
    destruct fuel as [|fuel]; [lia|].
    assert (Hd1 : done dl1 = true) by reflexivity.
    cbn [read_chunks]. rewrite Hd1. cbn [ret].
    intros [= <- <- <-]. split; [eauto|]. split.
    + intros _. cbn [app advance]. rewrite Nat.eqb_refl, Hend. lia.
    + intros Hlt. lia.
  - destruct (read_chunks exported fuel req pbar dl1 w1) as [[r2 w2] ev2] eqn:Hrec.
    apply IH in Hrec;
      [ | exact Hf | exact Hb | cbn [progress dl1]; lia
        | reflexivity | cbn [progress dl1]; lia ].
    destruct Hrec as (Hok & Hone & Hmany).
    cbn [progress dl1 chunksize w1 set_pbars] in Hone, Hmany.
    intros [= <- <- <-]. split; [exact Hok|]. split; [intros Hle1; lia|].
    intros Hlt. cbn [app advance]. rewrite Nat.eqb_refl.
    assert (Hc : List.length chunk = Pos.to_nat (chunksize w)) by lia.
    destruct (Nat.le_gt_cases
                (List.length body - (progress dl + List.length chunk))
                (Pos.to_nat (chunksize w))) as [Hl1 | Hl1].
    + rewrite (Hone Hl1). lia.
    + specialize (Hmany Hl1). lia.
Qed.

Lemma fetch_retry_advance exported req pbar n w body r w' evs :
  faults w = [] ->
  body_of exported req (remote w) = Some body ->
  fetch_retry exported (seq 0 (S n)) req pbar new_downloader w = (r, w', evs) ->
  (exists dl, r = Ok dl) /\
  ((List.length body <= Pos.to_nat (chunksize w))%nat ->
   advance pbar evs = Z.of_nat (List.length body)) /\
  ((Pos.to_nat (chunksize w) < List.length body)%nat ->
   (Z.of_nat (Pos.to_nat (chunksize w) + List.length body) <= advance pbar evs)%Z).
Proof.
  intros Hf Hb.
  cbn [seq fetch_retry]. unfold bind at 1. cbn [get_world]. unfold bind at 1.
  destruct (read_chunks exported (chunk_fuel exported req w) req pbar
              new_downloader w) as [[r1 w1] ev1] eqn:Hrun.
  apply (read_chunks_advance exported req pbar body) in Hrun;
    [ | exact Hf | exact Hb | cbn; lia | reflexivity
      | rewrite (chunk_fuel_body exported req w body Hb); cbn; lia ].
  destruct Hrun as ([dl' ->] & Hone & Hmany).
  cbn [progress new_downloader] in Hone, Hmany. rewrite Nat.sub_0_r in Hone, Hmany.
  cbn [ret]. intros [= <- <- <-]. rewrite !app_nil_r.
  split; [eauto|]. split; [exact Hone | exact Hmany].
Qed.

(** X18.  The counter is advanced by the bytes received so far after every
    chunk, so the bytes of the earlier chunks are counted again: a content
    that comes in one chunk advances the counter by its size, a content
    larger than the chunk size advances it by more than its size. *)
Theorem progress_counts_earlier_chunks_again :
  forall exported req pbar n w body,
    faults w = [] ->
    body_of exported req (remote w) = Some body ->
    let x := fetch_retry exported (seq 0 (S n)) req pbar new_downloader w in
    (exists dl, result_of x = Ok dl) /\
    ((List.length body <= Pos.to_nat (chunksize w))%nat ->
     advance pbar (trace_of x) = Z.of_nat (List.length body)) /\
    ((Pos.to_nat (chunksize w) < List.length body)%nat ->
     (Z.of_nat (Pos.to_nat (chunksize w) + List.length body)
      <= advance pbar (trace_of x))%Z).
Proof.
  intros exported req pbar n w body Hf Hb. cbv zeta.
  destruct (fetch_retry exported (seq 0 (S n)) req pbar new_downloader w)
    as [[r w'] evs] eqn:Hrun.
  exact (fetch_retry_advance exported req pbar n w body r w' evs Hf Hb Hrun).
Qed.

Lemma progress_counts_earlier_chunks_again_witness :
  (7 <= advance 0 (trace_of (fetch_retry plain_export (seq 0 5) request_a 0
                               new_downloader small_chunks)))%Z /\
  advance 0 (trace_of (fetch_retry plain_export (seq 0 5) request_a 0
                         new_downloader single)) = 5%Z.
Proof.
  split.
  - destruct (progress_counts_earlier_chunks_again plain_export request_a 0%nat
                4%nat small_chunks (bytes_of "hello") eq_refl eq_refl)
      as (_ & _ & Hmany).
    apply Hmany. cbn. lia.
  - destruct (progress_counts_earlier_chunks_again plain_export request_a 0%nat
                4%nat single (bytes_of "hello") eq_refl eq_refl)
      as (_ & Hone & _).
    apply Hone. change (5 <= Pos.to_nat 104857600)%nat. lia.
Defined.

(** Five bytes in chunks of two: the counter of five ends at eleven. *)
Example small_chunks_counter :
  pbars (world_of (download_file plain_digest plain_export item_a ["dl"] 0 5
                     small_chunks))
  = [{| pb_total := 5; pb_n := 11 |}].
Proof. vm_compute. reflexivity. Qed.

(** ** A folder of files is moved as a whole *)

Lemma filter_none A (f : A -> bool) : forall l,
  (forall x, In x l -> f x = false) -> filter f l = [].
Proof.
  induction l as [|x l IH]; intros H; [reflexivity|].
  cbn [filter]. rewrite (H x) by now left. apply IH. intros y Hy. apply H. now right.
Qed.

Lemma filter_all A (f : A -> bool) : forall l,
  (forall x, In x l -> f x = true) -> filter f l = l.
Proof.
  induction l as [|x l IH]; intros H; [reflexivity|].
  cbn [filter]. rewrite (H x) by now left. f_equal. apply IH.
  intros y Hy. apply H. now right.
Qed.

Lemma mem_id_parents fid : forall ps,
  existsb (fun p => mem_id p [fid]) ps = mem_id fid ps.
Proof.
  induction ps as [|p ps IH]; [reflexivity|].
  cbn [existsb mem_id]. cbn [mem_id existsb] in IH. rewrite IH.
  now rewrite orb_false_r, String.eqb_sym.
Qed.

(** Deleting a node that holds nothing removes that node only. *)
Lemma delete_leaf fid k store :
  childless fid store = true ->
  delete_tree (S k) [fid] store
  = filter (fun n => negb (mem_id (r_id n) [fid])) store.
Proof.
  intros Hc. cbn [delete_tree].
  rewrite filter_none; [reflexivity|].
  intros n Hn. apply filter_In in Hn. destruct Hn as [Hn _].
  rewrite mem_id_parents. unfold childless in Hc. rewrite forallb_forall in Hc.
  specialize (Hc n Hn). now apply negb_true_iff in Hc.
Qed.

Lemma mem_id_true s ids : mem_id s ids = true <-> In s ids.
Proof.
  unfold mem_id. rewrite existsb_exists. split.
  - intros (x & Hx & He). apply String.eqb_eq in He. now subst.
  - intros H. exists s. split; [exact H | apply String.eqb_refl].
Qed.

Lemma mem_id_false s ids : mem_id s ids = false <-> ~ In s ids.
Proof.
  rewrite <- mem_id_true. destruct (mem_id s ids); split; congruence.
Qed.

Lemma find_node_filter fid ids : forall store,
  mem_id fid ids = false ->
  find_node fid (filter (fun n => negb (mem_id (r_id n) ids)) store)
  = find_node fid store.
Proof.
  intros store Hfid. unfold find_node.
  induction store as [|n store IH]; [reflexivity|].
  cbn [filter find]. destruct (String.eqb_spec (r_id n) fid) as [He | Hne].
  - rewrite He, Hfid. cbn [negb find]. rewrite He, String.eqb_refl. reflexivity.
  - destruct (mem_id (r_id n) ids); cbn [negb find]; [exact IH|].
    apply String.eqb_neq in Hne. rewrite Hne. exact IH.
Qed.

Lemma find_node_in n store : In n store -> find_node (r_id n) store <> None.
Proof.
  intros Hin H. unfold find_node in H.
  apply (find_none _ _ H) in Hin. now rewrite String.eqb_refl in Hin.
Qed.

Lemma childless_filter fid (f : rnode -> bool) store :
  childless fid store = true -> childless fid (filter f store) = true.
Proof.
  unfold childless. rewrite !forallb_forall. intros H n Hn.
  apply filter_In in Hn. apply H. tauto.
Qed.

Lemma filter_ids_cons i ids : forall store,
  filter (fun n => negb (mem_id (r_id n) ids))
         (filter (fun n => negb (mem_id (r_id n) [i])) store)
  = filter (fun n => negb (mem_id (r_id n) (i :: ids))) store.
Proof.
  induction store as [|n store IH]; [reflexivity|].
  cbn [filter].
  assert (H1 : mem_id (r_id n) [i] = (r_id n =? i)%string)
    by (cbn; apply orb_false_r).
  assert (H2 : mem_id (r_id n) (i :: ids)
               = ((r_id n =? i)%string || mem_id (r_id n) ids)) by reflexivity.
  rewrite H1, H2.
  destruct (r_id n =? i)%string; cbn [negb orb filter]; [exact IH|].
  destruct (mem_id (r_id n) ids); cbn [negb]; [exact IH | f_equal; exact IH].
Qed.

Lemma body_of_exists exported req store :
  find_node (fileId req) store <> None ->
  exists body, body_of exported req store = Some body.
Proof.
  unfold body_of. destruct (find_node (fileId req) store); [|congruence].
  destruct (export req); eauto.
Qed.

Lemma body_of_filter exported req ids store :
  mem_id (fileId req) ids = false ->
  body_of exported req (filter (fun n => negb (mem_id (r_id n) ids)) store)
  = body_of exported req store.
Proof. intros H. unfold body_of. now rewrite find_node_filter. Qed.

Lemma make_dirs_all_dirs : forall ps fs,
  (forall p, In p ps -> fs_lookup p fs = Some Dir) -> make_dirs ps fs = Some fs.
Proof.
  induction ps as [|q ps IH]; intros fs H; [reflexivity|].
  cbn [make_dirs]. rewrite (H q) by now left. apply IH.
  intros p Hp. apply H. now right.
Qed.

Lemma absent_none p fs : absent p fs = true <-> fs_lookup p fs = None.
Proof. unfold absent. destruct (fs_lookup p fs); split; congruence. Qed.

Lemma absent_set p q n fs : p <> q -> absent p (fs_set q n fs) = absent p fs.
Proof. intros H. unfold absent. now rewrite fs_lookup_set_other. Qed.

Lemma path_neq p q : negb (path_eqb p q) = true -> p <> q.
Proof.
  intros H He. apply negb_true_iff in H. rewrite He, path_eqb_refl in H.
  discriminate.
Qed.

(** The loop over the files of a listing, when nothing fails: every file
    is written and deleted on Drive. *)
Lemma download_each_moves md5 exported dest pbar : forall items w,
  faults w = [] ->
  (forall p, In p (prefixes dest) -> fs_lookup p (local w) = Some Dir) ->
  forallb (movable (remote w)) items = true ->
  (forall it, In it items -> find_node (id it) (remote w) <> None) ->
  NoDup (map id items) ->
  forallb (fresh dest (local w)) items = true ->
  clash_free dest items = true ->
  exists w' evs,
    download_each md5 exported items dest pbar w = (Ok tt, w', evs) /\
    faults w' = [] /\
    remote w' = filter (fun n => negb (mem_id (r_id n) (map id items))) (remote w) /\
    (forall it body,
       In it items -> body_of exported (request_of it) (remote w) = Some body ->
       fs_lookup (destination_of it dest) (local w') = Some (File body)) /\
    (forall p, (forall it, In it items -> p <> destination_of it dest) ->
               fs_lookup p (local w') = fs_lookup p (local w)).
Proof.
  induction items as [|it items IH];
    intros w Hf Hdirs Hmov Hfound Hnd Hfresh Hclash.
  - exists w, []. split; [reflexivity|]. split; [exact Hf|].
    split; [symmetry; apply filter_all; reflexivity|].
    split; [intros it body []|reflexivity].
  - cbn [forallb] in Hmov, Hfresh. cbn [clash_free] in Hclash.
    apply andb_prop in Hmov. destruct Hmov as [Hit Hmov].
    apply andb_prop in Hfresh. destruct Hfresh as [Hfit Hfresh].
    apply andb_prop in Hclash. destruct Hclash as [Hcit Hclash].
    unfold movable in Hit. apply andb_prop in Hit. destruct Hit as [Hit Hleaf].
    apply andb_prop in Hit. destruct Hit as [Hfile Hnm].
    unfold fresh in Hfit. apply andb_prop in Hfit. destruct Hfit as [Hsrc Hdst].
    apply absent_none in Hsrc. apply absent_none in Hdst.
    rewrite forallb_forall in Hcit.
    cbn [map] in Hnd. inversion Hnd as [|? ? Hnotin Hnd']; subst.
    destruct (body_of_exists exported (request_of it) (remote w)) as [body Hb].
    { apply Hfound. now left. }
    destruct (destination_of_child it dest Hnm) as [nm Hchild].
    destruct (download_file_run md5 exported it dest pbar 5 w [] body (local w))
      as (w1 & ev1 & Hrun & Hl1 & Hr1 & Hf1 & _ & _).
    { now apply has_name_plain. }
    { exact Hf. }
    { constructor. }
    { cbn. lia. }
    { exact Hb. }
    { apply make_dirs_all_dirs. exact Hdirs. }
    { left. exact Hsrc. }
    { rewrite Hchild, removelast_last. unfold fs_is_dir.
      destruct dest as [|c dest]; [reflexivity|].
      rewrite (Hdirs (c :: dest)); [reflexivity|]. apply prefixes_self. discriminate. }
    { rewrite Hchild in Hdst |- *. unfold fs_is_dir. rewrite Hdst. now destruct dest. }
    rewrite (delete_leaf (id it) _ (remote w) Hleaf) in Hr1.
    assert (Hother : forall it', In it' items ->
              destination_of it dest <> joinpath dest (name it') /\
              destination_of it dest <> destination_of it' dest).
    { intros it' Hin. specialize (Hcit it' Hin). apply andb_prop in Hcit.
      destruct Hcit as [H1 H2]. split; now apply path_neq. }
    assert (Hids : forall it', In it' items -> mem_id (id it') [id it] = false).
    { intros it' Hin. apply mem_id_false. intros [He | []]. apply Hnotin.
      rewrite He. now apply in_map. }
    destruct (IH w1) as (w' & evs & Hrec & Hf' & Hr' & Hfiles & Hrest).
    + exact Hf1.
    + intros p Hp. rewrite Hl1, fs_lookup_set_other; [now apply Hdirs|].
      intros ->. rewrite Hchild in Hp. exact (child_not_prefix dest nm Hp).
    + rewrite Hr1. rewrite forallb_forall in Hmov |- *. intros it' Hin.
      specialize (Hmov it' Hin). unfold movable in Hmov |- *.
      apply andb_prop in Hmov. destruct Hmov as [H1 H2]. rewrite H1.
      cbn [andb]. now apply childless_filter.
    + intros it' Hin. rewrite Hr1, find_node_filter by now apply Hids.
      apply Hfound. now right.
    + exact Hnd'.
    + rewrite forallb_forall in Hfresh |- *. intros it' Hin.
      specialize (Hfresh it' Hin). destruct (Hother it' Hin) as [H1 H2].
      unfold fresh in Hfresh |- *. rewrite Hl1.
      rewrite !absent_set by congruence. exact Hfresh.
    + exact Hclash.
    + exists w', (ev1 ++ evs). split.
      { unfold download_each in Hrec |- *. cbn [for_each]. rewrite Hfile.
        unfold bind at 1. rewrite Hrun, Hrec. reflexivity. }
      split; [exact Hf'|].
      split; [rewrite Hr', Hr1; apply filter_ids_cons|].
      split.
      * intros it0 body0 [<- | Hin] Hb0.
        -- rewrite Hrest, Hl1.
           ++ rewrite fs_lookup_set_same. congruence.
           ++ intros it' Hin'. apply (Hother it' Hin').
        -- apply Hfiles; [exact Hin|]. rewrite Hr1.
           rewrite body_of_filter; [exact Hb0|]. now apply Hids.
      * intros p Hp. rewrite Hrest, Hl1.
        -- apply fs_lookup_set_other. apply Hp. now left.
        -- intros it' Hin'. apply Hp. now right.
Qed.

Lemma fold_each_skip A (m : A -> item -> M A) : forall (items : list item) acc w,
  forallb (fun it => negb (is_folder it)) items = true ->
  fold_each items acc (fun acc item => if is_folder item then m acc item else ret acc) w
  = (Ok acc, w, []).
Proof.
  induction items as [|it items IH]; intros acc w Hall; [reflexivity|].
  cbn [forallb] in Hall. apply andb_prop in Hall. destruct Hall as [Hit Hall].
  apply negb_true_iff in Hit. cbn [fold_each]. unfold bind. rewrite Hit.
  cbn [ret]. now rewrite (IH acc w Hall).
Qed.

Lemma listed_in p rk w it :
  In it (listed p rk w) ->
  exists n, In n (remote w) /\ matches (list_query p) n = true /\ id it = r_id n.
Proof.
  unfold listed. intros H. apply in_map_iff in H. destruct H as (it' & <- & H).
  apply in_map_iff in H. destruct H as (n & <- & H). apply filter_In in H.
  exists n. split; [tauto|]. split; [tauto | reflexivity].
Qed.

Lemma in_listed p rk w n :
  In n (remote w) -> matches (list_query p) n = true ->
  In (r_id n) (map id (listed p rk w)).
Proof.
  intros Hn Hm. unfold listed. rewrite !map_map. cbn [with_resource_key item_of_node id].
  apply (in_map r_id). apply filter_In. tauto.
Qed.

Lemma movable_files store items :
  forallb (movable store) items = true ->
  forallb (fun it => negb (is_folder it)) items = true.
Proof.
  rewrite !forallb_forall. intros H it Hin. specialize (H it Hin).
  unfold movable in H. apply andb_prop in H. destruct H as [H _].
  apply andb_prop in H. tauto.
Qed.

Lemma files_delete_nofault fid w :
  faults w = [] -> find_node fid (remote w) <> None ->
  files_delete fid w
  = (Ok tt, set_remote (delete_tree (S (List.length (remote w))) [fid] (remote w)) w,
     [EvDelete fid None]).
Proof.
  intros Hf Hn. unfold files_delete. unfold bind at 1. unfold next_fault. rewrite Hf.
  unfold bind at 1. cbn [get_world]. unfold find_node in Hn.
  unfold find_node. destruct (find _ (remote w)); [reflexivity | congruence].
Qed.

Lemma find_node_gone fid store :
  (forall n, In n store -> r_id n <> fid) -> find_node fid store = None.
Proof.
  intros H. apply find_node_none. intros n Hn. apply String.eqb_neq. now apply H.
Qed.

(** The folder of the source, with the destination made, the listing taken
    and the counter created: what [download_files] does before and after
    the loop over the files. *)
Lemma download_files_flat md5 exported fuel src dest is_root w fs :
  let target := if negb is_root then joinpath dest (src_name src) else dest in
  let items := listed (Some (src_id src)) None w in
  faults w = [] ->
  src_id src <> "" ->
  find_node (src_id src) (remote w) <> None ->
  forallb (movable (remote w)) items = true ->
  NoDup (map id items) ->
  make_dirs (prefixes target) (local w) = Some fs ->
  forallb (fresh target (local w)) items = true ->
  clash_free target items = true ->
  exists w' evs,
    download_files md5 exported (S (S fuel)) src dest is_root w = (Ok tt, w', evs) /\
    (forall it body,
       In it items -> body_of exported (request_of it) (remote w) = Some body ->
       fs_lookup (destination_of it target) (local w') = Some (File body)) /\
    (forall it, In it items -> find_node (id it) (remote w') = None) /\
    find_node (src_id src) (remote w') = None /\
    incl (remote w') (remote w) /\
    (forall p, ~ In p (prefixes target) ->
               (forall it, In it items -> p <> destination_of it target) ->
               fs_lookup p (local w') = fs_lookup p (local w)).
Proof.
  intros target items Hf Hfid Hroot Hmov Hnd Hfs Hfresh Hclash.
  pose proof (movable_files _ _ Hmov) as Hfiles.
  set (w1 := set_local fs w).
  (* the listings before the loop *)
  destruct (list_sources_nofault (Some (src_id src)) None w1 Hf) as (ev1 & Hls1 & _).
  fold (listed (Some (src_id src)) None w1) in Hls1.
  change (listed (Some (src_id src)) None w1) with items in Hls1.
  set (w2 := set_pbars (pbars w1 ++ [{| pb_total := sum_sizes items; pb_n := 0 |}]) w1).
  (* the loop *)
  destruct (download_each_moves md5 exported target (List.length (pbars w1)) items w2)
    as (w3 & ev3 & Hrun3 & Hf3 & Hr3 & Hcontent & Hrest).
  { exact Hf. }
  { intros p Hp. exact (make_dirs_makes_dirs _ _ _ p Hfs Hp). }
  { exact Hmov. }
  { intros it Hin. apply listed_in in Hin. destruct Hin as (n & Hn & _ & ->).
    now apply find_node_in. }
  { exact Hnd. }
  { rewrite forallb_forall in Hfresh |- *. intros it Hin. specialize (Hfresh it Hin).
    unfold fresh, absent in Hfresh |- *. cbn [w2 w1 local set_pbars set_local].
    rewrite forallb_forall in Hmov. pose proof (Hmov it Hin) as Hpl.
    unfold movable in Hpl. apply andb_prop in Hpl. destruct Hpl as [Hpl _].
    apply andb_prop in Hpl. destruct Hpl as [_ Hpl].
    destruct (destination_of_child it target Hpl) as [nm Hchild].
    rewrite (joinpath_plain target (name it) Hpl) in Hfresh |- *.
    rewrite (make_dirs_other _ _ _ _ Hfs (child_not_prefix target (name it))).
    rewrite Hchild in Hfresh |- *.
    rewrite (make_dirs_other _ _ _ _ Hfs (child_not_prefix target nm)).
    exact Hfresh. }
  { exact Hclash. }
  cbn [w2 w1 remote set_pbars set_local] in Hr3.
  (* the folder is not one of its files *)
  assert (Hself : mem_id (src_id src) (map id items) = false).
  { apply mem_id_false. intros Hin. apply in_map_iff in Hin.
    destruct Hin as (it & Heq & Hin). pose proof Hin as Hin'.
    apply listed_in in Hin'. destruct Hin' as (n & Hn & Hm & _).
    rewrite (list_query_folder _ Hfid) in Hm. cbn [matches] in Hm.
    apply andb_prop in Hm. destruct Hm as [Hm _].
    rewrite forallb_forall in Hmov. specialize (Hmov it Hin).
    unfold movable in Hmov. apply andb_prop in Hmov. destruct Hmov as [_ Hleaf].
    unfold childless in Hleaf. rewrite forallb_forall in Hleaf.
    specialize (Hleaf n Hn). rewrite Heq in Hleaf. unfold mem_id in Hleaf.
    rewrite Hm in Hleaf. discriminate. }
  (* the listing after the loop is empty *)
  destruct (list_sources_nofault (Some (src_id src)) None w3 Hf3) as (ev4 & Hls4 & _).
  assert (Hempty : filter (matches (list_query (Some (src_id src)))) (remote w3) = []).
  { apply filter_none. intros n Hn. rewrite Hr3 in Hn. apply filter_In in Hn.
    destruct Hn as [Hn Hout]. apply negb_true_iff in Hout.
    destruct (matches (list_query (Some (src_id src))) n) eqn:Hm; [|reflexivity].
    apply mem_id_false in Hout. exfalso. apply Hout.
    exact (in_listed (Some (src_id src)) None w n Hn Hm). }
  rewrite Hempty in Hls4. cbn [map] in Hls4.
  assert (Hroot3 : find_node (src_id src) (remote w3) <> None).
  { rewrite Hr3, find_node_filter; assumption. }
  exists (set_remote (delete_tree (S (List.length (remote w3))) [src_id src]
                                  (remote w3)) w3).
  eexists. split.
  { rewrite download_files_loop. cbv zeta. fold target.
    unfold bind at 1. unfold mkdir. rewrite Hfs. fold w1.
    unfold bind at 1. rewrite Hls1.
    unfold bind at 1. cbn [log emit].
    unfold bind at 1. cbn [get_total_size]. unfold bind at 1. rewrite Hls1.
    rewrite (fold_each_skip Z
               (fun total_size item =>
                  bind (get_total_size fuel (id item))
                       (fun n => ret (total_size + n)%Z))
               items (sum_sizes items) w1 Hfiles).
    unfold bind at 1. unfold tqdm. fold w2.
    unfold bind at 1. rewrite Hrun3.
    unfold bind at 1.
    rewrite (for_each_skip
               (fun item => download_files md5 exported (S fuel)
                              {| src_id := id item; src_name := name item |}
                              target false)
               items w3 Hfiles).
    cbn [delete_empty_folders]. unfold bind at 1. rewrite Hls4.
    cbn [seq delete_retry]. unfold bind at 1. unfold try_except. unfold bind at 1.
    rewrite (files_delete_nofault (src_id src) w3 Hf3 Hroot3).
    unfold bind at 1. cbn [log emit ret]. reflexivity. }
  cbn [remote local set_remote].
  split.
  { intros it body Hin Hb. apply (Hcontent it body Hin). exact Hb. }
  split.
  { intros it Hin. apply find_node_gone. intros n Hn.
    apply delete_tree_incl in Hn. rewrite Hr3 in Hn. apply filter_In in Hn.
    destruct Hn as [_ Hout]. apply negb_true_iff, mem_id_false in Hout.
    intros He. apply Hout. rewrite He. now apply in_map. }
  split; [apply find_node_deleted|].
  split.
  { intros n Hn. apply delete_tree_incl in Hn. rewrite Hr3 in Hn.
    apply filter_In in Hn. tauto. }
  intros p Hpre Hp. rewrite (Hrest p Hp). cbn [w2 w1 local set_pbars set_local].
  exact (make_dirs_other _ _ _ _ Hfs Hpre).
Qed.



(** The run on [flat]: [A.bin] and the exported [notes.docx] are in [dl],
    Drive is empty. *)
Example flat_run :
  let x := download_files plain_digest plain_export 2 scenario_root ["dl"] true flat in
  result_of x = Ok tt /\
  remote (world_of x) = [] /\
  local (world_of x)
  = [(["dl"; "notes.docx"], File (bytes_of "text"));
     (["dl"; "A.bin"], File (bytes_of "hello")); (["dl"], Dir)].
Proof. vm_compute. repeat split. Qed.

(** ** [download_file]: a request that Drive refuses *)

(** X20.  When Drive refuses the first chunk request with a status that is
    not a rate limit, [download_file] logs the error and returns normally
    after that one exchange: nothing is written, no deletion is sent, and
    the file stays on Drive.  The destination [dest / name] is any path with
    a name that, once the folder is made, does not hold the item yet. *)
Theorem refused_download_leaves_file :
  forall md5 exported it dest pbar max_retry w s rest fs,
    has_name (joinpath dest (name it)) = true ->
    faults w = Some s :: rest ->
    is_rate_limit s = false ->
    (0 < max_retry)%nat ->
    make_dirs (prefixes dest) (local w) = Some fs ->
    not_there md5 it (joinpath dest (name it)) fs ->
    exists evs,
      download_file md5 exported it dest pbar max_retry w
      = (Ok tt, set_faults rest (set_local fs w), evs) /\
      transfers evs = [EvChunk (id it) (inl s)] /\
      writes evs = [] /\
      reports evs = [EvLog ERROR (MsgErrorOccurred (HttpError s))].
Proof.
  intros md5 exported it dest pbar max_retry w s rest fs Hnm Hf Hs Hn Hfs Hnot.
  set (w1 := set_local fs w).
  destruct (already_there_not md5 it (joinpath dest (name it)) w1 Hnot
              (has_name_nonempty _ Hnm))
    as (ev1 & Hrun1 & Hw1 & Ht1 & Hr1 & _).
  destruct max_retry as [|n]; [lia|].
  unfold download_file. unfold bind at 1. cbn [emit]. unfold bind at 1.
  cbn [log emit]. unfold try_except. unfold bind at 1. unfold mkdir. rewrite Hfs.
  fold w1. unfold bind at 1. rewrite Hrun1. unfold bind at 1. cbn [log emit].
  unfold bind at 1. rewrite (select_request_ok it dest w1 Hnm). cbn [fst snd].
  unfold bind at 1.
  rewrite (fetch_retry_permanent exported (request_of it) pbar n new_downloader w1
             s rest Hf Hs eq_refl).
  cbn [log emit]. eexists. split; [reflexivity|].
  unfold transfers, writes, reports in *.
  repeat (rewrite ?filter_app, ?Hw1, ?Ht1, ?Hr1; cbn [filter app]).
  repeat split.
Qed.

Lemma refused_download_leaves_file_witness :
  exists evs,
    download_file plain_digest plain_export item_a ["dl"] 0 5
      (set_faults [Some 404%Z] single)
    = (Ok tt,
       set_faults [] (set_local [(["dl"], Dir)] (set_faults [Some 404%Z] single)),
       evs) /\
    transfers evs = [EvChunk (id item_a) (inl 404%Z)] /\
    writes evs = [] /\
    reports evs = [EvLog ERROR (MsgErrorOccurred (HttpError 404))].
Proof.
  apply (refused_download_leaves_file plain_digest plain_export item_a ["dl"] 0%nat
           5%nat (set_faults [Some 404%Z] single) 404%Z [] [(["dl"], Dir)]).
  - reflexivity.
  - reflexivity.
  - reflexivity.
  - lia.
  - reflexivity.
  - left. reflexivity.
Defined.

(** ** The resource key *)

Lemma actions_app a b : actions (a ++ b) = actions a ++ actions b.
Proof. apply filter_app. Qed.

Lemma alike_refl A (RA : A -> A -> Prop) x :
  (forall a, RA a a) -> alike RA x x.
Proof.
  intros H. unfold alike. split; [reflexivity|]. split; [reflexivity|].
  destruct (result_of x); auto.
Qed.

Lemma alike_bind A B (RA : A -> A -> Prop) (RB : B -> B -> Prop)
    (m m' : M A) (k k' : A -> M B) :
  (forall w, alike RA (m w) (m' w)) ->
  (forall a a' w, RA a a' -> alike RB (k a w) (k' a' w)) ->
  forall w, alike RB (bind m k w) (bind m' k' w).
Proof.
  unfold bind. intros Hm Hk w. specialize (Hm w).
  destruct (m w) as [[r w1] e1]. destruct (m' w) as [[r' w1'] e1'].
  unfold alike in *. cbn [world_of result_of trace_of fst snd] in *.
  destruct Hm as (Hw & He & Hr). subst w1'. destruct r as [a|e|], r' as [a'|e'|]; try contradiction.
  - specialize (Hk a a' w1 Hr).
    destruct (k a w1) as [[r2 w2] e2]. destruct (k' a' w1) as [[r2' w2'] e2'].
    unfold alike in *. cbn [world_of result_of trace_of fst snd] in *.
    destruct Hk as (Hw2 & He2 & Hr2).
    split; [exact Hw2|]. split; [|exact Hr2].
    rewrite !actions_app. congruence.
  - repeat split; assumption.
  - repeat split; assumption.
Qed.

(** A step that returns on both sides, from worlds that may differ. *)
Lemma alike_step A B (RB : B -> B -> Prop) (m : M A) (k : A -> M B)
    w w' a a' w1 w1' e1 e1' :
  m w = (Ok a, w1, e1) -> m w' = (Ok a', w1', e1') -> actions e1 = actions e1' ->
  alike RB (k a w1) (k a' w1') ->
  alike RB (bind m k w) (bind m k w').
Proof.
  unfold bind. intros -> -> He Hk.
  destruct (k a w1) as [[r2 w2] e2]. destruct (k a' w1') as [[r2' w2'] e2'].
  unfold alike in *. cbn [world_of result_of trace_of fst snd] in *.
  destruct Hk as (Hw2 & He2 & Hr2).
  split; [exact Hw2|]. split; [|exact Hr2].
  rewrite !actions_app. congruence.
Qed.

Lemma alike_try_except A (RA : A -> A -> Prop) (m m' : M A)
    (h : exn -> option (M A)) w w' :
  (forall a, RA a a) ->
  alike RA (m w) (m' w') ->
  alike RA (try_except m h w) (try_except m' h w').
Proof.
  unfold try_except. intros Hrefl Hm.
  destruct (m w) as [[r w1] e1]. destruct (m' w') as [[r' w1'] e1'].
  unfold alike in *. cbn [world_of result_of trace_of fst snd] in *.
  destruct Hm as (Hw & He & Hr). subst w1'. destruct r as [a|e|], r' as [a'|e'|]; try contradiction.
  - repeat split; assumption.
  - subst e'. destruct (h e) as [k|]; [|repeat split; assumption].
    destruct (k w1) as [[r2 w2] e2]. unfold alike.
    cbn [world_of result_of trace_of fst snd].
    split; [reflexivity|]. split; [rewrite !actions_app; congruence|].
    destruct r2; auto.
  - repeat split; assumption.
Qed.

Lemma alike_log l msg msg' w :
  alike (fun _ _ : unit => True) (log l msg w) (log l msg' w).
Proof. repeat split. Qed.

Lemma same_length_refl A (l : list A) : same_length l l.
Proof. reflexivity. Qed.

Lemma same_shape_refl A (o : option (list A)) : same_shape o o.
Proof. destruct o; reflexivity. Qed.

(** The pages of a listing do not depend on the resource key; the items
    differ in their [resourceKey] entry only. *)
Lemma list_pages_alike : forall fuel q rk rk' tok acc acc',
  same_length acc acc' ->
  forall w, alike same_length (list_pages fuel q rk tok acc w)
                              (list_pages fuel q rk' tok acc' w).
Proof.
  induction fuel as [|fuel IH]; intros q rk rk' tok acc acc' Hacc;
    cbn [list_pages].
  - intros w. repeat split.
  - apply (alike_bind _ _ eq same_length).
    + intros w. apply alike_refl. reflexivity.
    + intros results ? w <-.
      apply (alike_bind unit _ (fun _ _ => True) same_length).
      * intros w0. apply alike_log.
      * intros _ _ w0 _.
        assert (Hlen : same_length
                  (acc ++ map (with_resource_key rk) (fst results))
                  (acc' ++ map (with_resource_key rk') (fst results))).
        { unfold same_length in *. rewrite !length_app, !length_map. congruence. }
        destruct (snd results) as [t|]; [now apply IH|].
        repeat split. exact Hlen.
Qed.

Lemma list_sources_alike p rk rk' :
  forall w, alike same_length (list_sources p rk w) (list_sources p rk' w).
Proof.
  unfold list_sources.
  apply (alike_bind unit _ (fun _ _ => True) same_length).
  { intros w. apply alike_log. }
  intros _ _ w _. revert w.
  apply (alike_bind _ _ eq same_length).
  { intros w. apply alike_refl. reflexivity. }
  intros w0 ? w <-. revert w.
  apply (alike_bind _ _ same_shape same_length).
  - intros w. apply alike_try_except; [apply same_shape_refl|]. revert w.
    apply (alike_bind _ _ same_length same_shape).
    + apply list_pages_alike. reflexivity.
    + intros items items' w Hlen. repeat split. exact Hlen.
  - intros r r' w Hr. destruct r as [items|], r' as [items'|]; try contradiction.
    + revert w. apply (alike_bind unit _ (fun _ _ => True) same_length).
      * intros w. apply alike_log.
      * intros _ _ w _. repeat split. exact Hr.
    + repeat split.
Qed.

Lemma main_alike md5 exported fuel w folder_id rk rk' rest :
  alike eq (main md5 exported fuel (set_stdin (folder_id :: rk :: rest) w))
           (main md5 exported fuel (set_stdin (folder_id :: rk' :: rest) w)).
Proof.
  unfold main. apply alike_try_except; [reflexivity|].
  eapply alike_step; [reflexivity | reflexivity | reflexivity |].
  eapply alike_step; [reflexivity | reflexivity | reflexivity |].
  match goal with
  | |- alike ?R (?f _) (?g _) =>
      change (alike R (f (set_stdin rest w)) (g (set_stdin rest w)))
  end.
  generalize (set_stdin rest w).
  apply (alike_bind unit _ (fun _ _ => True) eq).
  { intros w0. apply alike_log. }
  intros _ _ w0 _. revert w0.
  apply (alike_bind _ _ same_length eq).
  { apply list_sources_alike. }
  intros items items' w0 Hlen. revert w0.
  apply (alike_bind unit _ (fun _ _ => True) eq).
  { intros w0. apply alike_log. }
  intros _ _ w0 _.
  destruct items as [|it items], items' as [|it' items']; try discriminate Hlen;
    apply alike_refl; reflexivity.
Qed.

(** X21.  The resource key that the user types has no effect on the job:
    whatever it is, [main] ends with the same result in the same state of
    Drive and of the local file system, after the same inputs, exchanges
    with Drive and local operations; the runs differ in log lines only. *)
Theorem resource_key_is_never_used :
  forall md5 exported fuel w folder_id rk rk' rest,
    let x := main md5 exported fuel (set_stdin (folder_id :: rk :: rest) w) in
    let x' := main md5 exported fuel (set_stdin (folder_id :: rk' :: rest) w) in
    result_of x = result_of x' /\ world_of x = world_of x' /\
    actions (trace_of x) = actions (trace_of x').
Proof.
  intros md5 exported fuel w folder_id rk rk' rest. cbv zeta.
  destruct (main_alike md5 exported fuel w folder_id rk rk' rest) as (Hw & He & Hr).
  split; [|split; assumption].
  destruct (result_of _) as [[]|e|], (result_of _) as [[]|e'|];
    try contradiction; congruence.
Qed.

(** ** The whole job on a folder of files *)

Lemma frame_stdin_download_files md5 exported fuel src dest is_root w :
  stdin (world_of (download_files md5 exported fuel src dest is_root w)) = stdin w.
Proof.
  apply (inv_download_files (fun w w' => stdin w' = stdin w)).
  - reflexivity.
  - intros w1 w2 w3 H1 H2. congruence.
  - intros w0. unfold next_fault. now destruct (faults w0) as [|[s|] rest].
  - intros fid w0. unfold files_delete, bind, next_fault.
    destruct (faults w0) as [|[s|] rest]; cbn -[delete_tree find_node];
      try reflexivity; destruct (find_node fid (remote w0)); reflexivity.
  - intros p w0. unfold mkdir. now destruct (make_dirs _ _).
  - intros p d w0. unfold write_file. now destruct (_ && _).
  - intros t w0. reflexivity.
  - intros h n w0. reflexivity.
Qed.

Lemma main_flat md5 exported fuel w folder_id rk line answer rest fs :
  let items := listed (Some folder_id) None w in
  stdin w = folder_id :: rk :: line :: answer :: rest ->
  confirms answer = true ->
  fs_is_dir (Path line) (local w) = true ->
  faults w = [] ->
  folder_id <> "" ->
  find_node folder_id (remote w) <> None ->
  items <> [] ->
  forallb (movable (remote w)) items = true ->
  NoDup (map id items) ->
  make_dirs (prefixes (Path line)) (local w) = Some fs ->
  forallb (fresh (Path line) (local w)) items = true ->
  clash_free (Path line) items = true ->
  exists w' evs,
    main md5 exported (S (S fuel)) w = (Ok tt, w', evs ++ [EvLog INFO MsgCompleted]) /\
    stdin w' = rest /\
    (forall it body,
       In it items -> body_of exported (request_of it) (remote w) = Some body ->
       fs_lookup (destination_of it (Path line)) (local w') = Some (File body)) /\
    (forall it, In it items -> find_node (id it) (remote w') = None) /\
    find_node folder_id (remote w') = None /\
    incl (remote w') (remote w).
Proof.
  intros items Hs Hyes Hdir Hf Hfid Hroot Hne Hmov Hnd Hfs Hfresh Hclash.
  set (w2 := set_stdin (line :: answer :: rest) w).
  set (w4 := set_stdin rest w).
  destruct (list_sources_nofault (Some folder_id) (Some rk) w2 Hf) as (ev1 & Hls & _).
  destruct (download_files_flat md5 exported fuel
              {| src_id := folder_id; src_name := "Folder to Download" |}
              (Path line) true w4 fs Hf Hfid Hroot Hmov Hnd Hfs Hfresh Hclash)
    as (w' & ev5 & Hrun & Hcontent & Hgone & Hfolder & Hincl & _).
  assert (Hst : stdin w' = rest).
  { pose proof (frame_stdin_download_files md5 exported (S (S fuel))
                  {| src_id := folder_id; src_name := "Folder to Download" |}
                  (Path line) true w4) as H.
    rewrite Hrun in H. exact H. }
  exists w',
    ([EvInput; EvInput; EvLog DEBUG (MsgGettingFiles folder_id)] ++ ev1 ++
     [EvLog DEBUG MsgGotAllFiles; EvInput; EvInput;
      EvLog INFO (MsgDownloadingFrom "Folder to Download" (Path line))] ++ ev5).
  split.
  { unfold main, try_except. unfold bind at 1. unfold input at 1. rewrite Hs.
    unfold bind at 1. unfold input at 1. cbn [stdin set_stdin].
    unfold bind at 1. cbn [log emit]. unfold bind at 1.
    change (set_stdin (line :: answer :: rest) (set_stdin (rk :: line :: answer :: rest) w))
      with w2.
    rewrite Hls.
    unfold bind at 1. cbn [log emit].
    destruct (map (with_resource_key (Some rk))
                (map item_of_node
                   (filter (matches (list_query (Some folder_id))) (remote w2))))
      as [|it0 its] eqn:Hitems.
    { exfalso. apply Hne. unfold items, listed.
      apply map_eq_nil in Hitems. cbn [w2 remote set_stdin] in Hitems.
      now rewrite Hitems. }
    unfold bind at 1.
    rewrite (get_destination_accepts [] line (answer :: rest) 3 w2 eq_refl
               (Forall_nil _) Hdir (Nat.lt_0_succ _)).
    unfold bind at 1. unfold input at 1. cbn [stdin set_stdin].
    unfold confirms in Hyes. rewrite Hyes. cbn [negb].
    unfold bind at 1. cbn [log emit]. unfold bind at 1.
    change (set_stdin rest (set_stdin (answer :: rest) w2)) with w4.
    rewrite Hrun. cbn [log emit rejected flat_map app src_name].
    rewrite <- app_assoc. reflexivity. }
  split; [exact Hst|].
  split; [exact Hcontent|]. split; [exact Hgone|]. split; [exact Hfolder | exact Hincl].
Qed.



(** ** [delete_empty_folders]: a listing that fails *)

(** Drive's deletion of a folder leaves none of its children. *)
Lemma delete_tree_children fid store n :
  In n (delete_tree (S (List.length store)) [fid] store) ->
  r_id n <> fid /\ ~ In fid (r_parents n).
Proof.
  intros Hn. split.
  - apply delete_tree_gone in Hn. cbn [mem_id existsb] in Hn.
    rewrite orb_false_r in Hn. now apply String.eqb_neq.
  - cbn [delete_tree] in Hn.
    set (store' := filter (fun n => negb (mem_id (r_id n) [fid])) store) in *.
    set (kids := filter (fun n => existsb (fun p => mem_id p [fid]) (r_parents n))
                        store') in *.
    assert (Hkid : forall m, In m store' -> In fid (r_parents m) -> In m kids).
    { intros m Hm Hp. apply filter_In. split; [exact Hm|].
      rewrite mem_id_parents. now apply mem_id_true. }
    destruct kids as [|k kids'] eqn:Hk.
    + intros Hp. exact (Hkid n Hn Hp).
    + destruct store as [|x store0].
      { cbn in Hk. discriminate. }
      cbn [List.length] in Hn. intros Hp.
      pose proof (delete_tree_gone _ _ _ _ Hn) as Hout.
      apply delete_tree_incl in Hn. specialize (Hkid n Hn Hp).
      apply mem_id_false in Hout. apply Hout. now apply in_map.
Qed.

(** X24.  [delete_empty_folders] takes a folder whose listing fails for an
    empty folder: the listing returns no item, so the folder is deleted,
    and with it whatever it holds on Drive, which no call has
    downloaded. *)
Theorem failed_listing_reaps_the_folder :
  forall fuel folder_id max_retry w s,
    faults w = [Some s] ->
    find_node folder_id (remote w) <> None ->
    (0 < max_retry)%nat ->
    exists w',
      delete_empty_folders (S fuel) folder_id max_retry w
      = (Ok tt, w',
         [EvLog DEBUG MsgListing;
          EvList (list_query (Some folder_id)) None (inl s);
          EvLog ERROR (MsgErrorOccurred (HttpError s));
          EvDelete folder_id None; EvLog DEBUG (MsgFolderDeleted folder_id)]) /\
      local w' = local w /\
      incl (remote w') (remote w) /\
      forall n, In n (remote w') -> r_id n <> folder_id /\ ~ In folder_id (r_parents n).
Proof.
  intros fuel folder_id max_retry w s Hf Hroot Hn.
  destruct max_retry as [|n]; [lia|].
  cbn [delete_empty_folders]. unfold bind at 1.
  rewrite (list_sources_fault (Some folder_id) None w s [] Hf).
  cbn [seq delete_retry]. unfold bind at 1. unfold try_except. unfold bind at 1.
  rewrite (files_delete_nofault folder_id (set_faults [] w) eq_refl Hroot).
  unfold bind at 1. cbn [log emit ret app remote set_faults].
  eexists. split; [reflexivity|].
  cbn [local remote set_remote set_faults].
  split; [reflexivity|]. split; [apply delete_tree_incl|].
  intros m Hm. exact (delete_tree_children folder_id (remote w) m Hm).
Qed.

Lemma failed_listing_reaps_the_folder_witness :
  exists w',
    delete_empty_folders 1 "R" 5 listing_refused
    = (Ok tt, w',
       [EvLog DEBUG MsgListing;
        EvList (list_query (Some "R")) None (inl 503%Z);
        EvLog ERROR (MsgErrorOccurred (HttpError 503));
        EvDelete "R" None; EvLog DEBUG (MsgFolderDeleted "R")]) /\
    local w' = local listing_refused /\
    incl (remote w') (remote listing_refused) /\
    forall n, In n (remote w') -> r_id n <> "R" /\ ~ In "R" (r_parents n).
Proof.
  apply (failed_listing_reaps_the_folder 0%nat "R" 5%nat listing_refused 503%Z).
  - reflexivity.
  - discriminate.
  - lia.
Defined.

(** On [scenario] nothing is left of the root: the two files and the
    sub-folder are deleted with it, and none was downloaded. *)
Example refused_listing_empties_drive :
  let x := delete_empty_folders 1 "R" 5 listing_refused in
  remote (world_of x) = [] /\ writes (trace_of x) = [] /\
  local (world_of x) = local scenario.
Proof. vm_compute. repeat split. Qed.

(** ** The name of an exported document *)

Lemma string_length_app : forall a b,
  String.length (a ++ b)%string = (String.length a + String.length b)%nat.
Proof. induction a as [|c a IH]; intros b; cbn; [reflexivity | now rewrite IH]. Qed.

Lemma substring_prefix : forall a b, substring 0 (String.length a) (a ++ b)%string = a.
Proof.
  induction a as [|c a IH]; intros b; cbn.
  - now destruct b.
  - now rewrite IH.
Qed.

Lemma rfind_dot_app : forall a b i found,
  rfind_dot (a ++ b)%string i found = rfind_dot b (i + String.length a) (rfind_dot a i found).
Proof.
  induction a as [|c a IH]; intros b i found; cbn [append rfind_dot String.length].
  - now rewrite Nat.add_0_r.
  - rewrite IH. now rewrite Nat.add_succ_r.
Qed.

Lemma rfind_dot_dotless : forall s i found,
  dotless s = true -> rfind_dot s i found = found.
Proof.
  unfold dotless. induction s as [|c s IH]; intros i found H; [reflexivity|].
  cbn [list_ascii_of_string forallb] in H. apply andb_prop in H.
  destruct H as [Hc Hs]. apply negb_true_iff in Hc.
  cbn [rfind_dot]. rewrite Hc. now apply IH.
Qed.

Lemma name_with_suffix_extension stem ext suffix :
  stem <> "" -> ext <> "" -> dotless ext = true ->
  name_with_suffix (stem ++ "." ++ ext)%string suffix = (stem ++ suffix)%string.
Proof.
  intros Hstem Hext Hdot. unfold name_with_suffix.
  rewrite rfind_dot_app. cbn [append rfind_dot]. rewrite Ascii.eqb_refl.
  rewrite (rfind_dot_dotless ext _ _ Hdot). cbn [Nat.add].
  rewrite string_length_app. cbn [String.length append].
  assert (H1 : (0 <? String.length stem)%nat = true).
  { apply Nat.ltb_lt. destruct stem; [congruence | cbn; lia]. }
  assert (H2 : (String.length stem <? String.length stem + S (String.length ext) - 1)%nat
               = true).
  { apply Nat.ltb_lt. destruct ext; [congruence | cbn; lia]. }
  rewrite H1, H2. cbn [andb]. now rewrite substring_prefix.
Qed.

Lemma name_with_suffix_plain nm suffix :
  dotless nm = true -> name_with_suffix nm suffix = (nm ++ suffix)%string.
Proof.
  intros H. unfold name_with_suffix. now rewrite (rfind_dot_dotless nm _ _ H).
Qed.


(** With a separator in the extension the two documents go to different
    folders. *)
Example separator_in_the_extension :
  destination_of (item_of_node (document_node "1" "Q1.Sales/Marketing" "one" "R")) ["dl"]
  = ["dl"; "Q1.Sales"; "Marketing.docx"] /\
  destination_of (item_of_node (document_node "2" "Q1.Ops/Plan" "two" "R")) ["dl"]
  = ["dl"; "Q1.Ops"; "Plan.docx"].
Proof. split; reflexivity. Qed.


(** ** [main] and the walk it starts *)

(** [main] from the first prompt to the end, when the root has items, the
    first line given for the destination is a directory and the user
    confirms: the walk is started on the identifier that was typed, and
    [main] logs how it ends. *)
Lemma main_confirmed md5 exported fuel w folder_id rk line answer rest it items w1 ev1 :
  stdin w = folder_id :: rk :: line :: answer :: rest ->
  list_sources (Some folder_id) (Some rk) (set_stdin (line :: answer :: rest) w)
  = (Ok (it :: items), w1, ev1) ->
  fs_is_dir (Path line) (local w) = true ->
  confirms answer = true ->
  let x := download_files md5 exported fuel
             {| src_id := folder_id; src_name := "Folder to Download" |}
             (Path line) true (set_stdin rest w1) in
  main md5 exported fuel w
  = (match result_of x with OutOfFuel => OutOfFuel | _ => Ok tt end,
     world_of x,
     [EvInput; EvInput; EvLog DEBUG (MsgGettingFiles folder_id)] ++ ev1 ++
     [EvLog DEBUG MsgGotAllFiles; EvInput; EvInput;
      EvLog INFO (MsgDownloadingFrom "Folder to Download" (Path line))] ++
     trace_of x ++
     match result_of x with
     | Ok _ => [EvLog INFO MsgCompleted]
     | Raise e => [EvLog ERROR (MsgErrorOccurred e); EvLog ERROR MsgTraceback]
     | OutOfFuel => []
     end).
Proof.
  intros Hs Hls Hdir Hyes. cbv zeta.
  set (w2 := set_stdin (line :: answer :: rest) w) in *.
  pose proof (frame_list_sources (Some folder_id) (Some rk) w2) as F.
  rewrite Hls in F. destruct F as (_ & _ & Hl1 & _ & Hs1).
  cbn [world_of fst snd w2 local stdin set_stdin] in Hl1, Hs1.
  unfold main, try_except. unfold bind at 1. unfold input at 1. rewrite Hs.
  unfold bind at 1. unfold input at 1. cbn [stdin set_stdin].
  unfold bind at 1. cbn [log emit]. unfold bind at 1.
  change (set_stdin (line :: answer :: rest) (set_stdin (rk :: line :: answer :: rest) w))
    with w2.
  rewrite Hls. unfold bind at 1. cbn [log emit]. unfold bind at 1.
  rewrite <- Hl1 in Hdir.
  rewrite (get_destination_accepts [] line (answer :: rest) 3 w1 Hs1
             (Forall_nil _) Hdir (Nat.lt_0_succ _)).
  unfold bind at 1. unfold input at 1. cbn [stdin set_stdin].
  unfold confirms in Hyes. rewrite Hyes. cbn [negb].
  unfold bind at 1. cbn [log emit]. unfold bind at 1.
  change (set_stdin rest (set_stdin (answer :: rest) w1)) with (set_stdin rest w1).
  cbn [src_name].
  destruct (download_files md5 exported fuel
              {| src_id := folder_id; src_name := "Folder to Download" |}
              (Path line) true (set_stdin rest w1)) as [[[[]|e|] w5] ev5];
    cbn [result_of world_of trace_of fst snd log emit bind rejected flat_map app];
    rewrite <- ?app_assoc; cbn [app]; rewrite ?app_nil_r; reflexivity.
Qed.

(** ** The empty identifier *)

(** C10.  When the folder identifier is the empty string (or is absent),
    [list_sources] sends the query [trashed=false], with no constraint on
    the parents, and (Drive answering normally) returns every node of the
    store that is not in the trash; [download_files], started on the empty
    identifier, takes all these nodes as the items to download.  And this is
    what [main] does when the line typed for the identifier is empty: it
    passes the empty identifier to [list_sources], which returns the whole
    store, and, once a directory is given and the user confirms, starts
    [download_files] on the empty identifier, whose items to download are
    the whole store. *)
Theorem empty_root_lists_whole_store :
  forall md5 exported parent_id resource_key fuel nm dest w,
    truthy parent_id = false ->
    faults w = [] ->
    (result_of (list_sources parent_id resource_key w)
     = Ok (whole_store resource_key w) /\
     unconstrained (trace_of (list_sources parent_id resource_key w))) /\
    (make_dirs (prefixes dest) (local w) <> None ->
     exists pre post,
       trace_of (download_files md5 exported (S fuel)
                   {| src_id := ""; src_name := nm |} dest true w)
       = pre ++ EvLog DEBUG (MsgItemsToDownload (whole_store None w)) :: post /\
       unconstrained pre) /\
    (forall rk line answer rest,
       stdin w = "" :: rk :: line :: answer :: rest ->
       whole_store None w <> [] ->
       fs_is_dir (Path line) (local w) = true ->
       confirms answer = true ->
       make_dirs (prefixes (Path line)) (local w) <> None ->
       let listing :=
         list_sources (Some "") (Some rk) (set_stdin (line :: answer :: rest) w) in
       let job :=
         download_files md5 exported (S fuel)
           {| src_id := ""; src_name := "Folder to Download" |}
           (Path line) true (set_stdin rest w) in
       result_of listing = Ok (whole_store (Some rk) w) /\
       unconstrained (trace_of listing) /\
       (exists post,
          trace_of (main md5 exported (S fuel) w)
          = [EvInput; EvInput; EvLog DEBUG (MsgGettingFiles "")] ++
            trace_of listing ++
            [EvLog DEBUG MsgGotAllFiles; EvInput; EvInput;
             EvLog INFO (MsgDownloadingFrom "Folder to Download" (Path line))] ++
            trace_of job ++ post) /\
       world_of (main md5 exported (S fuel) w) = world_of job /\
       (exists pre post,
          trace_of job
          = pre ++ EvLog DEBUG (MsgItemsToDownload (whole_store None w)) :: post /\
          unconstrained pre)).
Proof.
  intros md5 exported p rk fuel nm dest w Hp Hf.
  assert (Hjob : forall nm dest w, faults w = [] ->
            make_dirs (prefixes dest) (local w) <> None ->
            exists pre post,
              trace_of (download_files md5 exported (S fuel)
                          {| src_id := ""; src_name := nm |} dest true w)
              = pre ++ EvLog DEBUG (MsgItemsToDownload (whole_store None w)) :: post /\
              unconstrained pre).
  { clear. intros nm dest w Hf Hmk.
    cbn [download_files negb src_id]. unfold bind at 1. unfold mkdir.
    destruct (make_dirs (prefixes dest) (local w)) as [fs|]; [|congruence].
    unfold bind at 1.
    destruct (list_sources_nofault (Some "") None (set_local fs w) Hf)
      as (evs & Hrun & Hev).
    rewrite Hrun. unfold bind at 1. cbn [log emit].
    match goal with
    | |- context [bind ?m ?k ?w1] => destruct (bind m k w1) as [[r2 w2] e2]
    end.
    exists ([EvMkdir dest] ++ evs), e2. split.
    + cbn [trace_of snd]. rewrite <- app_assoc. reflexivity.
    + constructor; [exact I|]. now apply lists_only_all. }
  split; [|split].
  - destruct (list_sources_nofault p rk w Hf) as (evs & Hrun & Hev).
    rewrite Hrun, (list_query_falsy p Hp) in *. split; [reflexivity|].
    now apply lists_only_all.
  - now apply Hjob.
  - intros rk' line answer rest Hs Hne Hdir Hyes Hmk. cbv zeta.
    set (w2 := set_stdin (line :: answer :: rest) w).
    destruct (list_sources_nofault (Some "") (Some rk') w2 Hf) as (evs & Hrun & Hev).
    change (list_query (Some "")) with QAll in Hev.
    assert (Hrun' : list_sources (Some "") (Some rk') w2
                    = (Ok (whole_store (Some rk') w), w2, evs)) by exact Hrun.
    clear Hrun. rename Hrun' into Hrun.
    destruct (whole_store (Some rk') w) as [|it items] eqn:Hitems.
    { exfalso. apply Hne. unfold whole_store in *.
      apply map_eq_nil in Hitems. now rewrite Hitems. }
    pose proof (main_confirmed md5 exported (S fuel) w "" rk' line answer rest it items
                  w2 evs Hs Hrun Hdir Hyes) as Hmain.
    cbv zeta in Hmain.
    change (set_stdin rest w2) with (set_stdin rest w) in Hmain.
    rewrite Hrun. cbn [result_of trace_of fst snd].
    split; [reflexivity|]. split; [now apply lists_only_all|].
    rewrite Hmain. cbn [trace_of world_of fst snd].
    split; [eexists; reflexivity|]. split; [reflexivity|].
    exact (Hjob "Folder to Download" (Path line) (set_stdin rest w) Hf Hmk).
Qed.

Lemma empty_root_lists_whole_store_witness :
  (result_of (list_sources (Some "") (Some "") whole_drive)
   = Ok (whole_store (Some "") whole_drive) /\
   unconstrained (trace_of (list_sources (Some "") (Some "") whole_drive))) /\
  (exists pre post,
     trace_of (download_files plain_digest plain_export 3
                 {| src_id := ""; src_name := "Folder to Download" |} ["dl"] true
                 whole_drive)
     = pre ++ EvLog DEBUG (MsgItemsToDownload (whole_store None whole_drive)) :: post /\
     unconstrained pre) /\
  (let listing := list_sources (Some "") (Some "") (set_stdin ["dl"; "yes"] whole_drive) in
   let job :=
     download_files plain_digest plain_export 3
       {| src_id := ""; src_name := "Folder to Download" |}
       (Path "dl") true (set_stdin [] whole_drive) in
   result_of listing = Ok (whole_store (Some "") whole_drive) /\
   unconstrained (trace_of listing) /\
   (exists post,
      trace_of (main plain_digest plain_export 3 whole_drive)
      = [EvInput; EvInput; EvLog DEBUG (MsgGettingFiles "")] ++
        trace_of listing ++
        [EvLog DEBUG MsgGotAllFiles; EvInput; EvInput;
         EvLog INFO (MsgDownloadingFrom "Folder to Download" (Path "dl"))] ++
        trace_of job ++ post) /\
   world_of (main plain_digest plain_export 3 whole_drive) = world_of job /\
   (exists pre post,
      trace_of job
      = pre ++ EvLog DEBUG (MsgItemsToDownload (whole_store None whole_drive)) :: post /\
      unconstrained pre)).
Proof.
  pose proof (empty_root_lists_whole_store plain_digest plain_export (Some "")
                (Some "") 2 "Folder to Download" ["dl"] whole_drive
                eq_refl eq_refl) as (H1 & H2 & H3).
  split; [exact H1|]. split; [apply H2; discriminate|].
  apply (H3 "" "dl" "yes" []).
  - reflexivity.
  - discriminate.
  - reflexivity.
  - reflexivity.
  - discriminate.
Defined.

(** On [whole_drive] the user types no identifier, and the job takes the
    root folder itself and everything under it: the two files are written to
    the destination and every node is deleted from Drive. *)
Example empty_identifier_takes_everything :
  let x := main plain_digest plain_export 5 whole_drive in
  result_of x = Ok tt /\
  map id (whole_store None whole_drive) = ["R"; "a"; "b"; "c"] /\
  writes (trace_of x) <> [] /\
  remote (world_of x) = [].
Proof. vm_compute. repeat split. discriminate. Qed.

(** ** Failures inside the transfer of a file *)

(** A loop stops at the first item whose body raises. *)
Lemma for_each_raises A (body : A -> M unit) : forall pre x post w w1 ev1 e w2 ev2,
  for_each pre body w = (Ok tt, w1, ev1) ->
  body x w1 = (Raise e, w2, ev2) ->
  for_each (pre ++ x :: post) body w = (Raise e, w2, ev1 ++ ev2).
Proof.
  induction pre as [|p pre IH]; intros x post w w1 ev1 e w2 ev2 Hpre Hx.
  - cbn in Hpre. injection Hpre as <- <-. cbn [app for_each]. unfold bind.
    now rewrite Hx.
  - cbn [app for_each] in *. unfold bind in *.
    destruct (body p w) as [[[[]|e0|] wa] ea]; try discriminate.
    destruct (for_each pre body wa) as [[r wb] eb] eqn:Hrec.
    injection Hpre as -> -> <-.
    rewrite (IH x post wa w1 eb e w2 ev2 Hrec Hx). now rewrite app_assoc.
Qed.

Lemma bind_assoc A B C (m : M A) (k : A -> M B) (k2 : B -> M C) w :
  bind (bind m k) k2 w = bind m (fun a => bind (k a) k2) w.
Proof.
  unfold bind. destruct (m w) as [[[a|e|] w1] e1]; try reflexivity.
  destruct (k a w1) as [[[b|e|] w2] e2]; try reflexivity.
  destruct (k2 b w2) as [[r w3] e3]. now rewrite app_assoc.
Qed.

Lemma bind_ext A B (m : M A) (k k' : A -> M B) w :
  (forall a w1, k a w1 = k' a w1) -> bind m k w = bind m k' w.
Proof.
  intros H. unfold bind. destruct (m w) as [[[a|e|] w1] e1]; try reflexivity.
  now rewrite H.
Qed.

Lemma bind_ret A B (a : A) (k : A -> M B) w : bind (ret a) k w = k a w.
Proof. unfold bind, ret. now destruct (k a w) as [[r w1] e1]. Qed.

(** [download_files] is what [enter_folder] prepares, the two loops and the
    reaper. *)
Lemma download_files_enter md5 exported fuel src dest is_root w :
  let target := if negb is_root then joinpath dest (src_name src) else dest in
  download_files md5 exported (S fuel) src dest is_root w
  = bind (enter_folder fuel src target)
         (fun ip =>
            bind (download_each md5 exported (fst ip) target (snd ip)) (fun _ =>
            bind (download_folders md5 exported fuel (fst ip) target) (fun _ =>
            delete_empty_folders fuel (src_id src) 5))) w.
Proof.
  cbv zeta. rewrite download_files_loop. cbv zeta. symmetry.
  unfold enter_folder.
  rewrite bind_assoc. apply bind_ext. intros _ w1.
  rewrite bind_assoc. apply bind_ext. intros items w2.
  rewrite bind_assoc. apply bind_ext. intros _ w3.
  rewrite bind_assoc. apply bind_ext. intros total w4.
  rewrite bind_assoc. apply bind_ext. intros pbar w5.
  rewrite bind_ret. reflexivity.
Qed.

(** The three local operations of [download_file]: a failure of each
    leaves the function. *)
Lemma download_file_mkdir_fails md5 exported it dest pbar max_retry w :
  make_dirs (prefixes dest) (local w) = None ->
  download_file md5 exported it dest pbar max_retry w
  = (Raise OSError, w,
     [EvPrint (name it); EvLog DEBUG (MsgProcessing (name it) (id it)); EvMkdir dest]).
Proof.
  intros H. unfold download_file. unfold bind at 1. cbn [emit]. unfold bind at 1.
  cbn [log emit]. unfold try_except. unfold bind at 1. unfold mkdir. rewrite H.
  reflexivity.
Qed.

Lemma download_file_read_fails md5 exported it dest pbar max_retry w fs :
  make_dirs (prefixes dest) (local w) = Some fs ->
  fs_lookup (joinpath dest (name it)) fs = Some Dir ->
  download_file md5 exported it dest pbar max_retry w
  = (Raise OSError, set_local fs w,
     [EvPrint (name it); EvLog DEBUG (MsgProcessing (name it) (id it)); EvMkdir dest;
      EvRead (joinpath dest (name it))]).
Proof.
  intros Hfs Hdir. unfold download_file. unfold bind at 1. cbn [emit].
  unfold bind at 1. cbn [log emit]. unfold try_except. unfold bind at 1.
  unfold mkdir. rewrite Hfs.
  unfold already_there, path_exists, read_file, fs_exists, bind.
  destruct (joinpath dest (name it));
    do 3 (cbn [local set_local]; rewrite ?Hdir); reflexivity.
Qed.

Lemma download_file_write_fails md5 exported it dest pbar max_retry w sts body fs :
  has_name (joinpath dest (name it)) = true ->
  faults w = map Some sts ->
  Forall (fun s => is_rate_limit s = true) sts ->
  (List.length sts < max_retry)%nat ->
  body_of exported (request_of it) (remote w) = Some body ->
  make_dirs (prefixes dest) (local w) = Some fs ->
  not_there md5 it (joinpath dest (name it)) fs ->
  fs_is_dir (removelast (destination_of it dest)) fs
  && negb (fs_is_dir (destination_of it dest) fs) = false ->
  exists w' evs,
    download_file md5 exported it dest pbar max_retry w = (Raise OSError, w', evs) /\
    local w' = fs /\ remote w' = remote w /\ removals evs = [].
Proof.
  intros Hnm Hf Hall Hlen Hb Hfs Hnot Hwr.
  set (w1 := set_local fs w).
  destruct (already_there_not md5 it (joinpath dest (name it)) w1 Hnot
              (has_name_nonempty _ Hnm))
    as (ev1 & Hrun1 & _ & Ht1 & _ & _).
  destruct (fetch_retry_recovers exported (request_of it) pbar body sts max_retry
              0%nat new_downloader w1 Hf Hall Hb eq_refl (Nat.le_0_l _) Hlen)
    as (dl & w2 & ev2 & Hrun2 & _ & _ & _ & _ & Hr2 & _ & Hl2 & _).
  pose proof (removals_fetch_retry exported (seq 0 max_retry) (request_of it) pbar
                new_downloader w1) as Hq2.
  rewrite Hrun2 in Hq2. cbn [trace_of snd] in Hq2.
  pose proof (removals_already_there md5 it (joinpath dest (name it)) w1) as Hq1.
  rewrite Hrun1 in Hq1. cbn [trace_of snd] in Hq1.
  unfold download_file. unfold bind at 1. cbn [emit]. unfold bind at 1.
  cbn [log emit]. unfold try_except. unfold bind at 1. unfold mkdir. rewrite Hfs.
  fold w1. unfold bind at 1. rewrite Hrun1. unfold bind at 1. cbn [log emit].
  unfold bind at 1. rewrite (select_request_ok it dest w1 Hnm). cbn [fst snd].
  unfold bind at 1. rewrite Hrun2. unfold bind at 1. cbn [log emit].
  unfold bind at 1. unfold write_file. rewrite Hl2. cbn [w1 local set_local].
  rewrite Hwr. do 2 eexists. split; [reflexivity|].
  split; [exact Hl2|]. split; [exact Hr2|].
  unfold removals in *.
  repeat (progress (cbn [filter app]; rewrite ?filter_app, ?Hq1, ?Hq2)).
  reflexivity.
Qed.

Lemma file_names_app a b : file_names (a ++ b) = file_names a ++ file_names b.
Proof. unfold file_names. now rewrite filter_app, map_app. Qed.

(** The loop over the files stops at the file whose transfer raises. *)
Lemma download_each_stops md5 exported pre it post dest pbar w e :
  let a := download_each md5 exported pre dest pbar w in
  let b := download_file md5 exported it dest pbar 5 (world_of a) in
  result_of a = Ok tt -> is_folder it = false -> result_of b = Raise e ->
  download_each md5 exported (pre ++ it :: post) dest pbar w
  = (Raise e, world_of b, trace_of a ++ trace_of b) /\
  processed (trace_of a ++ trace_of b) = file_names pre ++ [name it].
Proof.
  cbv zeta. intros Ha Hit Hb.
  destruct (download_each md5 exported pre dest pbar w) as [[ra wa] ea] eqn:Ea.
  cbn [result_of world_of trace_of fst snd] in *. subst ra.
  pose proof (processed_download_file md5 exported it dest pbar 5 wa) as Hp.
  destruct (download_file md5 exported it dest pbar 5 wa) as [[rb wb] eb] eqn:Eb.
  cbn [result_of world_of trace_of fst snd] in *. subst rb.
  split.
  - unfold download_each in *. apply (for_each_raises _ _ pre it post w wa ea e wb eb Ea).
    rewrite Hit. exact Eb.
  - rewrite processed_app, Hp.
    now rewrite (download_each_runs md5 exported dest pbar pre w (Ok tt) wa ea Ea).
Qed.

(** The loop over the sub-folders stops at the folder whose walk raises. *)
Lemma download_folders_stops md5 exported fuel pre it post dest w e :
  let a := download_folders md5 exported fuel pre dest w in
  let b := download_files md5 exported fuel {| src_id := id it; src_name := name it |}
             dest false (world_of a) in
  result_of a = Ok tt -> is_folder it = true -> result_of b = Raise e ->
  download_folders md5 exported fuel (pre ++ it :: post) dest w
  = (Raise e, world_of b, trace_of a ++ trace_of b).
Proof.
  cbv zeta. intros Ha Hit Hb.
  destruct (download_folders md5 exported fuel pre dest w) as [[ra wa] ea] eqn:Ea.
  cbn [result_of world_of trace_of fst snd] in *. subst ra.
  destruct (download_files md5 exported fuel {| src_id := id it; src_name := name it |}
              dest false wa) as [[rb wb] eb] eqn:Eb.
  cbn [result_of world_of trace_of fst snd] in *. subst rb.
  unfold download_folders in *. apply (for_each_raises _ _ pre it post w wa ea e wb eb Ea).
  rewrite Hit. exact Eb.
Qed.

(** [download_files] catches nothing: what a loop raises ends the call,
    before the sub-folders (for the loop over the files) and before the
    reaper. *)
Lemma download_files_stops_in_files md5 exported fuel src dest is_root w items pbar e :
  let target := if negb is_root then joinpath dest (src_name src) else dest in
  let a := enter_folder fuel src target w in
  let f := download_each md5 exported items target pbar (world_of a) in
  result_of a = Ok (items, pbar) -> result_of f = Raise e ->
  download_files md5 exported (S fuel) src dest is_root w
  = (Raise e, world_of f, trace_of a ++ trace_of f).
Proof.
  cbv zeta. intros Ha Hf. rewrite download_files_enter. cbv zeta. unfold bind at 1.
  destruct (enter_folder fuel src _ w) as [[ra wa] ea].
  cbn [result_of world_of trace_of fst snd] in *. subst ra. cbn [fst snd].
  unfold bind at 1.
  destruct (download_each md5 exported items _ pbar wa) as [[rf wf] ef].
  cbn [result_of world_of trace_of fst snd] in *. subst rf. reflexivity.
Qed.

Lemma download_files_stops_in_folders md5 exported fuel src dest is_root w items pbar e :
  let target := if negb is_root then joinpath dest (src_name src) else dest in
  let a := enter_folder fuel src target w in
  let f := download_each md5 exported items target pbar (world_of a) in
  let g := download_folders md5 exported fuel items target (world_of f) in
  result_of a = Ok (items, pbar) -> result_of f = Ok tt -> result_of g = Raise e ->
  download_files md5 exported (S fuel) src dest is_root w
  = (Raise e, world_of g, trace_of a ++ trace_of f ++ trace_of g).
Proof.
  cbv zeta. intros Ha Hf Hg. rewrite download_files_enter. cbv zeta. unfold bind at 1.
  destruct (enter_folder fuel src _ w) as [[ra wa] ea].
  cbn [result_of world_of trace_of fst snd] in *. subst ra. cbn [fst snd].
  unfold bind at 1.
  destruct (download_each md5 exported items _ pbar wa) as [[rf wf] ef].
  cbn [result_of world_of trace_of fst snd] in *. subst rf.
  unfold bind at 1.
  destruct (download_folders md5 exported fuel items _ wf) as [[rg wg] eg].
  cbn [result_of world_of trace_of fst snd] in *. subst rg. reflexivity.
Qed.

(** [main] catches what the walk raises and logs it. *)
Lemma main_logs_failure md5 exported fuel w folder_id rk line answer rest e :
  let listing :=
    list_sources (Some folder_id) (Some rk) (set_stdin (line :: answer :: rest) w) in
  let job :=
    download_files md5 exported fuel
      {| src_id := folder_id; src_name := "Folder to Download" |}
      (Path line) true (set_stdin rest (world_of listing)) in
  stdin w = folder_id :: rk :: line :: answer :: rest ->
  (exists it items, result_of listing = Ok (it :: items)) ->
  fs_is_dir (Path line) (local w) = true ->
  confirms answer = true ->
  result_of job = Raise e ->
  main md5 exported fuel w
  = (Ok tt, world_of job,
     [EvInput; EvInput; EvLog DEBUG (MsgGettingFiles folder_id)] ++
     trace_of listing ++
     [EvLog DEBUG MsgGotAllFiles; EvInput; EvInput;
      EvLog INFO (MsgDownloadingFrom "Folder to Download" (Path line))] ++
     trace_of job ++
     [EvLog ERROR (MsgErrorOccurred e); EvLog ERROR MsgTraceback]).
Proof.
  cbv zeta. intros Hs (it & items & Hl) Hdir Hyes Hjob.
  destruct (list_sources (Some folder_id) (Some rk)
              (set_stdin (line :: answer :: rest) w)) as [[r1 w1] ev1] eqn:Hls.
  cbn [result_of world_of trace_of fst snd] in *. subst r1.
  rewrite (main_confirmed md5 exported fuel w folder_id rk line answer rest it items
             w1 ev1 Hs Hls Hdir Hyes).
  cbv zeta. now rewrite Hjob.
Qed.

(** C5, amended.  An HttpError inside the transfer of a file never leaves
    [download_file]: the transfer returns normally or raises a local
    exception, and it always returns; so the loop over the files of a folder
    processes every file of the listing, in order, unless a local operation
    fails.  A local failure does leave [download_file]: when the destination
    folder cannot be made, when the destination exists and cannot be read,
    and when the content cannot be written (then nothing is deleted).  The
    loop over the files stops at the file whose transfer raises, the loop
    over the sub-folders at the folder whose walk raises, and
    [download_files] ends there with the same exception, without visiting
    the sub-folders (for a file of the folder) and without the reaper;
    [main] catches the exception and logs it. *)
Theorem remote_failure_stays_in_its_file :
  forall md5 exported,
    (forall it dest pbar max_retry w,
       match result_of (download_file md5 exported it dest pbar max_retry w) with
       | Ok _ => True
       | Raise e => local_failure e = true
       | OutOfFuel => False
       end) /\
    (forall items dest pbar w,
       match result_of (download_each md5 exported items dest pbar w) with
       | Ok _ =>
           processed (trace_of (download_each md5 exported items dest pbar w))
           = file_names items
       | Raise e => local_failure e = true
       | OutOfFuel => False
       end) /\
    (forall it dest pbar max_retry w,
       make_dirs (prefixes dest) (local w) = None ->
       download_file md5 exported it dest pbar max_retry w
       = (Raise OSError, w,
          [EvPrint (name it); EvLog DEBUG (MsgProcessing (name it) (id it));
           EvMkdir dest])) /\
    (forall it dest pbar max_retry w fs,
       make_dirs (prefixes dest) (local w) = Some fs ->
       fs_lookup (joinpath dest (name it)) fs = Some Dir ->
       download_file md5 exported it dest pbar max_retry w
       = (Raise OSError, set_local fs w,
          [EvPrint (name it); EvLog DEBUG (MsgProcessing (name it) (id it));
           EvMkdir dest; EvRead (joinpath dest (name it))])) /\
    (forall it dest pbar max_retry w sts body fs,
       has_name (joinpath dest (name it)) = true ->
       faults w = map Some sts ->
       Forall (fun s => is_rate_limit s = true) sts ->
       (List.length sts < max_retry)%nat ->
       body_of exported (request_of it) (remote w) = Some body ->
       make_dirs (prefixes dest) (local w) = Some fs ->
       not_there md5 it (joinpath dest (name it)) fs ->
       fs_is_dir (removelast (destination_of it dest)) fs
       && negb (fs_is_dir (destination_of it dest) fs) = false ->
       exists w' evs,
         download_file md5 exported it dest pbar max_retry w = (Raise OSError, w', evs) /\
         local w' = fs /\ remote w' = remote w /\ removals evs = []) /\
    (forall pre it post dest pbar w e,
       let a := download_each md5 exported pre dest pbar w in
       let b := download_file md5 exported it dest pbar 5 (world_of a) in
       result_of a = Ok tt -> is_folder it = false -> result_of b = Raise e ->
       download_each md5 exported (pre ++ it :: post) dest pbar w
       = (Raise e, world_of b, trace_of a ++ trace_of b) /\
       processed (trace_of a ++ trace_of b) = file_names pre ++ [name it]) /\
    (forall fuel pre it post dest w e,
       let a := download_folders md5 exported fuel pre dest w in
       let b := download_files md5 exported fuel
                  {| src_id := id it; src_name := name it |} dest false (world_of a) in
       result_of a = Ok tt -> is_folder it = true -> result_of b = Raise e ->
       download_folders md5 exported fuel (pre ++ it :: post) dest w
       = (Raise e, world_of b, trace_of a ++ trace_of b)) /\
    (forall fuel src dest is_root w items pbar e,
       let target := if negb is_root then joinpath dest (src_name src) else dest in
       let a := enter_folder fuel src target w in
       let f := download_each md5 exported items target pbar (world_of a) in
       result_of a = Ok (items, pbar) -> result_of f = Raise e ->
       download_files md5 exported (S fuel) src dest is_root w
       = (Raise e, world_of f, trace_of a ++ trace_of f)) /\
    (forall fuel src dest is_root w items pbar e,
       let target := if negb is_root then joinpath dest (src_name src) else dest in
       let a := enter_folder fuel src target w in
       let f := download_each md5 exported items target pbar (world_of a) in
       let g := download_folders md5 exported fuel items target (world_of f) in
       result_of a = Ok (items, pbar) -> result_of f = Ok tt ->
       result_of g = Raise e ->
       download_files md5 exported (S fuel) src dest is_root w
       = (Raise e, world_of g, trace_of a ++ trace_of f ++ trace_of g)) /\
    (forall fuel w folder_id rk line answer rest e,
       let listing :=
         list_sources (Some folder_id) (Some rk)
           (set_stdin (line :: answer :: rest) w) in
       let job :=
         download_files md5 exported fuel
           {| src_id := folder_id; src_name := "Folder to Download" |}
           (Path line) true (set_stdin rest (world_of listing)) in
       stdin w = folder_id :: rk :: line :: answer :: rest ->
       (exists it items, result_of listing = Ok (it :: items)) ->
       fs_is_dir (Path line) (local w) = true ->
       confirms answer = true ->
       result_of job = Raise e ->
       main md5 exported fuel w
       = (Ok tt, world_of job,
          [EvInput; EvInput; EvLog DEBUG (MsgGettingFiles folder_id)] ++
          trace_of listing ++
          [EvLog DEBUG MsgGotAllFiles; EvInput; EvInput;
           EvLog INFO (MsgDownloadingFrom "Folder to Download" (Path line))] ++
          trace_of job ++
          [EvLog ERROR (MsgErrorOccurred e); EvLog ERROR MsgTraceback])).
Proof.
  intros md5 exported.
  split.
  { intros it dest pbar n w.
    pose proof (total_download_file md5 exported it dest pbar n w) as Ht.
    pose proof (http_free_download_file md5 exported it dest pbar n w) as Hh.
    destruct (result_of _) as [a|e|]; auto.
    destruct e; [exfalso; eapply Hh; reflexivity | reflexivity..]. }
  split.
  { intros items dest pbar w.
    destruct (download_each md5 exported items dest pbar w) as [[r w'] evs] eqn:Hrun.
    exact (download_each_runs md5 exported dest pbar items w r w' evs Hrun). }
  split; [exact (download_file_mkdir_fails md5 exported)|].
  split; [exact (download_file_read_fails md5 exported)|].
  split; [exact (download_file_write_fails md5 exported)|].
  split; [intros; now apply download_each_stops|].
  split; [intros; now apply download_folders_stops|].
  split; [intros; now apply download_files_stops_in_files|].
  split; [intros; now apply download_files_stops_in_folders|].
  intros. now apply main_logs_failure.
Qed.

Lemma remote_failure_stays_in_its_file_witness :
  (download_file plain_digest plain_export item_notes ["dl"] 0 5 no_directory
   = (Raise OSError, no_directory,
      [EvPrint "notes"; EvLog DEBUG (MsgProcessing "notes" "d"); EvMkdir ["dl"]])) /\
  (download_file plain_digest plain_export item_z ["dl"] 0 5 occupied
   = (Raise OSError, set_local (local occupied) occupied,
      [EvPrint "Z.bin"; EvLog DEBUG (MsgProcessing "Z.bin" "z"); EvMkdir ["dl"];
       EvRead ["dl"; "Z.bin"]])) /\
  (exists w' evs,
     download_file plain_digest plain_export item_notes ["dl"] 0 5 blocked
     = (Raise OSError, w', evs) /\
     local w' = local blocked /\ remote w' = remote blocked /\ removals evs = []) /\
  (let b := download_file plain_digest plain_export item_notes ["dl"] 0 5 blocked in
   download_each plain_digest plain_export [item_notes; item_z] ["dl"] 0 blocked
   = (Raise OSError, world_of b, trace_of b) /\
   processed (trace_of b) = ["notes"]) /\
  (let b := download_files plain_digest plain_export 3
              {| src_id := "b"; src_name := "B" |} ["dl"] false blocked_below in
   download_folders plain_digest plain_export 3
     (listed (Some "R") None blocked_below) ["dl"] blocked_below
   = (Raise OSError, world_of b, trace_of b)) /\
  (let a := enter_folder 3 scenario_root ["dl"] blocked in
   let f := download_each plain_digest plain_export (listed (Some "R") None blocked)
              ["dl"] 0 (world_of a) in
   download_files plain_digest plain_export 4 scenario_root ["dl"] true blocked
   = (Raise OSError, world_of f, trace_of a ++ trace_of f)) /\
  (let a := enter_folder 3 scenario_root ["dl"] blocked_below in
   let f := download_each plain_digest plain_export
              (listed (Some "R") None blocked_below) ["dl"] 0 (world_of a) in
   let g := download_folders plain_digest plain_export 3
              (listed (Some "R") None blocked_below) ["dl"] (world_of f) in
   download_files plain_digest plain_export 4 scenario_root ["dl"] true blocked_below
   = (Raise OSError, world_of g, trace_of a ++ trace_of f ++ trace_of g)) /\
  (let listing := list_sources (Some "R") (Some "") (set_stdin ["dl"; "y"] blocked) in
   let job := download_files plain_digest plain_export 4 scenario_root (Path "dl") true
                (set_stdin [] (world_of listing)) in
   main plain_digest plain_export 4 blocked
   = (Ok tt, world_of job,
      [EvInput; EvInput; EvLog DEBUG (MsgGettingFiles "R")] ++
      trace_of listing ++
      [EvLog DEBUG MsgGotAllFiles; EvInput; EvInput;
       EvLog INFO (MsgDownloadingFrom "Folder to Download" (Path "dl"))] ++
      trace_of job ++
      [EvLog ERROR (MsgErrorOccurred OSError); EvLog ERROR MsgTraceback])).
Proof.
  pose proof (remote_failure_stays_in_its_file plain_digest plain_export)
    as (_ & _ & H3a & H3b & H3c & H4 & H4' & H5 & H5' & H6).
  split.
  { apply (H3a item_notes ["dl"] 0%nat 5%nat no_directory). reflexivity. }
  split.
  { apply (H3b item_z ["dl"] 0%nat 5%nat occupied (local occupied)); reflexivity. }
  split.
  { apply (H3c item_notes ["dl"] 0%nat 5%nat blocked [] (bytes_of "text")
             (local blocked)).
    - reflexivity.
    - reflexivity.
    - constructor.
    - cbn. lia.
    - reflexivity.
    - reflexivity.
    - left. reflexivity.
    - reflexivity. }
  split.
  { apply (H4 [] item_notes [item_z] ["dl"] 0%nat blocked OSError); reflexivity. }
  split.
  { apply (H4' 3%nat [item_of_node (file_node "a" "A.bin" "hello" "R")]
             (item_of_node (folder_node "b" "B" ["R"])) [] ["dl"] blocked_below OSError);
      reflexivity. }
  split.
  { apply (H5 3%nat scenario_root ["dl"] true blocked
             (listed (Some "R") None blocked) 0%nat OSError); reflexivity. }
  split.
  { apply (H5' 3%nat scenario_root ["dl"] true blocked_below
             (listed (Some "R") None blocked_below) 0%nat OSError); reflexivity. }
  apply (H6 4%nat blocked "R" "" "dl" "y" [] OSError).
  - reflexivity.
  - do 2 eexists. reflexivity.
  - reflexivity.
  - reflexivity.
  - reflexivity.
Defined.
